(** * Life RPG (app.js): rollover and scoring engine

    A shallow embedding of the scoring engine ([computeDayTotals],
    [upsertDaySummary]), the streak evaluator ([allScheduledHabitsComplete]),
    quest assignment ([randomSample], [assignDailyQuests],
    [assignWeeklyQuests]) and the rollover controller ([ensureRollover]) of
    [src/app.js], with the properties the specification states about them;
    and of the date utilities ([todayStr], [pad2], [startOfWeek],
    [isSameDay]), the click handlers ([toggleTask], [toggleHabitBinary],
    [stepHabitCounter], [completeHabitCounter], [toggleAssignedQuest],
    [toggleEvent], the four deletions, [getOrCreateHabitLog]), the midnight
    watcher, the lists of the Today view ([renderSectionTasks],
    [renderSectionHabits], the two quest sections, [renderCompletedToday])
    and [escapeHtml], with properties that the code shows.

    Conventions of the embedding.
    - A calendar string 'YYYY-MM-DD' is the number of its day counted from
      1970-01-01 (day 0); comparing two such strings with [===] is comparing
      the day numbers.  A timestamp (an ISO string handed to [new Date]) is
      its instant in milliseconds since the epoch; [null] is [None].
    - The local time zone is a fixed offset [utcOffset] (milliseconds east of
      UTC); daylight-saving changes are not modelled.
    - Numbers the program only ever treats as integers (points, counts,
      targets, streaks) are integers.  The expressions that leave the
      integers, the partial credit of a counter habit and the reward of a
      multiplied quest, are evaluated in IEEE binary64 as JavaScript does,
      and [Math.floor] brings them back.  The running total of
      [computeDayTotals] is a binary64 Number too: every [total += pts] is
      a binary64 addition, exact as long as the sums stay below 2^53 and
      rounded beyond.  A stored [NaN] or [Infinity] ([parseInt] of no digit,
      or of more than 308 digits) is not an integer and has no place in the
      embedding, nor has a total beyond the binary64 range (2^1024).
    - [Math.random()] and [uid()] are oracles of the environment, read
      through call counters kept in the state.
    - IndexedDB writes ([db.set], [db.bulkPut], [db.del]) mirror the
      in-memory [AppState]: what they write is not represented, only, for
      calls of [ensureRollover] that overlap, the points at which a call
      awaits them.  Of the rendering only the lists of the Today view and
      [escapeHtml] are represented. *)

From Stdlib Require Import ZArith NArith Bool Lia Ascii.
From Stdlib Require Import DecimalString DecimalZ DecimalPos.
From Stdlib Require Import Floats.SpecFloat.
From stdpp Require Import base option list strings.

Local Open Scope Z_scope.

(** ** JavaScript values *)

Module JS.

(** [x || d] on numbers: the only falsy integer is 0. *)
Definition or_else (x d : Z) : Z := if x =? 0 then d else x.

Definition or_elseN (x d : N) : N := if (x =? 0)%N then d else x.

(** [const clamp = (n, min, max) => Math.max(min, Math.min(max, n))] *)
Definition clamp (n min max : Z) : Z := Z.max min (Z.min max n).

(** IEEE binary64, the JavaScript Number type. *)
Definition prec : Z := 53.
Definition emax : Z := 1024.

Definition number := spec_float.

Definition ofZ (z : Z) : number := binary_normalize prec emax z 0 false.
Definition add : number -> number -> number := SFadd prec emax.
Definition mul : number -> number -> number := SFmul prec emax.
Definition div : number -> number -> number := SFdiv prec emax.

Definition zero : number := ofZ 0.
Definition one : number := ofZ 1.

(** Truthiness of a Number: false for +0, -0 and NaN. *)
Definition truthy (x : number) : bool :=
  match x with
  | S754_zero _ | S754_nan => false
  | _ => true
  end.

(** [x || d] on Numbers. *)
Definition or_elseF (x d : number) : number := if truthy x then x else d.

(** [Math.floor] of a product or quotient, read back as an integer.  A
    finite value [m * 2^e] of either sign is floored exactly ([Z.shiftr]
    rounds towards minus infinity); both zeros give 0.  Infinity and NaN have
    no integer reading and are given 0 here: they need an operand that is
    itself infinite or NaN, or a result beyond the binary64 range (about
    1.8e308), which stored points, counts and reward factors never reach. *)
Definition floor (x : number) : Z :=
  match x with
  | S754_finite s m e =>
      let v := if s then Z.neg m else Z.pos m in
      if 0 <=? e then Z.shiftl v e else Z.shiftr v (- e)
  | _ => 0
  end.

End JS.

(** ** Clock and calendar utilities *)

Module Clock.

Definition msPerDay : Z := 86400000.

(** [todayStr(d)]: the local calendar day of the instant [d]. *)
Definition todayStr (utcOffset : Z) (d : Z) : Z := (d + utcOffset) / msPerDay.

(** [new Date(dateStr)]: a date-only ISO string is read as UTC midnight. *)
Definition parseDateOnly (dateStr : Z) : Z := dateStr * msPerDay.

(** [new Date(dateStr + 'T00:00:00')]: a date-time string without offset
    is read as local time. *)
Definition dateStart (utcOffset : Z) (dateStr : Z) : Z :=
  dateStr * msPerDay - utcOffset.

(** [new Date(dateStr + 'T23:59:59.999')] *)
Definition dateEnd (utcOffset : Z) (dateStr : Z) : Z :=
  dateStart utcOffset dateStr + (msPerDay - 1).

(** [d.getDay()]: local weekday of an instant, 0 = Sunday.  Day 0 of the
    epoch was a Thursday. *)
Definition getDay (utcOffset : Z) (d : Z) : Z :=
  (todayStr utcOffset d + 4) mod 7.

Definition weekdays : list string :=
  ["Sun"; "Mon"; "Tue"; "Wed"; "Thu"; "Fri"; "Sat"]%string.

(** [weekdays[new Date(dateStr).getDay()]], as both [computeDayTotals] and
    [allScheduledHabitsComplete] compute it. *)
Definition weekdayOf (utcOffset : Z) (dateStr : Z) : string :=
  default ""%string
    (weekdays !! Z.to_nat (getDay utcOffset (parseDateOnly dateStr))).

(** The weekday of the calendar day itself. *)
Definition civilWeekday (dateStr : Z) : string :=
  default ""%string (weekdays !! Z.to_nat ((dateStr + 4) mod 7)).

(** [startOfWeek(date, weekStart)]: local midnight of [date], moved back to
    the first day of its week. *)
Definition startOfWeek (utcOffset : Z) (date : Z) (weekStart : string) : Z :=
  let day := getDay utcOffset date in
  let shift :=
    if String.eqb weekStart "Mon"
    then (if day =? 0 then 6 else day - 1)
    else day in
  todayStr utcOffset date - shift.

Definition weekOf := startOfWeek.

End Clock.

(** ** Data model

    One record per stored entity, with the fields the engine reads or
    writes; titles, colours and creation stamps play no part in it. *)

Module Settings.
(** The weekly reward factor is stored through
    [clamp(parseFloat(..), 1, 3)]: a positive finite double
    [mantissa * 2^exponent]. *)
Record factor := mkFactor { mantissa : positive; exponent : Z }.

Definition toNumber (f : factor) : JS.number :=
  S754_finite false (mantissa f) (exponent f).

(** Every count is stored through [clamp(parseInt(..), 0, ..)] by the
    settings handler (and starts from [DefaultSettings]), so none is
    negative. *)
Record t := mk {
  dailyGoal : N;
  dailyQuestCount : N;
  weekStart : string;
  weeklyQuestMode : string;
  weeklyQuestCount : N;
  weeklyQuestMin : N;
  weeklyQuestMax : N;
  weeklyFactor : factor
}.
End Settings.

Module Meta.
(** The lifecycle record.  The two streak counters are only ever set to 0,
    incremented, or copied from one another. *)
Record t := mk {
  streak : N;
  bestStreak : N;
  lastAssignmentRun : option Z;
  lastWeekStart : option Z
}.
End Meta.

Module Task.
Record t := mk {
  id : string;
  points : Z;
  dueDate : option Z;
  completedAt : option Z
}.
End Task.

Module Habit.
(** [type] is 'binary' or 'counter'; [target] and [points] are whatever
    [parseInt] read from the form. *)
Record t := mk {
  id : string;
  type : string;
  target : Z;
  points : Z;
  schedule : list string
}.
End Habit.

Module HabitLog.
Record t := mk {
  id : string;
  habitId : string;
  date : Z;
  count : Z;
  completedAt : option Z
}.
End HabitLog.

Module Event.
Record t := mk {
  id : string;
  pointsEnabled : bool;
  points : Z;
  completedAt : option Z
}.
End Event.

Module QuestLibrary.
Record t := mk {
  id : string;
  basePoints : Z;
  active : bool
}.
End QuestLibrary.

Module AssignedQuest.
Record t := mk {
  id : string;
  libraryId : string;
  type : string;
  date : option Z;
  weekOf : option Z;
  multiplier : JS.number;
  completedAt : option Z
}.
End AssignedQuest.

Module DaySummary.
Record t := mk {
  date : Z;
  totalPoints : Z;
  goalMet : bool
}.
End DaySummary.

(** [AppState], together with the two call counters of the oracles. *)
Record AppState := mkAppState {
  settings : Settings.t;
  meta : Meta.t;
  tasks : list Task.t;
  habits : list Habit.t;
  habitLogs : list HabitLog.t;
  events : list Event.t;
  questLibrary : list QuestLibrary.t;
  assignedQuests : list AssignedQuest.t;
  daySummaries : list DaySummary.t;
  randomCalls : nat;
  uidCalls : nat
}.

Definition DefaultSettings : Settings.t :=
  {| Settings.dailyGoal := 100;
     Settings.dailyQuestCount := 3;
     Settings.weekStart := "Mon";
     Settings.weeklyQuestMode := "fixed";
     Settings.weeklyQuestCount := 3;
     Settings.weeklyQuestMin := 2;
     Settings.weeklyQuestMax := 4;
     Settings.weeklyFactor := Settings.mkFactor 6755399441055744 (-52) |}.

Definition DefaultMeta : Meta.t :=
  {| Meta.streak := 0;
     Meta.bestStreak := 0;
     Meta.lastAssignmentRun := None;
     Meta.lastWeekStart := None |}.

(** The environment of a run: the time zone, the values [Math.random()]
    returns to the sampling code call after call, and the identifiers
    [uid('aq')] produces one after the other (the clock and random reads
    inside [uid] are part of that oracle). *)
Record Env := mkEnv {
  utcOffset : Z;
  mathRandom : nat -> JS.number;
  uid : nat -> string
}.

(** Field updates of [AppState]. *)
Definition set_meta (m : Meta.t) (s : AppState) : AppState :=
  mkAppState (settings s) m (tasks s) (habits s) (habitLogs s) (events s)
    (questLibrary s) (assignedQuests s) (daySummaries s)
    (randomCalls s) (uidCalls s).

Definition set_tasks (l : list Task.t) (s : AppState) : AppState :=
  mkAppState (settings s) (meta s) l (habits s) (habitLogs s) (events s)
    (questLibrary s) (assignedQuests s) (daySummaries s)
    (randomCalls s) (uidCalls s).

Definition set_habitLogs (l : list HabitLog.t) (s : AppState) : AppState :=
  mkAppState (settings s) (meta s) (tasks s) (habits s) l (events s)
    (questLibrary s) (assignedQuests s) (daySummaries s)
    (randomCalls s) (uidCalls s).

Definition set_assignedQuests (l : list AssignedQuest.t) (s : AppState) : AppState :=
  mkAppState (settings s) (meta s) (tasks s) (habits s) (habitLogs s) (events s)
    (questLibrary s) l (daySummaries s)
    (randomCalls s) (uidCalls s).

Definition set_daySummaries (l : list DaySummary.t) (s : AppState) : AppState :=
  mkAppState (settings s) (meta s) (tasks s) (habits s) (habitLogs s) (events s)
    (questLibrary s) (assignedQuests s) l
    (randomCalls s) (uidCalls s).

Definition set_randomCalls (c : nat) (s : AppState) : AppState :=
  mkAppState (settings s) (meta s) (tasks s) (habits s) (habitLogs s) (events s)
    (questLibrary s) (assignedQuests s) (daySummaries s)
    c (uidCalls s).

Definition set_uidCalls (c : nat) (s : AppState) : AppState :=
  mkAppState (settings s) (meta s) (tasks s) (habits s) (habitLogs s) (events s)
    (questLibrary s) (assignedQuests s) (daySummaries s)
    (randomCalls s) c.

(** ** Points and summaries *)

(** [comp >= dateStart && comp <= dateEnd] *)
Definition inDay (env : Env) (dateStr comp : Z) : bool :=
  (Clock.dateStart (utcOffset env) dateStr <=? comp)
  && (comp <=? Clock.dateEnd (utcOffset env) dateStr).

(** [total += pts], for the integer [pts] a loop has computed: an addition
    of two binary64 Numbers. *)
Definition addPoints (total : JS.number) (pts : Z) : JS.number :=
  JS.add total (JS.ofZ pts).

(** Body of the loop over [AppState.tasks]. *)
Definition taskStep (env : Env) (dateStr : Z) (total : JS.number) (t : Task.t)
    : JS.number :=
  match Task.completedAt t with
  | None => total
  | Some comp =>
      if inDay env dateStr comp then
        match Task.dueDate t with
        | Some due =>
            if comp <=? due then addPoints total (JS.or_else (Task.points t) 0)
            else total
        | None => addPoints total (JS.or_else (Task.points t) 0)
        end
      else total
  end.

(** [AppState.habits.find(h => h.id === id)] *)
Definition findHabit (s : AppState) (id : string) : option Habit.t :=
  snd <$> list_find (fun h => Habit.id h = id) (habits s).

(** [habit.schedule.includes(weekday)] *)
Definition scheduledOn (weekday : string) (h : Habit.t) : bool :=
  bool_decide (weekday ∈ Habit.schedule h).

(** Partial credit of a counter habit:
    [Math.floor(clamp(count || 0, 0, target || 1) / (target || 1) * (points || 0))]. *)
Definition counterPoints (count target points : Z) : Z :=
  JS.floor
    (JS.mul
       (JS.div (JS.ofZ (JS.clamp (JS.or_else count 0) 0 (JS.or_else target 1)))
               (JS.ofZ (JS.or_else target 1)))
       (JS.ofZ (JS.or_else points 0))).

(** Body of the loop over the habit logs of the day. *)
Definition habitStep (s : AppState) (weekday : string) (total : JS.number)
    (log : HabitLog.t) : JS.number :=
  match findHabit s (HabitLog.habitId log) with
  | None => total
  | Some habit =>
      if negb (scheduledOn weekday habit) then total
      else
        let pts :=
          if String.eqb (Habit.type habit) "binary"
          then (if 1 <=? HabitLog.count log
                then JS.or_else (Habit.points habit) 0 else 0)
          else counterPoints (HabitLog.count log) (Habit.target habit)
                 (Habit.points habit) in
        addPoints total pts
  end.

(** Body of the loop over [AppState.events]. *)
Definition eventStep (env : Env) (dateStr : Z) (total : JS.number)
    (ev : Event.t) : JS.number :=
  if negb (Event.pointsEnabled ev) then total
  else
    match Event.completedAt ev with
    | None => total
    | Some comp =>
        if inDay env dateStr comp
        then addPoints total (JS.or_else (Event.points ev) 0)
        else total
    end.

(** [AppState.questLibrary.find(q => q.id === id)] *)
Definition findQuest (s : AppState) (id : string) : option QuestLibrary.t :=
  snd <$> list_find (fun q => QuestLibrary.id q = id) (questLibrary s).

(** [Math.floor(base * (aq.multiplier || 1))] *)
Definition questPoints (base : Z) (multiplier : JS.number) : Z :=
  JS.floor (JS.mul (JS.ofZ base) (JS.or_elseF multiplier JS.one)).

(** Body of the loop over [AppState.assignedQuests]. *)
Definition questStep (env : Env) (s : AppState) (dateStr : Z)
    (total : JS.number) (aq : AssignedQuest.t) : JS.number :=
  match AssignedQuest.completedAt aq with
  | None => total
  | Some comp =>
      if inDay env dateStr comp then
        match findQuest s (AssignedQuest.libraryId aq) with
        | None => total
        | Some lib =>
            addPoints total
              (questPoints (JS.or_else (QuestLibrary.basePoints lib) 0)
                 (AssignedQuest.multiplier aq))
        end
      else total
  end.

(** [AppState.habitLogs.filter(h => h.date === dateStr)] *)
Definition logsOf (s : AppState) (dateStr : Z) : list HabitLog.t :=
  filter (fun l => HabitLog.date l = dateStr) (habitLogs s).

(** [computeDayTotals(dateStr)].  The total, a binary64 sum of integers, is
    an integer-valued Number as long as it is finite: the summary holds it
    by its integer value, and [total >= goal] compares it as such. *)
Definition computeDayTotals (env : Env) (s : AppState) (dateStr : Z)
    : DaySummary.t :=
  let total := JS.zero in
  let total := foldl (taskStep env dateStr) total (tasks s) in
  let weekday := Clock.weekdayOf (utcOffset env) dateStr in
  let total := foldl (habitStep s weekday) total (logsOf s dateStr) in
  let total := foldl (eventStep env dateStr) total (events s) in
  let total := foldl (questStep env s dateStr) total (assignedQuests s) in
  let total := JS.floor total in
  let goalMet := Z.of_N (JS.or_elseN (Settings.dailyGoal (settings s)) 0) <=? total in
  {| DaySummary.date := dateStr;
     DaySummary.totalPoints := total;
     DaySummary.goalMet := goalMet |}.

(** ** Operations on the state

    Here the asynchronous functions of the source run to completion one
    after the other; each is a state transformer.  Calls of
    [ensureRollover] that overlap are the subject of a section of their
    own below.  A run stops without a result ([None]) only where the
    source would index an array outside its bounds (see [swap]). *)

Definition M (A : Type) : Type := AppState -> option (A * AppState).

Definition ret {A} (x : A) : M A := fun s => Some (x, s).

Definition bind {A B} (m : M A) (k : A -> M B) : M B :=
  fun s => match m s with
           | Some (x, s') => k x s'
           | None => None
           end.

Definition gets {A} (f : AppState -> A) : M A := fun s => Some (f s, s).

Definition modify (f : AppState -> AppState) : M unit := fun s => Some (tt, f s).

Declare Scope rollover_scope.
Delimit Scope rollover_scope with rollover.
Notation "'let*' x ':=' m 'in' k" := (bind m (fun x => k))
  (at level 10, x name, m at level 100, k at level 200) : rollover_scope.
Notation "m ';;' k" := (bind m (fun _ => k))
  (at level 100, k at level 200, right associativity) : rollover_scope.

(** [AppState.daySummaries.findIndex(d => d.date === dateStr)], then
    overwrite the entry found or push a new one. *)
Definition storeSummary (sum : DaySummary.t) (l : list DaySummary.t)
    : list DaySummary.t :=
  match list_find (fun d => DaySummary.date d = DaySummary.date sum) l with
  | Some (idx, _) => <[idx := sum]> l
  | None => l ++ [sum]
  end.

Definition upsertDaySummary (env : Env) (dateStr : Z) : M DaySummary.t :=
  fun s =>
    let sum := computeDayTotals env s dateStr in
    Some (sum, set_daySummaries (storeSummary sum (daySummaries s)) s).

(** [AppState.habitLogs.find(l => l.habitId === h.id && l.date === dateStr)] *)
Definition findLog (logs : list HabitLog.t) (habitId : string) (dateStr : Z)
    : option HabitLog.t :=
  snd <$> list_find
            (fun l => HabitLog.habitId l = habitId /\ HabitLog.date l = dateStr)
            logs.

(** The [for (const h of todays)] loop with its early returns. *)
Fixpoint habitsCompleteLoop (logs : list HabitLog.t) (dateStr : Z)
    (todays : list Habit.t) : bool :=
  match todays with
  | [] => true
  | h :: rest =>
      match findLog logs (Habit.id h) dateStr with
      | None => false
      | Some log =>
          if String.eqb (Habit.type h) "binary"
          then (if JS.or_else (HabitLog.count log) 0 <? 1 then false
                else habitsCompleteLoop logs dateStr rest)
          else (if JS.or_else (HabitLog.count log) 0
                     <? JS.or_else (Habit.target h) 1 then false
                else habitsCompleteLoop logs dateStr rest)
      end
  end.

Definition allScheduledHabitsComplete (env : Env) (s : AppState) (dateStr : Z)
    : bool :=
  let weekday := Clock.weekdayOf (utcOffset env) dateStr in
  let todays := filter (fun h => scheduledOn weekday h = true) (habits s) in
  if (length todays =? 0)%nat then true
  else habitsCompleteLoop (habitLogs s) dateStr todays.

(** ** Assignment logic *)

(** [Math.floor(Math.random() * n)] at the [c]-th call of [Math.random]. *)
Definition randomBelow (env : Env) (c : nat) (n : Z) : Z :=
  JS.floor (JS.mul (mathRandom env c) (JS.ofZ n)).

Section Sampling.
Context {A : Type}.

(** [[a[i], a[j]] = [a[j], a[i]]].  Both reads must hit the array: an index
    outside it would read [undefined] and grow the array, which the engine
    never does since [0 <= j <= i]. *)
Definition swap (a : list A) (i j : nat) : option (list A) :=
  match a !! i, a !! j with
  | Some x, Some y => Some (<[j := x]> (<[i := y]> a))
  | _, _ => None
  end.

(** [for (let i = ..; i > 0; i--)], entered with loop variable [i]. *)
Fixpoint shuffleFrom (env : Env) (i : nat) (a : list A) (c : nat)
    : option (list A * nat) :=
  match i with
  | O => Some (a, c)
  | S i' =>
      let j := randomBelow env c (Z.of_nat i + 1) in
      if j <? 0 then None
      else match swap a i (Z.to_nat j) with
           | Some a' => shuffleFrom env i' a' (S c)
           | None => None
           end
  end.

(** [a.slice(0, n)]; a negative [n] counts from the end. *)
Definition slice0 (a : list A) (n : Z) : list A :=
  if n <? 0 then take (Z.to_nat (Z.of_nat (length a) + n)) a
  else take (Z.to_nat n) a.

(** [randomSample(arr, n)], started at random call [c]; returns the sample
    and the next call number. *)
Definition randomSample (env : Env) (arr : list A) (n : Z) (c : nat)
    : option (list A * nat) :=
  match shuffleFrom env (length arr - 1) arr c with
  | Some (a, c') => Some (slice0 a n, c')
  | None => None
  end.
End Sampling.

(** [AppState.questLibrary.filter(q => q.active)] *)
Definition activePool (s : AppState) : list QuestLibrary.t :=
  filter (fun q => QuestLibrary.active q = true) (questLibrary s).

(** [randomSample] run on the state's random counter. *)
Definition sampleM (env : Env) (pool : list QuestLibrary.t) (n : Z)
    : M (list QuestLibrary.t) :=
  fun s =>
    match randomSample env pool n (randomCalls s) with
    | Some (chosen, c') => Some (chosen, set_randomCalls c' s)
    | None => None
    end.

Definition mkDaily (env : Env) (dateStr : Z) (u : nat) (k : nat)
    (q : QuestLibrary.t) : AssignedQuest.t :=
  {| AssignedQuest.id := uid env (u + k);
     AssignedQuest.libraryId := QuestLibrary.id q;
     AssignedQuest.type := "daily";
     AssignedQuest.date := Some dateStr;
     AssignedQuest.weekOf := None;
     AssignedQuest.multiplier := JS.one;
     AssignedQuest.completedAt := None |}.

Definition mkWeekly (env : Env) (weekStartStr : Z) (factor : JS.number)
    (u : nat) (k : nat) (q : QuestLibrary.t) : AssignedQuest.t :=
  {| AssignedQuest.id := uid env (u + k);
     AssignedQuest.libraryId := QuestLibrary.id q;
     AssignedQuest.type := "weekly";
     AssignedQuest.date := None;
     AssignedQuest.weekOf := Some weekStartStr;
     AssignedQuest.multiplier := factor;
     AssignedQuest.completedAt := None |}.

(** [if (created.length) { ...; AppState.assignedQuests.push(...created) }];
    one [uid] was drawn per created quest. *)
Definition pushCreated (created : list AssignedQuest.t) : M unit :=
  fun s =>
    let s := set_uidCalls (uidCalls s + length created) s in
    if (length created =? 0)%nat then Some (tt, s)
    else Some (tt, set_assignedQuests (assignedQuests s ++ created) s).

Local Open Scope rollover_scope.

Definition assignDailyQuests (env : Env) (dateStr : Z) : M unit :=
  let* N := gets (fun s => Z.of_N (JS.or_elseN (Settings.dailyQuestCount (settings s)) 0)) in
  let* pool := gets activePool in
  let* chosen := sampleM env pool (Z.min N (Z.of_nat (length pool))) in
  let* u := gets uidCalls in
  let created := imap (mkDaily env dateStr u) chosen in
  pushCreated created.

(** The weekly count: a draw in range mode, the configured count otherwise. *)
Definition weeklyCount (env : Env) : M Z :=
  fun st =>
    let s := settings st in
    if String.eqb (Settings.weeklyQuestMode s) "range" then
      let span := Z.of_N (Settings.weeklyQuestMax s)
                  - Z.of_N (Settings.weeklyQuestMin s) + 1 in
      let count := Z.max 0 (randomBelow env (randomCalls st) span
                            + Z.of_N (Settings.weeklyQuestMin s)) in
      Some (count, set_randomCalls (S (randomCalls st)) st)
    else Some (Z.of_N (JS.or_elseN (Settings.weeklyQuestCount s) 0), st).

Definition assignWeeklyQuests (env : Env) (weekStartStr : Z) : M unit :=
  let* s := gets settings in
  let* pool := gets activePool in
  let* count := weeklyCount env in
  let* chosen := sampleM env pool (Z.min count (Z.of_nat (length pool))) in
  let* u := gets uidCalls in
  let factor := JS.or_elseF (Settings.toNumber (Settings.weeklyFactor s)) JS.one in
  let created := imap (mkWeekly env weekStartStr factor u) chosen in
  pushCreated created.

(** ** Rollover *)

(** The streak update of the day-changed branch. *)
Definition updateStreak (ok : bool) (m : Meta.t) : Meta.t :=
  if ok then
    let streak := (JS.or_elseN (Meta.streak m) 0 + 1)%N in
    let best :=
      if (JS.or_elseN (Meta.bestStreak m) 0 <? streak)%N then streak
      else Meta.bestStreak m in
    {| Meta.streak := streak;
       Meta.bestStreak := best;
       Meta.lastAssignmentRun := Meta.lastAssignmentRun m;
       Meta.lastWeekStart := Meta.lastWeekStart m |}
  else
    {| Meta.streak := 0;
       Meta.bestStreak := Meta.bestStreak m;
       Meta.lastAssignmentRun := Meta.lastAssignmentRun m;
       Meta.lastWeekStart := Meta.lastWeekStart m |}.

Definition setLastAssignmentRun (d : Z) (m : Meta.t) : Meta.t :=
  {| Meta.streak := Meta.streak m;
     Meta.bestStreak := Meta.bestStreak m;
     Meta.lastAssignmentRun := Some d;
     Meta.lastWeekStart := Meta.lastWeekStart m |}.

Definition setLastWeekStart (d : Z) (m : Meta.t) : Meta.t :=
  {| Meta.streak := Meta.streak m;
     Meta.bestStreak := Meta.bestStreak m;
     Meta.lastAssignmentRun := Meta.lastAssignmentRun m;
     Meta.lastWeekStart := Some d |}.

Definition modifyMeta (f : Meta.t -> Meta.t) : M unit :=
  modify (fun s => set_meta (f (meta s)) s).

(** [ensureRollover()], run at the instant [now]. *)
Definition ensureRollover (env : Env) (now : Z) : M unit :=
  let today := Clock.todayStr (utcOffset env) now in
  let* m := gets meta in
  let* st := gets settings in
  match Meta.lastAssignmentRun m with
  | None =>
      (* first run ever *)
      assignDailyQuests env today ;;
      let ws := Clock.weekOf (utcOffset env) (Clock.parseDateOnly today)
                  (Settings.weekStart st) in
      assignWeeklyQuests env ws ;;
      modifyMeta (setLastAssignmentRun today) ;;
      modifyMeta (setLastWeekStart ws) ;;
      let* _ := upsertDaySummary env today in
      ret tt
  | Some prev =>
      if bool_decide (prev <> today) then
        (* day changed since last run: finalize yesterday *)
        let* sum := upsertDaySummary env prev in
        let* complete := gets (fun s => allScheduledHabitsComplete env s prev) in
        modifyMeta (updateStreak (DaySummary.goalMet sum && complete)) ;;
        assignDailyQuests env today ;;
        let* _ := upsertDaySummary env today in
        let* m' := gets meta in
        let lastWeek :=
          match Meta.lastWeekStart m' with
          | Some w => w
          | None => Clock.weekOf (utcOffset env) (Clock.parseDateOnly prev)
                      (Settings.weekStart st)
          end in
        let currentWeek := Clock.weekOf (utcOffset env) (Clock.parseDateOnly today)
                             (Settings.weekStart st) in
        (if bool_decide (currentWeek <> lastWeek) then
           assignWeeklyQuests env currentWeek ;;
           modifyMeta (setLastWeekStart currentWeek)
         else ret tt) ;;
        modifyMeta (setLastAssignmentRun today)
      else
        (* same day *)
        let* _ := upsertDaySummary env today in
        ret tt
  end.

(** ** Overlapping calls of [ensureRollover]

    [ensureRollover] is asynchronous and has two independent callers, the
    interval of the midnight watcher and the [visibilitychange] listener.
    A call runs until it awaits a request to IndexedDB ([db.set],
    [db.bulkPut]): the promise is resolved by the event that ends the
    transaction, and the call runs on then, on [AppState] as it is by then.
    Between, another call can start or run on.  [meta] is in every call the
    one object [AppState.meta]; [today], [prev], [settings] and the summary
    computed before a request are constants of the call. *)

(** What is left of a call: nothing, or the code after the request it
    awaits; and what a stretch of code run without interruption gives: the
    state it leaves and what is left of the call, or no result (see
    [swap]). *)
Inductive Async : Type :=
| Done : Async
| Await : (AppState -> Outcome) -> Async
with Outcome : Type :=
| Stuck : Outcome
| Next : AppState -> Async -> Outcome.

Definition Segment : Type := AppState -> Outcome.

Definition finished : Segment := fun s => Next s Done.

(** [await db.set(...)] or [await db.bulkPut(...)], then [k]. *)
Definition awaitDb (k : Segment) : Segment := fun s => Next s (Await k).

(** [upsertDaySummary(dateStr)]: the summary is computed before the
    request and stored after it. *)
Definition upsertDaySummaryAsync (env : Env) (dateStr : Z)
    (k : DaySummary.t -> Segment) : Segment :=
  fun s =>
    let sum := computeDayTotals env s dateStr in
    awaitDb (fun s' =>
               k sum (set_daySummaries (storeSummary sum (daySummaries s')) s'))
      s.

(** [if (created.length) { await db.bulkPut(...);
    AppState.assignedQuests.push(...created) }] *)
Definition pushCreatedAsync (created : list AssignedQuest.t) (k : Segment)
    : Segment :=
  fun s =>
    let s := set_uidCalls (uidCalls s + length created) s in
    if (length created =? 0)%nat then k s
    else awaitDb (fun s' =>
                    k (set_assignedQuests (assignedQuests s' ++ created) s'))
           s.

Definition assignDailyQuestsAsync (env : Env) (dateStr : Z) (k : Segment)
    : Segment :=
  fun s =>
    let N := Z.of_N (JS.or_elseN (Settings.dailyQuestCount (settings s)) 0) in
    let pool := activePool s in
    match sampleM env pool (Z.min N (Z.of_nat (length pool))) s with
    | Some (chosen, s1) =>
        pushCreatedAsync (imap (mkDaily env dateStr (uidCalls s1)) chosen) k s1
    | None => Stuck
    end.

Definition assignWeeklyQuestsAsync (env : Env) (weekStartStr : Z) (k : Segment)
    : Segment :=
  fun s =>
    let st := settings s in
    let pool := activePool s in
    match weeklyCount env s with
    | Some (count, s1) =>
        match sampleM env pool (Z.min count (Z.of_nat (length pool))) s1 with
        | Some (chosen, s2) =>
            let factor :=
              JS.or_elseF (Settings.toNumber (Settings.weeklyFactor st)) JS.one in
            pushCreatedAsync
              (imap (mkWeekly env weekStartStr factor (uidCalls s2)) chosen) k s2
        | None => Stuck
        end
    | None => Stuck
    end.

(** [ensureRollover()], started at the instant [now]: its first segment. *)
Definition ensureRolloverAsync (env : Env) (now : Z) : Segment :=
  fun s =>
    let today := Clock.todayStr (utcOffset env) now in
    let st := settings s in
    let weekOfKey d :=
      Clock.weekOf (utcOffset env) (Clock.parseDateOnly d) (Settings.weekStart st) in
    match Meta.lastAssignmentRun (meta s) with
    | None =>
        assignDailyQuestsAsync env today
          (assignWeeklyQuestsAsync env (weekOfKey today)
             (fun s2 =>
                awaitDb (upsertDaySummaryAsync env today (fun _ => finished))
                  (set_meta
                     (setLastWeekStart (weekOfKey today)
                        (setLastAssignmentRun today (meta s2))) s2)))
          s
    | Some prev =>
        if bool_decide (prev <> today) then
          upsertDaySummaryAsync env prev
            (fun sum s1 =>
               let complete := allScheduledHabitsComplete env s1 prev in
               assignDailyQuestsAsync env today
                 (upsertDaySummaryAsync env today
                    (fun _ s3 =>
                       let lastWeek :=
                         match Meta.lastWeekStart (meta s3) with
                         | Some w => w
                         | None => weekOfKey prev
                         end in
                       let stamp : Segment :=
                         fun s4 =>
                           awaitDb finished
                             (set_meta (setLastAssignmentRun today (meta s4)) s4) in
                       if bool_decide (weekOfKey today <> lastWeek) then
                         assignWeeklyQuestsAsync env (weekOfKey today)
                           (fun s4 =>
                              stamp (set_meta
                                       (setLastWeekStart (weekOfKey today) (meta s4))
                                       s4))
                           s3
                       else stamp s3))
                 (set_meta
                    (updateStreak (DaySummary.goalMet sum && complete) (meta s1))
                    s1))
            s
        else upsertDaySummaryAsync env today (fun _ => finished) s
    end.

(** A call that no other call interrupts. *)
Fixpoint runOn (a : Async) (s : AppState) : option AppState :=
  match a with
  | Done => Some s
  | Await k =>
      match k s with
      | Next s' a' => runOn a' s'
      | Stuck => None
      end
  end.

Definition runAlone (call : Segment) (s : AppState) : option AppState :=
  match call s with
  | Next s' a => runOn a s'
  | Stuck => None
  end.

(** Two calls that overlap: the second starts while the first awaits its
    first request.  [turns] tells which of the two runs on at each request
    that completes, [true] for the first call; a call that is finished
    leaves the turn to the other. *)
Fixpoint runInTurns (turns : list bool) (a b : Async) (s : AppState)
    : option AppState :=
  match turns with
  | [] => match a, b with
          | Done, Done => Some s
          | _, _ => None
          end
  | first :: rest =>
      match (if first then a else b) with
      | Done => runInTurns rest a b s
      | Await k =>
          match k s with
          | Next s' after =>
              if first then runInTurns rest after b s'
              else runInTurns rest a after s'
          | Stuck => None
          end
      end
  end.

Definition runOverlapping (turns : list bool) (first second : Segment)
    (s : AppState) : option AppState :=
  match first s with
  | Next s1 a =>
      match second s1 with
      | Next s2 b => runInTurns turns a b s2
      | Stuck => None
      end
  | Stuck => None
  end.

(** [m] run to its end, then [k] on its result: what a stretch of a call
    amounts to when nothing interrupts it. *)
Definition thenRun {A} (m : M A) (k : A -> AppState -> option AppState)
    : AppState -> option AppState :=
  fun s => match m s with Some (x, s') => k x s' | None => None end.

(** The orders in which the requests of two calls can complete, the first
    call having [n] requests to await and the second [m]. *)
Fixpoint interleavings (n m : nat) : list (list bool) :=
  match n with
  | O => [replicate m false]
  | S n' =>
      (fix inner (m : nat) : list (list bool) :=
         match m with
         | O => [replicate n true]
         | S m' =>
             (cons true <$> interleavings n' m) ++ (cons false <$> inner m')
         end) m
  end.

(** ** Date keys as text *)

Module Text.

(** [`${n}`] for an integer [n]. *)
Definition ofInt (n : Z) : string := NilZero.string_of_int (Z.to_int n).

(** [const pad2 = (n) => (n < 10 ? `0${n}` : `${n}`)] *)
Definition pad2 (n : Z) : string :=
  if n <? 10 then ("0" ++ ofInt n)%string else ofInt n.

(** The date of a day number in the Gregorian calendar, as [getFullYear()],
    [getMonth()] (0 is January) and [getDate()] give it.  The days are
    counted in eras of 400 years (146097 days) that start on a 1 March;
    [civilOfEraDay] places a day of the era in its year of the era.  Every
    instant is taken to lie in the range of [Date]. *)
Definition civilOfEraDay (doe : Z) : Z * Z * Z :=
  let yoe := (doe - doe / 1460 + doe / 36524 - doe / 146096) / 365 in
  let doy := doe - (365 * yoe + yoe / 4 - yoe / 100) in
  let mp := (5 * doy + 2) / 153 in
  let date := doy - (153 * mp + 2) / 5 + 1 in
  let month := if mp <? 10 then mp + 2 else mp - 10 in
  (yoe, month, date).

Definition civil (day : Z) : Z * Z * Z :=
  let z := day + 719468 in
  let era := z / 146097 in
  let '(yoe, month, date) := civilOfEraDay (z mod 146097) in
  (yoe + era * 400 + (if month <=? 1 then 1 else 0), month, date).

Definition getFullYear (utcOffset d : Z) : Z :=
  (civil (Clock.todayStr utcOffset d)).1.1.

Definition getMonth (utcOffset d : Z) : Z :=
  (civil (Clock.todayStr utcOffset d)).1.2.

Definition getDate (utcOffset d : Z) : Z :=
  (civil (Clock.todayStr utcOffset d)).2.

(** [todayStr(d)] as the string it is:
    [`${dt.getFullYear()}-${pad2(dt.getMonth()+1)}-${pad2(dt.getDate())}`]. *)
Definition todayStr (utcOffset d : Z) : string :=
  (ofInt (getFullYear utcOffset d) ++ "-"
   ++ pad2 (getMonth utcOffset d + 1) ++ "-"
   ++ pad2 (getDate utcOffset d))%string.

(** The text of the date key that the embedding holds as the day number
    [day]: what [todayStr] returns at any instant of that local day. *)
Definition dateKey (day : Z) : string := todayStr 0 (Clock.parseDateOnly day).

End Text.

(** ** Click handlers

    The handlers behind the [data-action] buttons.  Each changes
    [AppState] in place; [route()] and [toast()] only render.  A handler
    reads the clock at several places of its text ([new Date()],
    [todayStr()]): [clock k] is the instant shown at the [k]-th of them,
    counted from 0 in the order of the text. *)

Definition set_habits (l : list Habit.t) (s : AppState) : AppState :=
  mkAppState (settings s) (meta s) (tasks s) l (habitLogs s) (events s)
    (questLibrary s) (assignedQuests s) (daySummaries s)
    (randomCalls s) (uidCalls s).

Definition set_events (l : list Event.t) (s : AppState) : AppState :=
  mkAppState (settings s) (meta s) (tasks s) (habits s) (habitLogs s) l
    (questLibrary s) (assignedQuests s) (daySummaries s)
    (randomCalls s) (uidCalls s).

Definition set_questLibrary (l : list QuestLibrary.t) (s : AppState) : AppState :=
  mkAppState (settings s) (meta s) (tasks s) (habits s) (habitLogs s) (events s)
    l (assignedQuests s) (daySummaries s)
    (randomCalls s) (uidCalls s).

(** [x.completedAt ? null : new Date().toISOString()] *)
Definition toggled (completedAt : option Z) (now : Z) : option Z :=
  match completedAt with
  | Some _ => None
  | None => Some now
  end.

(** *** Tasks *)

Definition deleteTask (id : string) : M unit :=
  modify (fun s => set_tasks (filter (fun x => Task.id x <> id) (tasks s)) s).

Definition toggleTask (env : Env) (clock : nat -> Z) (id : string) : M unit :=
  let* found := gets (fun s => list_find (fun x => Task.id x = id) (tasks s)) in
  match found with
  | None => ret tt
  | Some (i, t) =>
      let t' := Task.mk (Task.id t) (Task.points t) (Task.dueDate t)
                  (toggled (Task.completedAt t) (clock 0%nat)) in
      modify (fun s => set_tasks (<[i := t']> (tasks s)) s) ;;
      let* _ := upsertDaySummary env (Clock.todayStr (utcOffset env) (clock 1%nat)) in
      ret tt
  end.

(** *** Habits *)

Definition deleteHabit (id : string) : M unit :=
  modify (fun s => set_habits (filter (fun x => Habit.id x <> id) (habits s)) s) ;;
  let* rm := gets (fun s => HabitLog.id <$>
                              filter (fun l => HabitLog.habitId l = id) (habitLogs s)) in
  if (length rm =? 0)%nat then ret tt
  else modify (fun s => set_habitLogs
                          (filter (fun l => HabitLog.habitId l <> id) (habitLogs s)) s).

(** The log [getOrCreateHabitLog] creates:
    [{ id: `hl_${habitId}|${dateStr}`, habitId, date: dateStr, count: 0,
       completedAt: null }]. *)
Definition newHabitLog (habitId : string) (dateStr : Z) : HabitLog.t :=
  {| HabitLog.id := ("hl_" ++ habitId ++ "|" ++ Text.dateKey dateStr)%string;
     HabitLog.habitId := habitId;
     HabitLog.date := dateStr;
     HabitLog.count := 0;
     HabitLog.completedAt := None |}.

(** [getOrCreateHabitLog(habitId, dateStr)] returns the log object itself,
    which its callers then assign to: the result here is the position of
    that object in [AppState.habitLogs]. *)
Definition getOrCreateHabitLog (habitId : string) (dateStr : Z) : M nat :=
  fun s =>
    match list_find (fun l => HabitLog.habitId l = habitId /\ HabitLog.date l = dateStr)
            (habitLogs s) with
    | Some (i, _) => Some (i, s)
    | None =>
        let log := newHabitLog habitId dateStr in
        Some (length (habitLogs s), set_habitLogs (habitLogs s ++ [log]) s)
    end.

(** Assignments to the fields of the log object at position [i]. *)
Definition updateLog (i : nat) (f : HabitLog.t -> HabitLog.t) : M unit :=
  modify (fun s => set_habitLogs (alter f i (habitLogs s)) s).

Definition withCount (count : Z) (completedAt : option Z) (log : HabitLog.t)
    : HabitLog.t :=
  HabitLog.mk (HabitLog.id log) (HabitLog.habitId log) (HabitLog.date log)
    count completedAt.

Definition toggleHabitBinary (env : Env) (clock : nat -> Z) (id : string) : M unit :=
  let* found := gets (fun s => findHabit s id) in
  match found with
  | None => ret tt
  | Some h =>
      let* i := getOrCreateHabitLog id (Clock.todayStr (utcOffset env) (clock 0%nat)) in
      if negb (String.eqb (Habit.type h) "binary") then ret tt
      else
        updateLog i (fun log =>
          let count := if 1 <=? HabitLog.count log then 0 else 1 in
          withCount count (if 1 <=? count then Some (clock 1%nat) else None) log) ;;
        let* _ := upsertDaySummary env (Clock.todayStr (utcOffset env) (clock 2%nat)) in
        ret tt
  end.

Definition stepHabitCounter (env : Env) (clock : nat -> Z) (id : string) (delta : Z)
    : M unit :=
  let* found := gets (fun s => findHabit s id) in
  match found with
  | None => ret tt
  | Some h =>
      if negb (String.eqb (Habit.type h) "counter") then ret tt
      else
        let* i := getOrCreateHabitLog id (Clock.todayStr (utcOffset env) (clock 0%nat)) in
        let tgt := JS.or_else (Habit.target h) 1 in
        updateLog i (fun log =>
          let count := JS.clamp (JS.or_else (HabitLog.count log) 0 + delta) 0 tgt in
          withCount count (if tgt <=? count then Some (clock 1%nat) else None) log) ;;
        let* _ := upsertDaySummary env (Clock.todayStr (utcOffset env) (clock 2%nat)) in
        ret tt
  end.

Definition completeHabitCounter (env : Env) (clock : nat -> Z) (id : string) : M unit :=
  let* found := gets (fun s => findHabit s id) in
  match found with
  | None => ret tt
  | Some h =>
      if negb (String.eqb (Habit.type h) "counter") then ret tt
      else
        let* i := getOrCreateHabitLog id (Clock.todayStr (utcOffset env) (clock 0%nat)) in
        let tgt := JS.or_else (Habit.target h) 1 in
        updateLog i (withCount tgt (Some (clock 1%nat))) ;;
        let* _ := upsertDaySummary env (Clock.todayStr (utcOffset env) (clock 2%nat)) in
        ret tt
  end.

(** *** Quests *)

Definition deleteQuestLib (id : string) : M unit :=
  modify (fun s => set_questLibrary
                     (filter (fun x => QuestLibrary.id x <> id) (questLibrary s)) s) ;;
  let* rm := gets (fun s => AssignedQuest.id <$>
                              filter (fun a => AssignedQuest.libraryId a = id)
                                (assignedQuests s)) in
  if (length rm =? 0)%nat then ret tt
  else modify (fun s => set_assignedQuests
                          (filter (fun a => AssignedQuest.libraryId a <> id)
                             (assignedQuests s)) s).

Definition toggleAssignedQuest (env : Env) (clock : nat -> Z) (id : string) : M unit :=
  let* found := gets (fun s => list_find (fun x => AssignedQuest.id x = id)
                                 (assignedQuests s)) in
  match found with
  | None => ret tt
  | Some (i, a) =>
      let a' := AssignedQuest.mk (AssignedQuest.id a) (AssignedQuest.libraryId a)
                  (AssignedQuest.type a) (AssignedQuest.date a)
                  (AssignedQuest.weekOf a) (AssignedQuest.multiplier a)
                  (toggled (AssignedQuest.completedAt a) (clock 0%nat)) in
      modify (fun s => set_assignedQuests (<[i := a']> (assignedQuests s)) s) ;;
      let* _ := upsertDaySummary env (Clock.todayStr (utcOffset env) (clock 1%nat)) in
      ret tt
  end.

(** *** Events *)

Definition deleteEvent (id : string) : M unit :=
  modify (fun s => set_events (filter (fun x => Event.id x <> id) (events s)) s).

Definition toggleEvent (env : Env) (clock : nat -> Z) (id : string) : M unit :=
  let* found := gets (fun s => list_find (fun x => Event.id x = id) (events s)) in
  match found with
  | None => ret tt
  | Some (i, ev) =>
      if negb (Event.pointsEnabled ev) then ret tt
      else
        let ev' := Event.mk (Event.id ev) (Event.pointsEnabled ev) (Event.points ev)
                     (toggled (Event.completedAt ev) (clock 0%nat)) in
        modify (fun s => set_events (<[i := ev']> (events s)) s) ;;
        let* _ := upsertDaySummary env (Clock.todayStr (utcOffset env) (clock 1%nat)) in
        ret tt
  end.

(** *** The delegated click listener

    [act] is the [data-action] of the button, [id] its [data-id], [delta]
    the [parseInt] of its [data-delta] (the step buttons carry -1 and 1) and
    [fab] tells whether the button is the one with the id 'fab'.  Closing
    an overlay, the calendar actions and those that only open a form or a
    menu change nothing in the stored state. *)
Definition handleClick (env : Env) (clock : nat -> Z) (fab : bool)
    (act id : string) (delta : Z) : M unit :=
  if String.eqb act "close-overlay" then ret tt
  else if String.eqb act "cal-prev" then ret tt
  else if String.eqb act "cal-next" then ret tt
  else if String.eqb act "open-day" then ret tt
  else if fab then ret tt
  else if String.eqb act "task-add" then ret tt
  else if String.eqb act "task-edit" then ret tt
  else if String.eqb act "task-delete" then deleteTask id
  else if String.eqb act "task-toggle" then toggleTask env clock id
  else if String.eqb act "habit-add" then ret tt
  else if String.eqb act "habit-edit" then ret tt
  else if String.eqb act "habit-delete" then deleteHabit id
  else if String.eqb act "habit-toggle" then toggleHabitBinary env clock id
  else if String.eqb act "habit-step" then stepHabitCounter env clock id delta
  else if String.eqb act "habit-complete" then completeHabitCounter env clock id
  else if String.eqb act "questlib-add" then ret tt
  else if String.eqb act "questlib-edit" then ret tt
  else if String.eqb act "questlib-delete" then deleteQuestLib id
  else if String.eqb act "quest-toggle" then toggleAssignedQuest env clock id
  else if String.eqb act "event-add" then ret tt
  else if String.eqb act "event-edit" then ret tt
  else if String.eqb act "event-delete" then deleteEvent id
  else if String.eqb act "event-toggle" then toggleEvent env clock id
  else ret tt.

(** ** Midnight watcher *)

(** The callback [tickMidnightWatcher] runs every 60 seconds: [clock 0] is
    the instant of its own [todayStr()], [clock 1] the instant at which
    [ensureRollover] reads the clock. *)
Definition midnightTick (env : Env) (clock : nat -> Z) : M unit :=
  let t := Clock.todayStr (utcOffset env) (clock 0%nat) in
  let* m := gets meta in
  if bool_decide (Some t <> Meta.lastAssignmentRun m)
  then ensureRollover env (clock 1%nat)
  else (let* _ := upsertDaySummary env t in ret tt).

(** [const isSameDay = (a, b) => todayStr(a) === todayStr(b)], on two
    instants. *)
Definition isSameDay (env : Env) (a b : Z) : bool :=
  bool_decide (Clock.todayStr (utcOffset env) a = Clock.todayStr (utcOffset env) b).

(** [const isAfter = (a, b) => new Date(a).getTime() > new Date(b).getTime()] *)
Definition isAfter (a b : Z) : bool := b <? a.

(** ** Views *)

(** [!t.completedAt] *)
Definition notCompleted (t : Task.t) : bool :=
  match Task.completedAt t with
  | Some _ => false
  | None => true
  end.

(** The four lists [renderSectionTasks] builds, in the order of its
    blocks 'Overdue', 'Due Today', 'No Due Date' and 'Upcoming'; [clock 0]
    is the instant of [todayStr()], [clock 1] that of [now = new Date()]. *)
Record TaskSections := mkTaskSections {
  overdue : list Task.t;
  dueToday : list Task.t;
  noDue : list Task.t;
  future : list Task.t
}.

Definition taskSections (env : Env) (clock : nat -> Z) (s : AppState)
    : TaskSections :=
  let today := Clock.todayStr (utcOffset env) (clock 0%nat) in
  let now := clock 1%nat in
  {| overdue :=
       filter (fun t => match Task.dueDate t with
                        | Some due => (due <? now) && notCompleted t
                        | None => false
                        end = true) (tasks s);
     dueToday :=
       filter (fun t => match Task.dueDate t with
                        | Some due =>
                            bool_decide (Clock.todayStr (utcOffset env) due = today)
                            && notCompleted t
                        | None => false
                        end = true) (tasks s);
     noDue :=
       filter (fun t => match Task.dueDate t with
                        | Some _ => false
                        | None => notCompleted t
                        end = true) (tasks s);
     future :=
       filter (fun t => match Task.dueDate t with
                        | Some due => (now <? due) && notCompleted t
                        | None => false
                        end = true) (tasks s) |}.

(** The replacement [escapeHtml] makes for one of the characters of its
    pattern: ampersand, less-than, greater-than, double quote (code 34) and
    single quote (code 39); any other character is kept. *)
Definition escapeChar (c : Ascii.ascii) : string :=
  if Ascii.eqb c "&"%char then "&amp;"
  else if Ascii.eqb c "<"%char then "&lt;"
  else if Ascii.eqb c ">"%char then "&gt;"
  else if Ascii.eqb c "034"%char then "&quot;"
  else if Ascii.eqb c "039"%char then "&#39;"
  else String c "".

(** [s.replace(pattern, c => table[c])], the pattern being global. *)
Fixpoint replaceSpecials (s : string) : string :=
  match s with
  | EmptyString => EmptyString
  | String c rest => (escapeChar c ++ replaceSpecials rest)%string
  end.

(** [escapeHtml(s)]; [null], [undefined] and the empty string give the
    empty string. *)
Definition escapeHtml (s : option string) : string :=
  replaceSpecials (default ""%string s).

(** An entry of the list 'Completed Today':
    [{ type, title, pts, id, kind }], without the title. *)
Module Item.
Record t := mk {
  type : string;
  pts : Z;
  id : string;
  kind : string
}.
End Item.

(** [x.completedAt && isSameDay(x.completedAt, today)], where [today] is a
    date key: [isSameDay] hands both arguments to [todayStr], which reads
    the key with [new Date]. *)
Definition completedOn (env : Env) (completedAt : option Z) (today : Z) : bool :=
  match completedAt with
  | Some comp => isSameDay env comp (Clock.parseDateOnly today)
  | None => false
  end.

Definition taskItems (env : Env) (today : Z) (l : list Task.t) : list Item.t :=
  omap (fun t =>
          if completedOn env (Task.completedAt t) today then
            let overdue :=
              match Task.dueDate t, Task.completedAt t with
              | Some due, Some comp => isAfter comp due
              | _, _ => false
              end in
            Some (Item.mk "Task"
                    (if overdue then 0 else JS.or_else (Task.points t) 0)
                    (Task.id t) "task")
          else None) l.

(** Habits fully completed today: binary at 1, counter at its target. *)
Definition habitItems (s : AppState) (today : Z) : list Item.t :=
  omap (fun h =>
          match findLog (habitLogs s) (Habit.id h) today with
          | None => None
          | Some log =>
              let ok :=
                if String.eqb (Habit.type h) "binary"
                then 1 <=? HabitLog.count log
                else JS.or_else (Habit.target h) 1 <=? HabitLog.count log in
              if ok
              then Some (Item.mk "Habit" (JS.or_else (Habit.points h) 0)
                           (Habit.id h) "habit")
              else None
          end) (habits s).

Definition eventItems (env : Env) (today : Z) (l : list Event.t) : list Item.t :=
  omap (fun ev =>
          if Event.pointsEnabled ev && completedOn env (Event.completedAt ev) today
          then Some (Item.mk "Event" (JS.or_else (Event.points ev) 0)
                       (Event.id ev) "event")
          else None) l.

Definition questItems (env : Env) (s : AppState) (today : Z) : list Item.t :=
  omap (fun aq =>
          if completedOn env (AssignedQuest.completedAt aq) today then
            match findQuest s (AssignedQuest.libraryId aq) with
            | None => None
            | Some lib =>
                Some (Item.mk
                        (if String.eqb (AssignedQuest.type aq) "daily"
                         then "Daily Quest" else "Weekly Quest")
                        (questPoints (JS.or_else (QuestLibrary.basePoints lib) 0)
                           (AssignedQuest.multiplier aq))
                        (AssignedQuest.id aq) "quest")
            end
          else None) (assignedQuests s).

(** [items.sort((a,b) => b.pts - a.pts)]: descending by points, entries
    with equal points staying in their order (the sort is stable). *)
Fixpoint insertByPts (x : Item.t) (l : list Item.t) : list Item.t :=
  match l with
  | [] => [x]
  | y :: rest =>
      if Item.pts x <=? Item.pts y then y :: insertByPts x rest else x :: l
  end.

Definition sortByPts (l : list Item.t) : list Item.t :=
  foldl (fun sorted x => insertByPts x sorted) [] l.

(** The items of [renderCompletedToday]; [clock 0] is the instant of its
    [todayStr()]. *)
Definition completedToday (env : Env) (clock : nat -> Z) (s : AppState)
    : list Item.t :=
  let today := Clock.todayStr (utcOffset env) (clock 0%nat) in
  sortByPts (taskItems env today (tasks s) ++ habitItems s today
             ++ eventItems env today (events s) ++ questItems env s today).

(** A row of the section 'Habits for <weekday>': the habit, the count
    shown, whether its pill is green and the points on its badge. *)
Module HabitRow.
Record t := mk {
  habit : Habit.t;
  count : Z;
  isFull : bool;
  pts : Z
}.
End HabitRow.

(** [AppState.habitLogs.filter(x => x.date === todayStr())]: the callback
    reads the clock for every log, at the instants [clock 1], [clock 2],
    ... *)
Definition logsShown (env : Env) (clock : nat -> Z) (s : AppState)
    : list HabitLog.t :=
  omap id
    (imap (fun k x =>
             if bool_decide
                  (HabitLog.date x
                   = Clock.todayStr (utcOffset env) (clock (S k)))
             then Some x else None) (habitLogs s)).

(** [logMap.get(id)] after [logMap.set(l.habitId, l)] for every log of the
    list in turn: the last log of that habit. *)
Definition logMapGet (logs : list HabitLog.t) (habitId : string)
    : option HabitLog.t :=
  last (filter (fun l => HabitLog.habitId l = habitId) logs).

(** The rows of [renderSectionHabits]; [clock 0] is the instant of its
    [new Date()].  A habit without log is shown with the count 0 of a log
    made up for the display. *)
Definition habitRows (env : Env) (clock : nat -> Z) (s : AppState)
    : list HabitRow.t :=
  let weekday :=
    default ""%string
      (Clock.weekdays !! Z.to_nat (Clock.getDay (utcOffset env) (clock 0%nat))) in
  let logs := logsShown env clock s in
  (fun h =>
     let count :=
       match logMapGet logs (Habit.id h) with
       | Some log => HabitLog.count log
       | None => 0
       end in
     let tgt := JS.or_else (Habit.target h) 1 in
     let isFull :=
       if String.eqb (Habit.type h) "binary" then 1 <=? count
       else tgt <=? count in
     let pts :=
       if String.eqb (Habit.type h) "binary"
       then (if 1 <=? count then JS.or_else (Habit.points h) 0 else 0)
       else JS.floor
              (JS.mul (JS.div (JS.ofZ (JS.clamp count 0 tgt)) (JS.ofZ tgt))
                 (JS.ofZ (JS.or_else (Habit.points h) 0))) in
     HabitRow.mk h count isFull pts)
  <$> filter (fun h => scheduledOn weekday h = true) (habits s).

(** A row of the sections 'Daily Quests' and 'Weekly Quests': the assigned
    quest and the points on its button.  A quest whose library entry is
    gone renders as the empty string. *)
Module QuestRow.
Record t := mk {
  quest : AssignedQuest.t;
  pts : Z
}.
End QuestRow.

(** [renderSectionQuestsDaily]; [clock 0] is the instant of its
    [todayStr()]. *)
Definition dailyQuestRows (env : Env) (clock : nat -> Z) (s : AppState)
    : list QuestRow.t :=
  let today := Clock.todayStr (utcOffset env) (clock 0%nat) in
  omap (fun a =>
          match findQuest s (AssignedQuest.libraryId a) with
          | None => None
          | Some lib =>
              Some (QuestRow.mk a (JS.or_else (QuestLibrary.basePoints lib) 0))
          end)
    (filter (fun a => AssignedQuest.type a = "daily"%string
                      /\ AssignedQuest.date a = Some today)
       (assignedQuests s)).

(** [renderSectionQuestsWeekly]; [clock 0] is the instant of its
    [new Date()]. *)
Definition weeklyQuestRows (env : Env) (clock : nat -> Z) (s : AppState)
    : list QuestRow.t :=
  let ws := Clock.weekOf (utcOffset env) (clock 0%nat)
              (Settings.weekStart (settings s)) in
  omap (fun a =>
          match findQuest s (AssignedQuest.libraryId a) with
          | None => None
          | Some lib =>
              Some (QuestRow.mk a
                      (questPoints (JS.or_else (QuestLibrary.basePoints lib) 0)
                         (AssignedQuest.multiplier a)))
          end)
    (filter (fun a => AssignedQuest.type a = "weekly"%string
                      /\ AssignedQuest.weekOf a = Some ws)
       (assignedQuests s)).

(** ** Vocabulary of the specification *)

(** [computeDayTotals(d).totalPoints] *)
Definition dayTotal (env : Env) (s : AppState) (d : Z) : Z :=
  DaySummary.totalPoints (computeDayTotals env s d).

(** *** The total in exact arithmetic

    What the four loops add up to over the integers, where no sum is
    rounded: the loop bodies on an integer total, the total they give, and
    the sum of the absolute values of what they add.  A day is [exactDay]
    when that sum is below 2^53: no addition of [computeDayTotals] is then
    rounded, whatever the order of the items. *)

(** The sum of a list of integers. *)
Definition sumZ (l : list Z) : Z := foldr Z.add 0 l.

Definition taskStepZ (env : Env) (dateStr : Z) (total : Z) (t : Task.t) : Z :=
  match Task.completedAt t with
  | None => total
  | Some comp =>
      if inDay env dateStr comp then
        match Task.dueDate t with
        | Some due =>
            if comp <=? due then total + JS.or_else (Task.points t) 0
            else total
        | None => total + JS.or_else (Task.points t) 0
        end
      else total
  end.

Definition habitStepZ (s : AppState) (weekday : string) (total : Z)
    (log : HabitLog.t) : Z :=
  match findHabit s (HabitLog.habitId log) with
  | None => total
  | Some habit =>
      if negb (scheduledOn weekday habit) then total
      else
        let pts :=
          if String.eqb (Habit.type habit) "binary"
          then (if 1 <=? HabitLog.count log
                then JS.or_else (Habit.points habit) 0 else 0)
          else counterPoints (HabitLog.count log) (Habit.target habit)
                 (Habit.points habit) in
        total + pts
  end.

Definition eventStepZ (env : Env) (dateStr : Z) (total : Z) (ev : Event.t) : Z :=
  if negb (Event.pointsEnabled ev) then total
  else
    match Event.completedAt ev with
    | None => total
    | Some comp =>
        if inDay env dateStr comp then total + JS.or_else (Event.points ev) 0
        else total
    end.

Definition questStepZ (env : Env) (s : AppState) (dateStr : Z) (total : Z)
    (aq : AssignedQuest.t) : Z :=
  match AssignedQuest.completedAt aq with
  | None => total
  | Some comp =>
      if inDay env dateStr comp then
        match findQuest s (AssignedQuest.libraryId aq) with
        | None => total
        | Some lib =>
            total + questPoints (JS.or_else (QuestLibrary.basePoints lib) 0)
                      (AssignedQuest.multiplier aq)
        end
      else total
  end.

Definition exactTotal (env : Env) (s : AppState) (d : Z) : Z :=
  foldl (questStepZ env s d)
    (foldl (eventStepZ env d)
       (foldl (habitStepZ s (Clock.weekdayOf (utcOffset env) d))
          (foldl (taskStepZ env d) 0 (tasks s)) (logsOf s d))
       (events s))
    (assignedQuests s).

(** What each item adds on the day [d], in the order of the loops; 0 for
    an item that is skipped. *)
Definition dayCredits (env : Env) (s : AppState) (d : Z) : list Z :=
  (taskStepZ env d 0 <$> tasks s)
  ++ (habitStepZ s (Clock.weekdayOf (utcOffset env) d) 0 <$> logsOf s d)
  ++ (eventStepZ env d 0 <$> events s)
  ++ (questStepZ env s d 0 <$> assignedQuests s).

Definition absTotal (env : Env) (s : AppState) (d : Z) : Z :=
  sumZ (Z.abs <$> dayCredits env s d).

Definition exactDay (env : Env) (s : AppState) (d : Z) : Prop :=
  absTotal env s d < 2 ^ 53.

(** [AppState.daySummaries.find(x => x.date === dateStr)], the lookup of the
    KPI, calendar and statistics views. *)
Definition cachedSummary (s : AppState) (dateStr : Z) : option DaySummary.t :=
  snd <$> list_find (fun x => DaySummary.date x = dateStr) (daySummaries s).

(** *** The platform *)

(** A value [Math.random()] can return: a double [r] with [0 <= r < 1]. *)
Definition unitInterval (r : JS.number) : bool :=
  valid_binary JS.prec JS.emax r
  && SFleb (S754_zero false) r
  && SFltb r JS.one.

Definition randomSource (env : Env) : Prop :=
  forall c, unitInterval (mathRandom env c) = true.

(** An Array holds fewer than [2^32] elements. *)
Definition arrayLimit : Z := 2 ^ 32.

(** What the sampling code needs from the random source:
    [Math.floor(Math.random() * n)] is one of [0 .. n-1], for every [n] up to
    [bound]. *)
Definition randomOk (env : Env) (bound : Z) : Prop :=
  forall c n, 0 < n <= bound -> 0 <= randomBelow env c n < n.

(** Time zones: any fixed offset, and the offsets at or east of UTC, where
    the local day of a UTC midnight is the day itself. *)
Definition anyZone (tz : Z) : Prop := True.

Definition eastOfUTC (tz : Z) : Prop := 0 <= tz < Clock.msPerDay.

(** *** Counter habits *)

(** [floor(clamp(count, 0, T) / T * points)], evaluated in binary64. *)
Definition counterCredit (T : Z) (count points : Z) : Z :=
  JS.floor (JS.mul (JS.div (JS.ofZ (JS.clamp count 0 T)) (JS.ofZ T))
                   (JS.ofZ points)).

(** The divisor [T]: as the specification words it (1 whenever the stored
    target is not positive) and as [habit.target || 1] computes it (1 only
    for a stored 0). *)
Definition targetAsClaimed (target : Z) : Z := if target <=? 0 then 1 else target.

Definition targetAsCoded (target : Z) : Z := if target =? 0 then 1 else target.

(** "A counter habit's log dated [d], of an existing habit scheduled on the
    weekday of [d], adds [counterCredit T count points] to the total of
    [d]": when the loop of [computeDayTotals(d)] reaches the log, its
    [total += pts] adds that credit to the running total, whatever the total
    is; and on a day whose sums are not rounded the total with the log is
    the total without it plus the credit. *)
Definition counterCreditLaw (zone : Z -> Prop) (T : Z -> Z) : Prop :=
  forall env s d l1 lg l2 h,
    zone (utcOffset env) ->
    habitLogs s = l1 ++ lg :: l2 ->
    HabitLog.date lg = d ->
    findHabit s (HabitLog.habitId lg) = Some h ->
    Habit.type h = "counter"%string ->
    scheduledOn (Clock.civilWeekday d) h = true ->
    let credit :=
      counterCredit (T (Habit.target h)) (HabitLog.count lg) (Habit.points h) in
    T (Habit.target h) <> 0
    /\ (forall total,
          habitStep s (Clock.weekdayOf (utcOffset env) d) total lg
          = addPoints total credit)
    /\ (exactDay env s d ->
        dayTotal env s d
        = dayTotal env (set_habitLogs (l1 ++ l2) s) d + credit).

(** *** Streak evaluator *)

(** Completion threshold of a habit: 1 for a binary habit, the target for a
    counter habit, as the specification words it and as the source computes
    it (with [h.target || 1]). *)
Definition thresholdAsClaimed (h : Habit.t) : Z :=
  if String.eqb (Habit.type h) "binary" then 1 else Habit.target h.

Definition thresholdAsCoded (h : Habit.t) : Z :=
  if String.eqb (Habit.type h) "binary" then 1 else JS.or_else (Habit.target h) 1.

(** "Every habit scheduled on [weekday] has a log for [d] that reaches its
    threshold." *)
Definition scheduledHabitsLogged (threshold : Habit.t -> Z) (weekday : string)
    (s : AppState) (d : Z) : Prop :=
  forall h, h ∈ habits s -> scheduledOn weekday h = true ->
    exists log, findLog (habitLogs s) (Habit.id h) d = Some log
                /\ threshold h <= HabitLog.count log.

Definition streakEvaluatorLaw (zone : Z -> Prop) (threshold : Habit.t -> Z)
    : Prop :=
  forall env s d,
    zone (utcOffset env) ->
    ((forall h, h ∈ habits s -> scheduledOn (Clock.civilWeekday d) h = false) ->
     allScheduledHabitsComplete env s d = true)
    /\ (allScheduledHabitsComplete env s d = true
        <-> scheduledHabitsLogged threshold (Clock.civilWeekday d) s d).

(** *** Assignment *)

(** The effect of an assignment: [created] is appended, the oracle counters
    move on, everything else stays. *)
Definition questsAdded (created : list AssignedQuest.t) (s s' : AppState) : Prop :=
  exists rc uc,
    s' = mkAppState (settings s) (meta s) (tasks s) (habits s) (habitLogs s)
           (events s) (questLibrary s) (assignedQuests s ++ created)
           (daySummaries s) rc uc.

(** [chosen] is drawn from [pool] without repetition: with the entries left
    over it is a rearrangement of [pool]. *)
Definition drawnFrom (pool chosen : list QuestLibrary.t) : Prop :=
  exists rest, chosen ++ rest ≡ₚ pool.

(** The count [assignWeeklyQuests] asks for. *)
Definition weeklyRequest (env : Env) (s : AppState) : Z :=
  let st := settings s in
  if String.eqb (Settings.weeklyQuestMode st) "range" then
    Z.max 0 (randomBelow env (randomCalls s)
               (Z.of_N (Settings.weeklyQuestMax st)
                - Z.of_N (Settings.weeklyQuestMin st) + 1)
             + Z.of_N (Settings.weeklyQuestMin st))
  else Z.of_N (Settings.weeklyQuestCount st).

(** One assignment call asked for [n] quests: the quests [created] are
    appended to [assignedQuests], they reference entries drawn from the
    active pool without repetition, and there are [min(n, |pool|)] of them. *)
Definition assignsDistinct (n : Z) (created : list AssignedQuest.t)
    (s s' : AppState) : Prop :=
  assignedQuests s' = assignedQuests s ++ created
  /\ (exists chosen,
         drawnFrom (activePool s) chosen
         /\ AssignedQuest.libraryId <$> created = QuestLibrary.id <$> chosen)
  /\ (NoDup (QuestLibrary.id <$> activePool s) ->
      NoDup (AssignedQuest.libraryId <$> created))
  /\ Z.of_nat (length created) = Z.min n (Z.of_nat (length (activePool s)))
  /\ (length created <= length (activePool s))%nat
  /\ (n = 0 \/ activePool s = [] -> created = []).

(** *** Rollover *)

(** The lifecycle record a day-changed run leaves behind. *)
Definition dayChangedMeta (env : Env) (s : AppState) (prev today : Z) : Meta.t :=
  let ok := DaySummary.goalMet (computeDayTotals env s prev)
            && allScheduledHabitsComplete env s prev in
  let m1 := updateStreak ok (meta s) in
  let weekStart := Settings.weekStart (settings s) in
  let lastWeek :=
    match Meta.lastWeekStart m1 with
    | Some w => w
    | None => Clock.weekOf (utcOffset env) (Clock.parseDateOnly prev) weekStart
    end in
  let currentWeek := Clock.weekOf (utcOffset env) (Clock.parseDateOnly today) weekStart in
  setLastAssignmentRun today
    (if bool_decide (currentWeek <> lastWeek)
     then setLastWeekStart currentWeek m1 else m1).

(** The lifecycle record the first run leaves behind. *)
Definition firstRunMeta (env : Env) (s : AppState) (today : Z) : Meta.t :=
  setLastWeekStart
    (Clock.weekOf (utcOffset env) (Clock.parseDateOnly today)
       (Settings.weekStart (settings s)))
    (setLastAssignmentRun today (meta s)).

(** A rollover touches the lifecycle record, the assigned quests, the
    summaries and the oracle counters, nothing else. *)
Definition rolledOver (m : Meta.t) (created : list AssignedQuest.t)
    (s s' : AppState) : Prop :=
  exists sums rc uc,
    s' = mkAppState (settings s) m (tasks s) (habits s) (habitLogs s)
           (events s) (questLibrary s) (assignedQuests s ++ created)
           sums rc uc.

Definition anyHabit (h : Habit.t) : Prop := True.

(** Habits a count of 0 leaves incomplete: binary ones, and counter habits
    whose stored target is not negative. *)
Definition zeroIsIncomplete (h : Habit.t) : Prop :=
  Habit.type h = "binary"%string \/ 0 <= Habit.target h.

(** The streak rule of a day-changed run: one update, decided by the
    summary and the habits of the previous day [prev]; in particular the
    streak is reset when a habit scheduled for [prev] (one of those
    [eligible]) has its log at count 0, whatever the points of the day. *)
Definition streakUpdateLaw (zone : Z -> Prop) (eligible : Habit.t -> Prop) : Prop :=
  forall env s now prev,
    randomSource env ->
    Z.of_nat (length (questLibrary s)) < arrayLimit ->
    Meta.lastAssignmentRun (meta s) = Some prev ->
    prev <> Clock.todayStr (utcOffset env) now ->
    exists s',
      ensureRollover env now s = Some (tt, s')
      /\ let ok := DaySummary.goalMet (computeDayTotals env s prev)
                   && allScheduledHabitsComplete env s prev in
         (ok = true ->
          Meta.streak (meta s') = (Meta.streak (meta s) + 1)%N
          /\ Meta.bestStreak (meta s')
             = N.max (Meta.bestStreak (meta s)) (Meta.streak (meta s) + 1))
         /\ (ok = false ->
             Meta.streak (meta s') = 0%N
             /\ Meta.bestStreak (meta s') = Meta.bestStreak (meta s))
         /\ (forall h log,
                zone (utcOffset env) ->
                DaySummary.goalMet (computeDayTotals env s prev) = true ->
                h ∈ habits s ->
                scheduledOn (Clock.civilWeekday prev) h = true ->
                eligible h ->
                findLog (habitLogs s) (Habit.id h) prev = Some log ->
                HabitLog.count log = 0 ->
                Meta.streak (meta s') = 0%N).

(** ** Vocabulary of the properties *)

(** A quest as an assignment creates it: not completed, and referring to
    an entry of the active pool of [s]. *)
Definition newQuest (s : AppState) (aq : AssignedQuest.t) : Prop :=
  AssignedQuest.completedAt aq = None
  /\ exists q, q ∈ activePool s
               /\ AssignedQuest.libraryId aq = QuestLibrary.id q.

Definition dailyQuestFor (today : Z) (aq : AssignedQuest.t) : Prop :=
  AssignedQuest.type aq = "daily"%string
  /\ AssignedQuest.date aq = Some today
  /\ AssignedQuest.weekOf aq = None
  /\ AssignedQuest.multiplier aq = JS.one.

Definition weeklyQuestFor (week : Z) (factor : JS.number) (aq : AssignedQuest.t)
    : Prop :=
  AssignedQuest.type aq = "weekly"%string
  /\ AssignedQuest.date aq = None
  /\ AssignedQuest.weekOf aq = Some week
  /\ AssignedQuest.multiplier aq = factor.

(** The week [ensureRollover] computes for the date key [today]:
    [weekOf(new Date(today), settings.weekStart)]. *)
Definition weekOfKey (env : Env) (s : AppState) (today : Z) : Z :=
  Clock.weekOf (utcOffset env) (Clock.parseDateOnly today)
    (Settings.weekStart (settings s)).

(** The week of the local day [day]: [weekOf] of its first instant, and of
    every other one. *)
Definition weekOfDay (env : Env) (s : AppState) (day : Z) : Z :=
  Clock.weekOf (utcOffset env) (Clock.dateStart (utcOffset env) day)
    (Settings.weekStart (settings s)).

(** The lifecycle record a run of [ensureRollover] on the day [today]
    leaves behind, branch by branch. *)
Definition rolloverMeta (env : Env) (s : AppState) (today : Z) : Meta.t :=
  match Meta.lastAssignmentRun (meta s) with
  | None => firstRunMeta env s today
  | Some prev =>
      if bool_decide (prev <> today) then dayChangedMeta env s prev today
      else meta s
  end.

(** The summaries it leaves behind: the one of [today] recomputed, after
    the one of the previous run's day when the day has changed. *)
Definition rolloverSummaries (env : Env) (s : AppState) (today : Z)
    : list DaySummary.t :=
  storeSummary (computeDayTotals env s today)
    match Meta.lastAssignmentRun (meta s) with
    | None => daySummaries s
    | Some prev =>
        if bool_decide (prev <> today)
        then storeSummary (computeDayTotals env s prev) (daySummaries s)
        else daySummaries s
    end.

(** Whether a run on the day [today] assigns weekly quests. *)
Definition weekDue (env : Env) (s : AppState) (today : Z) : Prop :=
  match Meta.lastAssignmentRun (meta s) with
  | None => True
  | Some prev =>
      prev <> today
      /\ weekOfKey env s today
         <> match Meta.lastWeekStart (meta s) with
            | Some w => w
            | None => weekOfKey env s prev
            end
  end.

(** The lifecycle record names the week of the day it names. *)
Definition weekInSync (env : Env) (s : AppState) : Prop :=
  forall d, Meta.lastAssignmentRun (meta s) = Some d ->
            Meta.lastWeekStart (meta s) = Some (weekOfDay env s d).

(** The points a task earns when it is completed at the instant [comp]:
    none once its due date has passed. *)
Definition taskCredit (t : Task.t) (comp : Z) : Z :=
  match Task.dueDate t with
  | Some due => if comp <=? due then JS.or_else (Task.points t) 0 else 0
  | None => JS.or_else (Task.points t) 0
  end.

(** [credit] on the date [d] if that is the local day of [comp], nothing on
    any other date. *)
Definition onDayOf (env : Env) (comp d : Z) (credit : Z) : Z :=
  if bool_decide (Clock.todayStr (utcOffset env) comp = d) then credit else 0.

(** No two habit logs are for the same habit and date. *)
Definition logKeysUnique (s : AppState) : Prop :=
  NoDup ((fun l => (HabitLog.habitId l, HabitLog.date l)) <$> habitLogs s).

(** No two cached summaries are for the same date. *)
Definition summaryDatesUnique (s : AppState) : Prop :=
  NoDup (DaySummary.date <$> daySummaries s).

(** Every habit log belongs to a stored habit, every assigned quest to a
    stored library entry. *)
Definition logsReferToHabits (s : AppState) : Prop :=
  forall lg, lg ∈ habitLogs s -> is_Some (findHabit s (HabitLog.habitId lg)).

Definition questsReferToLibrary (s : AppState) : Prop :=
  forall aq, aq ∈ assignedQuests s ->
             is_Some (findQuest s (AssignedQuest.libraryId aq)).

(** The state [upsertDaySummary(d)] leaves behind. *)
Definition refreshed (env : Env) (d : Z) (s : AppState) : AppState :=
  set_daySummaries (storeSummary (computeDayTotals env s d) (daySummaries s)) s.

(** The log of a habit and date as a handler finds or creates it. *)
Definition logBefore (s : AppState) (habitId : string) (d : Z) : HabitLog.t :=
  default (newHabitLog habitId d) (findLog (habitLogs s) habitId d).

(** The points a log earns on the date [d]: those of its habit if the
    habit is stored and scheduled on the weekday the engine derives. *)
Definition logCredit (env : Env) (s : AppState) (d : Z) (lg : HabitLog.t) : Z :=
  habitStepZ s (Clock.weekdayOf (utcOffset env) d) 0 lg.

(** An operation keeps the four properties above, each on its own. *)
Definition keepsWellFormed (s s' : AppState) : Prop :=
  (logsReferToHabits s -> logsReferToHabits s')
  /\ (questsReferToLibrary s -> questsReferToLibrary s')
  /\ (logKeysUnique s -> logKeysUnique s')
  /\ (summaryDatesUnique s -> summaryDatesUnique s').

(** The day number of a date of the Gregorian calendar (month 0 is
    January), the way back from [Text.civil]. *)
Definition eraDayOfCivil (yoe month date : Z) : Z :=
  let mp := if month <=? 1 then month + 10 else month - 2 in
  let doy := (153 * mp + 2) / 5 + date - 1 in
  yoe * 365 + yoe / 4 - yoe / 100 + doy.

Definition dayOfCivil (year month date : Z) : Z :=
  let y := if month <=? 1 then year - 1 else year in
  let era := y / 400 in
  era * 146097 + eraDayOfCivil (y mod 400) month date - 719468.

(** [f] holds on every integer from [lo] up to, not including, [hi]: the
    range is halved [fuel] times at most. *)
Fixpoint holdsOn (fuel : nat) (lo hi : Z) (f : Z -> bool) : bool :=
  if hi <=? lo then true
  else if hi <=? lo + 1 then f lo
  else
    match fuel with
    | O => false
    | S k =>
        let mid := (lo + hi) / 2 in
        holdsOn k lo mid f && holdsOn k mid hi f
    end.

(** The characters [escapeHtml] replaces. *)
Definition isSpecial (c : Ascii.ascii) : bool :=
  Ascii.eqb c "&"%char || Ascii.eqb c "<"%char || Ascii.eqb c ">"%char
  || Ascii.eqb c "034"%char || Ascii.eqb c "039"%char.

(** The characters that end or open markup: the replaced ones apart from
    the ampersand. *)
Definition isMarkup (c : Ascii.ascii) : bool :=
  Ascii.eqb c "<"%char || Ascii.eqb c ">"%char
  || Ascii.eqb c "034"%char || Ascii.eqb c "039"%char.

Fixpoint chars (s : string) : list Ascii.ascii :=
  match s with
  | EmptyString => []
  | String c rest => c :: chars rest
  end.

(** The points the list 'Completed Today' shows for tasks, events and
    quests. *)
Definition shownPoints (items : list Item.t) : Z :=
  sumZ (Item.pts <$> filter (fun i => Item.kind i <> "habit"%string) items).

(** What tasks, events and quests earn on the day [d] in
    [computeDayTotals]: the points that the loops over the tasks, the
    events and the assigned quests add. *)
Definition countedPoints (env : Env) (s : AppState) (d : Z) : Z :=
  sumZ (taskStepZ env d 0 <$> tasks s)
  + sumZ (eventStepZ env d 0 <$> events s)
  + sumZ (questStepZ env s d 0 <$> assignedQuests s).

(** A list of items in descending order of points. *)
Fixpoint descending (l : list Item.t) : Prop :=
  match l with
  | [] => True
  | x :: rest => Forall (fun y => Item.pts y <= Item.pts x) rest /\ descending rest
  end.

(** ** Scenarios *)

Definition hourMs : Z := 3600000.

(** The scenario of the specification: goal 50, one task worth 60 due at
    18:00 and completed at 20:00 of the same local day. *)
Definition lateTask (env : Env) (today : Z) : Task.t :=
  {| Task.id := "t1";
     Task.points := 60;
     Task.dueDate := Some (Clock.dateStart (utcOffset env) today + 18 * hourMs);
     Task.completedAt := Some (Clock.dateStart (utcOffset env) today + 20 * hourMs) |}.

Definition lateTaskState (env : Env) (today : Z) (st : Settings.t) (m : Meta.t)
    : AppState :=
  mkAppState st m [lateTask env today] [] [] [] [] [] [] 0 0.

(** The double 0.5. *)
Definition half : JS.number := S754_finite false 4503599627370496 (-53).

(** An environment in the zone [tz] whose every random draw is 0.5. *)
Definition zoneEnv (tz : Z) : Env :=
  mkEnv tz (fun _ => half)
    (fun k => ("aq_" ++ NilEmpty.string_of_uint (Nat.to_uint k))%string).

(** Eleven library quests, ten of them active. *)
Definition exampleLibrary : list QuestLibrary.t :=
  [ QuestLibrary.mk "q0" 10 true; QuestLibrary.mk "q1" 20 true;
    QuestLibrary.mk "q2" 5 false; QuestLibrary.mk "q3" 15 true;
    QuestLibrary.mk "q4" 30 true; QuestLibrary.mk "q5" 25 true;
    QuestLibrary.mk "q6" 10 true; QuestLibrary.mk "q7" 40 true;
    QuestLibrary.mk "q8" 35 true; QuestLibrary.mk "q9" 50 true;
    QuestLibrary.mk "q10" 45 true ].

(** A fresh installation with that library. *)
Definition exampleState : AppState :=
  mkAppState DefaultSettings DefaultMeta [] [] [] [] exampleLibrary [] [] 0 0.

(** Weekly mode "range" with min 2 and max 4. *)
Definition rangeSettings : Settings.t :=
  {| Settings.dailyGoal := 100;
     Settings.dailyQuestCount := 3;
     Settings.weekStart := "Mon";
     Settings.weeklyQuestMode := "range";
     Settings.weeklyQuestCount := 3;
     Settings.weeklyQuestMin := 2;
     Settings.weeklyQuestMax := 4;
     Settings.weeklyFactor := Settings.mkFactor 6755399441055744 (-52) |}.

Definition rangeState : AppState :=
  mkAppState rangeSettings DefaultMeta [] [] [] [] exampleLibrary [] [] 0 0.

(** 8 January 2022, a Saturday, at 01:00 UTC. *)
Definition exampleNow : Z := 19000 * Clock.msPerDay + hourMs.

(** One habit scheduled on Thursdays and its log for 1 January 1970 (day 0,
    a Thursday); the last rollover ran on that day, a task worth 200 was
    completed on it at 12:00 UTC, the streak stands at 2 and the best streak
    at 5. *)
Definition thursdayHabit (type : string) (target : Z) : Habit.t :=
  Habit.mk "h1" type target 10 ["Thu"%string].

Definition thursdayLog (count : Z) : HabitLog.t :=
  HabitLog.mk "hl_h1|1970-01-01" "h1" 0 count None.

Definition thursdayState (type : string) (target count : Z) : AppState :=
  mkAppState DefaultSettings (Meta.mk 2 5 (Some 0) (Some (-3)))
    [Task.mk "t1" 200 None (Some (12 * hourMs))]
    [thursdayHabit type target] [thursdayLog count] [] [] [] [] 0 0.

(** The same day with a task of any worth in place of the 200-point one,
    and the counter habit (target 3) logged once. *)
Definition hugeTaskState (points : Z) : AppState :=
  mkAppState DefaultSettings (Meta.mk 2 5 (Some 0) (Some (-3)))
    [Task.mk "t1" points None (Some (12 * hourMs))]
    [thursdayHabit "counter" 3] [thursdayLog 1] [] [] [] [] 0 0.

(** Three tasks completed on 1 January 1970, stored in this order, and
    nothing else. *)
Definition doneTask (id : string) (points : Z) : Task.t :=
  Task.mk id points None (Some (12 * hourMs)).

Definition doneTasksState (t1 t2 t3 : Task.t) : AppState :=
  mkAppState DefaultSettings DefaultMeta [t1; t2; t3] [] [] [] [] [] [] 0 0.

(** The Thursday of [thursdayState] with the binary habit done, the goal met
    and the library of [exampleState]: the day after, a rollover is due
    that raises the streak from 2 to 3 and assigns three daily quests. *)
Definition overlapState : AppState :=
  set_questLibrary exampleLibrary (thursdayState "binary" 1 1).

(** Settings with a daily goal of 50. *)
Definition goal50 : Settings.t :=
  {| Settings.dailyGoal := 50;
     Settings.dailyQuestCount := 3;
     Settings.weekStart := "Mon";
     Settings.weeklyQuestMode := "fixed";
     Settings.weeklyQuestCount := 3;
     Settings.weeklyQuestMin := 2;
     Settings.weeklyQuestMax := 4;
     Settings.weeklyFactor := Settings.mkFactor 6755399441055744 (-52) |}.

(** A log whose habit was deleted and a completed quest whose library entry
    was deleted, next to a task worth 200, all on day 0. *)
Definition orphanLog : HabitLog.t := HabitLog.mk "hl_gone|1970-01-01" "gone" 0 3 None.

Definition orphanQuest : AssignedQuest.t :=
  AssignedQuest.mk "aq_1" "gone" "daily" (Some 0) None JS.one (Some 2000).

Definition orphanState : AppState :=
  mkAppState DefaultSettings DefaultMeta
    [Task.mk "t1" 200 None (Some 1000)] [] [orphanLog] [] []
    [orphanQuest] [] 0 0.

(** The Thursday state with two cached summaries. *)
Definition cachedState : AppState :=
  set_daySummaries [DaySummary.mk 0 5 false; DaySummary.mk 1 7 false]
    (thursdayState "binary" 1 1).


(** A clock that starts at noon of day 0 (UTC) and advances by one
    millisecond per read. *)
Definition noonClock (k : nat) : Z := 12 * hourMs + Z.of_nat k.

(** Day 0 (a Thursday) in use: an open task without due date and one due at
    18:00, a counter habit with target 3 logged once, a binary habit not yet
    logged, an event that gives points and an open daily quest; the last
    rollover ran on that day. *)
Definition busyState : AppState :=
  mkAppState DefaultSettings (Meta.mk 2 5 (Some 0) (Some (-3)))
    [Task.mk "t1" 20 None None; Task.mk "t2" 30 (Some (18 * hourMs)) None]
    [Habit.mk "h1" "counter" 3 10 ["Thu"%string];
     Habit.mk "h2" "binary" 1 5 ["Thu"%string]]
    [HabitLog.mk "hl_h1|1970-01-01" "h1" 0 1 None]
    [Event.mk "e1" true 15 None]
    exampleLibrary
    [AssignedQuest.mk "aq_0" "q0" "daily" (Some 0) None JS.one None]
    [] 0 0.


(** * Proofs *)

(** ** Binary64 facts behind [Math.floor(Math.random() * n)] *)

Lemma digits2_pos_bounds (p : positive) :
  2 ^ (Z.pos (digits2_pos p) - 1) <= Z.pos p < 2 ^ Z.pos (digits2_pos p).
Proof.
  induction p as [p IH|p IH|]; simpl digits2_pos.
  - rewrite Pos2Z.inj_succ. replace (Z.succ (Z.pos (digits2_pos p)) - 1)
      with (Z.succ (Z.pos (digits2_pos p) - 1)) by lia.
    rewrite !Z.pow_succ_r by lia. lia.
  - rewrite Pos2Z.inj_succ. replace (Z.succ (Z.pos (digits2_pos p)) - 1)
      with (Z.succ (Z.pos (digits2_pos p) - 1)) by lia.
    rewrite !Z.pow_succ_r by lia. lia.
  - simpl. lia.
Qed.

Lemma iter_pos_nat {A} (f : A -> A) (p : positive) (x : A) :
  SpecFloat.iter_pos f p x = Nat.iter (Pos.to_nat p) f x.
Proof.
  revert x. induction p as [p IH|p IH|]; intros x; cbn [SpecFloat.iter_pos].
  - rewrite !IH, Pos2Nat.inj_xI.
    replace (2 * Pos.to_nat p)%nat with (Pos.to_nat p + Pos.to_nat p)%nat by lia.
    rewrite Nat.iter_succ_r, Nat.iter_add. reflexivity.
  - rewrite !IH, Pos2Nat.inj_xO.
    replace (2 * Pos.to_nat p)%nat with (Pos.to_nat p + Pos.to_nat p)%nat by lia.
    rewrite Nat.iter_add. reflexivity.
  - reflexivity.
Qed.

Lemma shr_1_m mrs : 0 <= shr_m mrs -> shr_m (shr_1 mrs) = shr_m mrs / 2.
Proof.
  destruct mrs as [m r s]. cbn [shr_m]. intros Hm.
  destruct m as [|[p|p|]|p]; cbn [shr_1 shr_m].
  - reflexivity.
  - apply Z.div_unique with (r := 1); [lia|]. rewrite Pos2Z.inj_xI. lia.
  - apply Z.div_unique with (r := 0); [lia|]. rewrite Pos2Z.inj_xO. lia.
  - reflexivity.
  - lia.
Qed.

Lemma shr_1_r mrs : 0 <= shr_m mrs -> shr_r (shr_1 mrs) = Z.odd (shr_m mrs).
Proof.
  destruct mrs as [m r s]. simpl. intros Hm.
  destruct m as [|[p|p|]|p]; simpl; try reflexivity; lia.
Qed.

Lemma iter_shr_1_m (k : nat) (M : Z) (r s : bool) :
  0 <= M ->
  shr_m (Nat.iter k shr_1 (Build_shr_record M r s)) = M / 2 ^ Z.of_nat k.
Proof.
  intros HM. induction k as [|k IH].
  - simpl. now rewrite Z.div_1_r.
  - rewrite Nat.iter_succ, shr_1_m, IH.
    + rewrite Nat2Z.inj_succ, Z.pow_succ_r by lia.
      rewrite Z.div_div by lia. f_equal. lia.
    + rewrite IH. apply Z.div_pos; lia.
Qed.

(** Shifting right by [k >= 1] bits: the mantissa is the quotient, and the
    round bit is set only if the remainder is at least half. *)
Lemma iter_shr_1_r (k : nat) (M : Z) (r s : bool) :
  0 <= M -> (0 < k)%nat ->
  shr_r (Nat.iter k shr_1 (Build_shr_record M r s)) = true ->
  2 ^ Z.of_nat k <= 2 * (M mod 2 ^ Z.of_nat k).
Proof.
  intros HM Hk. destruct k as [|k]; [lia|]. clear Hk.
  rewrite Nat.iter_succ, shr_1_r, iter_shr_1_m by
    (try rewrite iter_shr_1_m by assumption; try apply Z.div_pos; lia).
  intros Hodd.
  rewrite Nat2Z.inj_succ, Z.pow_succ_r by lia.
  set (t := 2 ^ Z.of_nat k) in *.
  assert (Ht : 0 < t) by (apply Z.pow_pos_nonneg; lia).
  pose proof (Z.div_mod M t ltac:(lia)) as HMt.
  pose proof (Z.mod_pos_bound M t Ht) as Ha.
  apply Z.odd_spec in Hodd as [q Hq].
  assert (Hmod : M mod (2 * t) = t + M mod t).
  { symmetry. apply Z.mod_unique with (q := q); nia. }
  lia.
Qed.

Lemma round_nearest_even_cases mrs :
  round_nearest_even (shr_m mrs) (loc_of_shr_record mrs) = shr_m mrs
  \/ (round_nearest_even (shr_m mrs) (loc_of_shr_record mrs) = shr_m mrs + 1
      /\ shr_r mrs = true).
Proof.
  destruct mrs as [m [|] [|]]; cbn [shr_m shr_r loc_of_shr_record round_nearest_even];
    try destruct (Z.even m); auto.
Qed.

Lemma shr_pos_spec (M E : Z) (p : positive) :
  0 <= M ->
  exists mrs,
    shr (Build_shr_record M false false) E (Z.pos p) = (mrs, E + Z.pos p)
    /\ shr_m mrs = M / 2 ^ Z.pos p
    /\ (shr_r mrs = true -> 2 ^ Z.pos p <= 2 * (M mod 2 ^ Z.pos p)).
Proof.
  intros HM. unfold shr. eexists. split; [reflexivity|].
  rewrite iter_pos_nat. rewrite <- (positive_nat_Z p).
  split.
  - now apply iter_shr_1_m.
  - apply iter_shr_1_r; [assumption|apply Pos2Nat.is_pos].
Qed.

(** A second pass of [shr_fexp] over an exact mantissa only drops low bits. *)
Lemma shr_fexp_exact (m e : Z) :
  0 <= m ->
  exists mrs q,
    shr_fexp 53 1024 m e loc_Exact = (mrs, e + q)
    /\ 0 <= q /\ shr_m mrs = m / 2 ^ q.
Proof.
  intros Hm. unfold shr_fexp. cbn [shr_record_of_loc].
  destruct (fexp 53 1024 (Zdigits2 m + e) - e) as [|p|p] eqn:Hs.
  - exists (Build_shr_record m false false), 0. cbn [shr shr_m].
    rewrite Z.add_0_r, Z.div_1_r. auto with zarith.
  - destruct (shr_pos_spec m e p Hm) as (mrs & Hshr & Hq & _).
    exists mrs, (Z.pos p). rewrite Hshr. repeat split; [lia|assumption].
  - exists (Build_shr_record m false false), 0. cbn [shr shr_m].
    rewrite Z.add_0_r, Z.div_1_r. auto with zarith.
Qed.

(** [Math.floor] of a finite value below the integer [n] is below [n]. *)
Lemma floor_shifted_below (m2 fe q n : Z) (m3 : positive) :
  0 <= m2 -> fe <= 0 -> 0 <= q ->
  m2 < n * 2 ^ (- fe) ->
  Z.pos m3 = m2 / 2 ^ q ->
  0 <= JS.floor (S754_finite false m3 (fe + q)) < n.
Proof.
  intros Hm2 Hfe Hq Hlt Hm3. cbn [JS.floor].
  assert (HQ : 0 < 2 ^ q) by (apply Z.pow_pos_nonneg; lia).
  assert (Hmul : Z.pos m3 * 2 ^ q <= m2).
  { rewrite Hm3, Z.mul_comm. apply Z.mul_div_le. lia. }
  destruct (Z.leb_spec 0 (fe + q)) as [He|He].
  - rewrite Z.shiftl_mul_pow2 by lia.
    assert (Hpow : 2 ^ q = 2 ^ (fe + q) * 2 ^ (- fe)).
    { rewrite <- Z.pow_add_r by lia. f_equal. lia. }
    assert (HF : 0 < 2 ^ (- fe)) by (apply Z.pow_pos_nonneg; lia).
    assert (HE : 0 < 2 ^ (fe + q)) by (apply Z.pow_pos_nonneg; lia).
    split; [lia|]. rewrite Hpow in Hmul. nia.
  - rewrite Z.shiftr_div_pow2 by lia.
    assert (Hpow : 2 ^ (- fe) = 2 ^ (- (fe + q)) * 2 ^ q).
    { rewrite <- Z.pow_add_r by lia. f_equal. lia. }
    assert (HE : 0 < 2 ^ (- (fe + q))) by (apply Z.pow_pos_nonneg; lia).
    split; [apply Z.div_pos; lia|].
    apply Z.div_lt_upper_bound; [lia|]. rewrite Hpow in Hlt. nia.
Qed.

(** The first rounding step of a product [M * 2^E] that lies below the
    integer [n] by at least the relative gap [2^-53] stays below [n]. *)
Lemma first_round_below (M : positive) (E n : Z) :
  E < 0 -> 0 < n < 2 ^ 53 ->
  Z.pos M < n * 2 ^ (- E) ->
  Z.pos M * 2 ^ 53 <= (2 ^ 53 - 1) * (n * 2 ^ (- E)) ->
  exists mrs e',
    shr_fexp 53 1024 (Z.pos M) E loc_Exact = (mrs, e')
    /\ e' <= 0
    /\ 0 <= round_nearest_even (shr_m mrs) (loc_of_shr_record mrs)
       < n * 2 ^ (- e').
Proof.
  intros HE Hn Hlt Hgap. unfold shr_fexp. cbn [shr_record_of_loc Zdigits2].
  pose proof (digits2_pos_bounds M) as HD.
  set (D := Z.pos (digits2_pos M)) in *.
  assert (HDE : D + E <= 53).
  { assert (H253 : n * 2 ^ (- E) < 2 ^ 53 * 2 ^ (- E)).
    { apply Z.mul_lt_mono_pos_r; [apply Z.pow_pos_nonneg|]; lia. }
    rewrite <- Z.pow_add_r in H253 by lia.
    assert (Hpow : 2 ^ (D - 1) < 2 ^ (53 + - E)) by lia.
    apply Z.pow_lt_mono_r_iff in Hpow; lia. }
  unfold fexp, emin.
  set (fe := Z.max (D + E - 53) (3 - 1024 - 53)).
  destruct (fe - E) as [|p|p] eqn:Hs.
  - exists (Build_shr_record (Z.pos M) false false), E.
    cbn [shr shr_m loc_of_shr_record round_nearest_even]. repeat split; lia.
  - destruct (shr_pos_spec (Z.pos M) E p ltac:(lia)) as (mrs & Hshr & Hm1 & Hr).
    exists mrs, (E + Z.pos p). split; [exact Hshr|].
    assert (Hfe : E + Z.pos p = fe) by lia. rewrite Hfe.
    assert (Hfe0 : fe <= 0) by (subst fe; lia).
    split; [exact Hfe0|].
    set (T := 2 ^ Z.pos p) in *. set (F := 2 ^ (- fe)).
    assert (HT : 0 < T) by (apply Z.pow_pos_nonneg; lia).
    assert (HF : 0 < F) by (apply Z.pow_pos_nonneg; lia).
    assert (HFT : 2 ^ (- E) = F * T).
    { unfold F, T. rewrite <- Z.pow_add_r by lia. f_equal. lia. }
    rewrite HFT in Hlt, Hgap.
    assert (Hm1lt : shr_m mrs < n * F).
    { rewrite Hm1. apply Z.div_lt_upper_bound; [lia|]. nia. }
    assert (Hm1pos : 0 <= shr_m mrs) by (rewrite Hm1; apply Z.div_pos; lia).
    destruct (round_nearest_even_cases mrs) as [->|[-> Hrt]]; [lia|].
    split; [lia|].
    destruct (Z.lt_ge_cases (shr_m mrs + 1) (n * F)) as [|Hge]; [assumption|exfalso].
    specialize (Hr Hrt).
    pose proof (Z.div_mod (Z.pos M) T ltac:(lia)) as HMT.
    pose proof (Z.mod_pos_bound (Z.pos M) T HT) as Ha.
    rewrite <- Hm1 in HMT.
    set (a := Z.pos M mod T) in *. set (m1 := shr_m mrs) in *.
    assert (Hm1eq : m1 = n * F - 1) by lia.
    change (2 ^ 53) with 9007199254740992 in *.
    assert (HnF : n * F <= 4503599627370496).
    { assert (H2M : (2 * (n * F) - 1) * T <= 2 * Z.pos M) by nia.
      assert (H3 : (2 * (n * F) - 1) * T * 9007199254740992
                   <= 2 * (9007199254740992 - 1) * (n * F) * T) by nia.
      assert (H4 : (2 * (n * F) - 1) * 9007199254740992
                   <= 2 * (9007199254740992 - 1) * (n * F)).
      { apply (Z.mul_le_mono_pos_r _ _ T HT). lia. }
      lia. }
    assert (HF52 : F <= 2 ^ 52).
    { change (2 ^ 52) with 4503599627370496. nia. }
    assert (Hfe52 : - fe <= 52).
    { unfold F in HF52. apply Z.pow_le_mono_r_iff in HF52; lia. }
    assert (Hp : Z.pos p = D - 53) by (subst fe; lia).
    assert (HM52 : 2 ^ 52 * T <= Z.pos M).
    { unfold T. rewrite Hp, <- Z.pow_add_r by lia.
      replace (52 + (D - 53)) with (D - 1) by lia. lia. }
    assert (Hm152 : 2 ^ 52 <= m1).
    { rewrite Hm1. apply Z.div_le_lower_bound; lia. }
    change (2 ^ 52) with 4503599627370496 in *. lia.
  - exists (Build_shr_record (Z.pos M) false false), E.
    cbn [shr shr_m loc_of_shr_record round_nearest_even]. repeat split; lia.
Qed.

Lemma binary_round_aux_below (M : positive) (E n : Z) :
  E < 0 -> 0 < n < 2 ^ 53 ->
  Z.pos M < n * 2 ^ (- E) ->
  Z.pos M * 2 ^ 53 <= (2 ^ 53 - 1) * (n * 2 ^ (- E)) ->
  0 <= JS.floor (binary_round_aux 53 1024 false (Z.pos M) E loc_Exact) < n.
Proof.
  intros HE Hn Hlt Hgap. unfold binary_round_aux.
  destruct (first_round_below M E n HE Hn Hlt Hgap)
    as (mrs & e' & -> & He' & Hm2lo & Hm2hi).
  destruct (shr_fexp_exact
              (round_nearest_even (shr_m mrs) (loc_of_shr_record mrs)) e' Hm2lo)
    as (mrs2 & q & -> & Hq & Hm3).
  destruct (shr_m mrs2) as [|m3|m3] eqn:Hm; cbn [JS.floor]; try lia.
  destruct (e' + q <=? 1024 - 53); [|cbn [JS.floor]; lia].
  apply (floor_shifted_below
           (round_nearest_even (shr_m mrs) (loc_of_shr_record mrs)) e' q n m3);
    [exact Hm2lo|exact He'|exact Hq|exact Hm2hi|congruence].
Qed.

Lemma iter_xO_value (p k : positive) :
  Z.pos (Pos.iter xO p k) = Z.pos p * 2 ^ Z.pos k.
Proof.
  induction k as [|k IH] using Pos.peano_ind.
  - simpl. lia.
  - rewrite Pos.iter_succ, Pos2Z.inj_xO, IH, Pos2Z.inj_succ, Z.pow_succ_r by lia.
    lia.
Qed.

Lemma iter_xO_digits (p k : positive) :
  Z.pos (digits2_pos (Pos.iter xO p k)) = Z.pos (digits2_pos p) + Z.pos k.
Proof.
  induction k as [|k IH] using Pos.peano_ind.
  - simpl. lia.
  - rewrite Pos.iter_succ. cbn [digits2_pos]. rewrite !Pos2Z.inj_succ, IH. lia.
Qed.

(** A mantissa of exactly 53 bits with an exponent in range is already
    rounded. *)
Lemma binary_round_aux_canonical (s : bool) (m : positive) (e : Z) :
  Z.pos (digits2_pos m) = 53 -> -1074 <= e <= 971 ->
  binary_round_aux 53 1024 s (Z.pos m) e loc_Exact = S754_finite s m e.
Proof.
  intros Hd He. unfold binary_round_aux, shr_fexp.
  cbn [Zdigits2 shr_record_of_loc]. rewrite Hd.
  unfold fexp, emin.
  replace (Z.max (53 + e - 53) (3 - 1024 - 53) - e) with 0 by lia.
  cbn [shr shr_m loc_of_shr_record round_nearest_even Zdigits2 shr_record_of_loc].
  rewrite Hd.
  replace (Z.max (53 + e - 53) (3 - 1024 - 53) - e) with 0 by lia.
  cbn [shr shr_m].
  destruct (Z.leb_spec e (1024 - 53)); [reflexivity|lia].
Qed.

(** The double of a positive integer below [2^53] is that integer, with a
    mantissa scaled to 53 bits. *)
Lemma ofZ_small (n : Z) :
  0 < n < 2 ^ 53 ->
  exists mn en,
    JS.ofZ n = S754_finite false mn en
    /\ en <= 0 /\ Z.pos mn = n * 2 ^ (- en).
Proof.
  intros Hn. destruct n as [|pn|pn]; try lia.
  unfold JS.ofZ, binary_normalize, binary_round, JS.prec, JS.emax.
  pose proof (digits2_pos_bounds pn) as HD.
  set (d := Z.pos (digits2_pos pn)) in *.
  assert (Hd : 1 <= d <= 53).
  { split; [subst d; lia|].
    assert (Hpow : 2 ^ (d - 1) < 2 ^ 53) by lia.
    apply Z.pow_lt_mono_r_iff in Hpow; lia. }
  unfold fexp, emin.
  replace (Z.max (d + 0 - 53) (3 - 1024 - 53)) with (d - 53) by lia.
  unfold shl_align.
  destruct (d - 53 - 0) as [|k|k] eqn:Hk; try lia.
  - exists pn, 0. rewrite (binary_round_aux_canonical false pn 0) by (fold d; lia).
    repeat split; [lia|]. simpl. lia.
  - exists (Pos.iter xO pn k), (d - 53).
    rewrite binary_round_aux_canonical.
    + repeat split; [lia|]. rewrite iter_xO_value. do 2 f_equal. lia.
    + rewrite iter_xO_digits. fold d. lia.
    + lia.
Qed.

Lemma unitInterval_finite (s : bool) (m : positive) (e : Z) :
  unitInterval (S754_finite s m e) = true ->
  s = false /\ e < 0 /\ Z.pos m * 2 ^ 53 <= (2 ^ 53 - 1) * 2 ^ (- e).
Proof.
  unfold unitInterval. intros H.
  apply andb_prop in H as [H Hlt]. apply andb_prop in H as [Hv Hle].
  destruct s; [discriminate|]. split; [reflexivity|].
  cbn [valid_binary] in Hv. unfold bounded in Hv.
  apply andb_prop in Hv as [Hc _]. unfold canonical_mantissa in Hc.
  apply Z.eqb_eq in Hc. unfold fexp, emin, JS.prec, JS.emax in Hc.
  pose proof (digits2_pos_bounds m) as HD.
  set (d := Z.pos (digits2_pos m)) in *.
  assert (Hd : d <= 53) by lia.
  assert (Hm : Z.pos m < 2 ^ 53).
  { apply Z.lt_le_trans with (2 ^ d); [lia|]. apply Z.pow_le_mono_r; lia. }
  unfold SFltb in Hlt. 
  assert (Hone : JS.one = S754_finite false 4503599627370496 (-52)) by (vm_compute; reflexivity).
  rewrite Hone in Hlt.
  cbn [SFcompare] in Hlt.
  destruct (Z.compare_spec e (-52)) as [He|He|He]; [| |discriminate Hlt].
  - subst e. split; [lia|].
    assert (Hcmp : Z.pos m < 4503599627370496).
    { clear - Hlt. apply Pos2Z.pos_lt_pos, Pos.compare_lt_iff.
      change (Pos.compare_cont Eq m 4503599627370496 = Lt).
      destruct (Pos.compare_cont Eq m 4503599627370496);
        [discriminate Hlt|reflexivity|discriminate Hlt]. }
    assert (H53 : 2 ^ 53 = 9007199254740992) by (vm_compute; reflexivity).
    assert (H52 : 2 ^ (- -52) = 4503599627370496) by (vm_compute; reflexivity).
    rewrite H53, H52. clear - Hcmp. lia.
  - split; [lia|].
    assert (Hpow : 2 ^ 53 <= 2 ^ (- e)) by (apply Z.pow_le_mono_r; lia).
    assert (H53 : 2 ^ 53 = 9007199254740992) by (vm_compute; reflexivity).
    rewrite H53 in *. clear - Hm Hpow He. nia.
Qed.

(** [Math.floor(Math.random() * n)] is an index below [n]. *)
Lemma floor_random_times_in_range (r : JS.number) (n : Z) :
  unitInterval r = true -> 0 < n < 2 ^ 53 ->
  0 <= JS.floor (JS.mul r (JS.ofZ n)) < n.
Proof.
  intros Hr Hn.
  destruct (ofZ_small n Hn) as (mn & en & -> & Hen & Hmn).
  destruct r as [s|[|]| |s m e]; try discriminate Hr.
  - cbn [JS.mul SFmul JS.floor]. unfold JS.mul. cbn [SFmul JS.floor]. lia.
  - destruct (unitInterval_finite s m e Hr) as (-> & He & Hgap). clear Hr.
    unfold JS.mul, SFmul, JS.prec, JS.emax. cbn [xorb].
    assert (H53 : 2 ^ 53 = 9007199254740992) by (vm_compute; reflexivity).
    assert (HKL : 2 ^ (- (e + en)) = 2 ^ (- e) * 2 ^ (- en)).
    { rewrite <- Z.pow_add_r by lia. f_equal. lia. }
    assert (HK : 0 < 2 ^ (- e)) by (apply Z.pow_pos_nonneg; lia).
    assert (HL : 0 < 2 ^ (- en)) by (apply Z.pow_pos_nonneg; lia).
    apply binary_round_aux_below; [lia|exact Hn| |].
    + rewrite Pos2Z.inj_mul, HKL, Hmn. rewrite H53 in Hgap.
      set (K := 2 ^ (- e)) in *. set (L := 2 ^ (- en)) in *.
      clear - Hgap HK HL Hn. nia.
    + rewrite Pos2Z.inj_mul, HKL, Hmn, H53. rewrite H53 in Hgap.
      set (K := 2 ^ (- e)) in *. set (L := 2 ^ (- en)) in *.
      clear - Hgap HK HL Hn. nia.
Qed.

(** ** Binary64 facts behind [total += pts] *)

(** The double of a nonzero integer of magnitude below [2^53]: its sign,
    a mantissa of 53 bits and the matching exponent. *)
Lemma binary_round_small (s : bool) (p : positive) :
  Z.pos p < 2 ^ 53 ->
  exists m e,
    binary_round 53 1024 s p 0 = S754_finite s m e
    /\ Z.pos (digits2_pos m) = 53 /\ -52 <= e <= 0
    /\ Z.pos m = Z.pos p * 2 ^ (- e).
Proof.
  intros Hp. unfold binary_round.
  pose proof (digits2_pos_bounds p) as HD.
  set (d := Z.pos (digits2_pos p)) in *.
  assert (Hd : 1 <= d <= 53).
  { split; [subst d; lia|].
    assert (Hpow : 2 ^ (d - 1) < 2 ^ 53) by lia.
    apply Z.pow_lt_mono_r_iff in Hpow; lia. }
  unfold fexp, emin.
  replace (Z.max (d + 0 - 53) (3 - 1024 - 53)) with (d - 53) by lia.
  unfold shl_align.
  destruct (d - 53 - 0) as [|k|k] eqn:Hk; try lia.
  - exists p, 0. rewrite (binary_round_aux_canonical s p 0) by (fold d; lia).
    split; [reflexivity|]. split; [fold d; lia|]. split; [lia|]. simpl. lia.
  - exists (Pos.iter xO p k), (d - 53).
    assert (Hdig : Z.pos (digits2_pos (Pos.iter xO p k)) = 53)
      by (rewrite iter_xO_digits; fold d; lia).
    rewrite binary_round_aux_canonical by (assumption || lia).
    split; [reflexivity|]. split; [exact Hdig|]. split; [lia|].
    rewrite iter_xO_value. do 2 f_equal. lia.
Qed.

(** [Math.floor] of the double of an integer is the integer. *)
Lemma floor_exact (s : bool) (m : positive) (e : Z) (n : Z) :
  e <= 0 -> Z.pos m = n * 2 ^ (- e) ->
  JS.floor (S754_finite s m e) = if s then - n else n.
Proof.
  intros He Hm. cbn [JS.floor].
  assert (HP : 0 < 2 ^ (- e)) by (apply Z.pow_pos_nonneg; lia).
  destruct (Z.leb_spec 0 e) as [H0|H0].
  - assert (e = 0) by lia. subst e. rewrite Z.shiftl_0_r.
    change (2 ^ (- 0)) with 1 in Hm. destruct s; lia.
  - rewrite Z.shiftr_div_pow2 by lia. destruct s.
    + change (Z.neg m) with (- Z.pos m). rewrite Hm, <- Z.mul_opp_l.
      apply Z.div_mul. lia.
    + rewrite Hm. apply Z.div_mul. lia.
Qed.

Lemma ofZ_cases (n : Z) :
  - 2 ^ 53 < n < 2 ^ 53 ->
  (n = 0 /\ JS.ofZ n = S754_zero false)
  \/ exists m e,
       JS.ofZ n = S754_finite (n <? 0) m e
       /\ Z.pos (digits2_pos m) = 53 /\ -52 <= e <= 0
       /\ Z.pos m = Z.abs n * 2 ^ (- e).
Proof.
  intros Hn. destruct n as [|p|p].
  - left. split; reflexivity.
  - right. destruct (binary_round_small false p ltac:(lia)) as (m & e & H & Hd & He & Hm).
    exists m, e. repeat split; try assumption; lia.
  - right. destruct (binary_round_small true p ltac:(lia)) as (m & e & H & Hd & He & Hm).
    exists m, e. repeat split; try assumption; lia.
Qed.

Lemma iter_shr_1_zeros (k : nat) (M : positive) :
  Nat.iter k shr_1 (Build_shr_record (Z.pos (Nat.iter k xO M)) false false)
  = Build_shr_record (Z.pos M) false false.
Proof.
  induction k as [|k IH]; [reflexivity|].
  rewrite Nat.iter_succ_r. cbn [Nat.iter shr_1 orb]. exact IH.
Qed.

Lemma iter_pos_shr_1_zeros (d M : positive) :
  SpecFloat.iter_pos shr_1 d
    (Build_shr_record (Z.pos (Pos.iter xO M d)) false false)
  = Build_shr_record (Z.pos M) false false.
Proof.
  rewrite iter_pos_nat, Pos2Nat.inj_iter. exact (iter_shr_1_zeros _ _).
Qed.

Lemma digits2_pos_scaled (K m : positive) (a b : Z) :
  0 <= a -> 0 <= b ->
  Z.pos K * 2 ^ a = Z.pos m * 2 ^ b ->
  Z.pos (digits2_pos K) + a = Z.pos (digits2_pos m) + b.
Proof.
  intros Ha Hb Heq.
  pose proof (digits2_pos_bounds K) as HK.
  pose proof (digits2_pos_bounds m) as Hm.
  set (dK := Z.pos (digits2_pos K)) in *.
  set (dm := Z.pos (digits2_pos m)) in *.
  assert (HdK : 1 <= dK) by (subst dK; lia).
  assert (Hdm : 1 <= dm) by (subst dm; lia).
  assert (Hpa : 0 < 2 ^ a) by (apply Z.pow_pos_nonneg; lia).
  assert (Hpb : 0 < 2 ^ b) by (apply Z.pow_pos_nonneg; lia).
  assert (H1 : 2 ^ (dK - 1 + a) < 2 ^ (dm + b)).
  { rewrite !Z.pow_add_r by lia. nia. }
  assert (H2 : 2 ^ (dm - 1 + b) < 2 ^ (dK + a)).
  { rewrite !Z.pow_add_r by lia. nia. }
  apply Z.pow_lt_mono_r_iff in H1; [|lia|lia].
  apply Z.pow_lt_mono_r_iff in H2; [|lia|lia].
  lia.
Qed.

(** Rounding a value that a canonical double [m * 2^e] holds gives that
    double. *)
Lemma binary_round_exact (s : bool) (K m : positive) (E e : Z) :
  Z.pos (digits2_pos m) = 53 -> -1074 <= e <= 971 ->
  (E <= e /\ Z.pos K = Z.pos m * 2 ^ (e - E))
  \/ (e <= E /\ Z.pos m = Z.pos K * 2 ^ (E - e)) ->
  binary_round 53 1024 s K E = S754_finite s m e.
Proof.
  intros Hd He Hval.
  assert (HdK : Z.pos (digits2_pos K) + E = 53 + e).
  { destruct Hval as [[Hle HK]|[Hle Hm]].
    - pose proof (digits2_pos_scaled K m 0 (e - E) ltac:(lia) ltac:(lia)) as H.
      rewrite Z.pow_0_r, Z.mul_1_r in H. specialize (H HK). lia.
    - pose proof (digits2_pos_scaled K m (E - e) 0 ltac:(lia) ltac:(lia)) as H.
      rewrite Z.pow_0_r, Z.mul_1_r in H. specialize (H (eq_sym Hm)). lia. }
  unfold binary_round, fexp, emin. rewrite HdK.
  replace (Z.max (53 + e - 53) (3 - 1024 - 53)) with e by lia.
  unfold shl_align.
  destruct (e - E) as [|d|d] eqn:Hdiff.
  - assert (E = e) by lia. subst E.
    assert (K = m).
    { destruct Hval as [[_ H]|[_ H]]; rewrite ?Z.sub_diag, ?Z.pow_0_r in H; lia. }
    subst K. now apply binary_round_aux_canonical.
  - (* the value is shifted right by [d] zero bits *)
    destruct Hval as [[_ HK]|[Hle _]]; [|lia].
    assert (HKm : K = Pos.iter xO m d).
    { apply Pos2Z.inj. rewrite HK, iter_xO_value. reflexivity. }
    unfold binary_round_aux, shr_fexp. cbn [Zdigits2 shr_record_of_loc].
    unfold fexp, emin.
    replace (Z.max (Z.pos (digits2_pos K) + E - 53) (3 - 1024 - 53) - E)
      with (Z.pos d) by lia.
    cbn [shr]. rewrite HKm, iter_pos_shr_1_zeros.
    cbn [shr_m loc_of_shr_record round_nearest_even Zdigits2 shr_record_of_loc].
    rewrite Hd.
    replace (Z.max (53 + (E + Z.pos d) - 53) (3 - 1024 - 53) - (E + Z.pos d))
      with 0 by lia.
    cbn [shr shr_m].
    replace (E + Z.pos d) with e by lia.
    destruct (Z.leb_spec e (1024 - 53)); [reflexivity|lia].
  - destruct Hval as [[Hle _]|[_ Hm]]; [lia|].
    replace (E - e) with (Z.pos d) in Hm by lia.
    assert (HKm : Pos.iter xO K d = m).
    { apply Pos2Z.inj. rewrite iter_xO_value. lia. }
    rewrite HKm. now apply binary_round_aux_canonical.
Qed.

Lemma ofZ_pos (p : positive) : JS.ofZ (Z.pos p) = binary_round 53 1024 false p 0.
Proof. reflexivity. Qed.

Lemma ofZ_neg (p : positive) : JS.ofZ (Z.neg p) = binary_round 53 1024 true p 0.
Proof. reflexivity. Qed.

(** The integer [n * 2^j] held with exponent [-j] rounds to the double of
    [n]. *)
Lemma binary_normalize_scaled (n j : Z) :
  - 2 ^ 53 < n < 2 ^ 53 -> 0 <= j <= 52 ->
  binary_normalize 53 1024 (n * 2 ^ j) (- j) false = JS.ofZ n.
Proof.
  intros Hn Hj.
  assert (Hp : 0 < 2 ^ j) by (apply Z.pow_pos_nonneg; lia).
  destruct n as [|p|p].
  - reflexivity.
  - destruct (binary_round_small false p ltac:(lia)) as (m & e & Hr & Hd & He & Hm).
    rewrite ofZ_pos, Hr.
    destruct (Z.pos p * 2 ^ j) as [|K|K] eqn:HK; try lia.
    cbn [binary_normalize]. apply binary_round_exact; [exact Hd|lia|].
    destruct (Z_le_gt_dec (- j) e) as [Hle|Hgt].
    + left. split; [exact Hle|].
      replace j with ((- e) + (e - - j)) in HK by lia.
      rewrite Z.pow_add_r in HK by lia. lia.
    + right. split; [lia|].
      rewrite Hm. replace (- e) with (j + (- j - e)) by lia.
      rewrite Z.pow_add_r by lia. lia.
  - destruct (binary_round_small true p ltac:(lia)) as (m & e & Hr & Hd & He & Hm).
    rewrite ofZ_neg, Hr.
    destruct (Z.neg p * 2 ^ j) as [|K|K] eqn:HK; try lia.
    assert (HK' : Z.pos K = Z.pos p * 2 ^ j) by lia.
    cbn [binary_normalize]. apply binary_round_exact; [exact Hd|lia|].
    destruct (Z_le_gt_dec (- j) e) as [Hle|Hgt].
    + left. split; [exact Hle|].
      replace j with ((- e) + (e - - j)) in HK' by lia.
      rewrite Z.pow_add_r in HK' by lia. lia.
    + right. split; [lia|].
      rewrite Hm. replace (- e) with (j + (- j - e)) by lia.
      rewrite Z.pow_add_r by lia. lia.
Qed.

(** The mantissa of a double of [n], aligned to the exponent [ez]. *)
Lemma shl_align_value (n : Z) (s : bool) (m : positive) (e ez : Z) :
  s = (n <? 0) -> e <= 0 -> Z.pos m = Z.abs n * 2 ^ (- e) -> ez <= e ->
  cond_Zopp s (Z.pos (fst (shl_align m e ez))) = n * 2 ^ (- ez).
Proof.
  intros Hs He Hm Hez. unfold shl_align.
  assert (Hval : Z.pos (fst (match ez - e with
                             | Z.neg d => (Pos.iter xO m d, ez)
                             | _ => (m, e)
                             end)) = Z.abs n * 2 ^ (- ez)).
  { destruct (ez - e) as [|d|d] eqn:Hdiff; try lia.
    - cbn [fst]. replace ez with e by lia. exact Hm.
    - cbn [fst]. rewrite iter_xO_value, Hm.
      replace (- ez) with (- e + Z.pos d) by lia.
      rewrite Z.pow_add_r by lia. lia. }
  rewrite Hval. subst s. unfold cond_Zopp.
  destruct (Z.ltb_spec n 0); lia.
Qed.

(** Binary64 addition is exact on integers as long as operands and sum stay
    below [2^53] in absolute value. *)
Lemma add_exact (a b : Z) :
  - 2 ^ 53 < a < 2 ^ 53 -> - 2 ^ 53 < b < 2 ^ 53 ->
  - 2 ^ 53 < a + b < 2 ^ 53 ->
  JS.add (JS.ofZ a) (JS.ofZ b) = JS.ofZ (a + b).
Proof.
  intros Ha Hb Hab.
  destruct (ofZ_cases a Ha) as [[-> Hza]|(ma & ea & Hfa & Hda & Hea & Hma)];
    destruct (ofZ_cases b Hb) as [[-> Hzb]|(mb & eb & Hfb & Hdb & Heb & Hmb)].
  - reflexivity.
  - rewrite Z.add_0_l, Hfb. reflexivity.
  - rewrite Z.add_0_r, Hfa. reflexivity.
  - rewrite Hfa, Hfb. unfold JS.add. cbn [SFadd].
    set (ez := Z.min ea eb).
    rewrite (shl_align_value a _ ma ea ez eq_refl ltac:(lia) Hma ltac:(subst ez; lia)).
    rewrite (shl_align_value b _ mb eb ez eq_refl ltac:(lia) Hmb ltac:(subst ez; lia)).
    rewrite <- Z.mul_add_distr_r.
    replace ez with (- - ez) at 2 by lia.
    apply binary_normalize_scaled; [exact Hab|subst ez; lia].
Qed.

Lemma floor_ofZ (n : Z) : - 2 ^ 53 < n < 2 ^ 53 -> JS.floor (JS.ofZ n) = n.
Proof.
  intros Hn.
  destruct (ofZ_cases n Hn) as [[-> ->]|(m & e & -> & _ & He & Hm)];
    [reflexivity|].
  rewrite (floor_exact _ m e (Z.abs n)) by (lia || exact Hm).
  destruct (Z.ltb_spec n 0); lia.
Qed.

(** ** JavaScript and calendar facts *)

Lemma or_else_0 x : JS.or_else x 0 = x.
Proof. unfold JS.or_else. destruct (Z.eqb_spec x 0); congruence. Qed.

Lemma or_elseN_0 x : JS.or_elseN x 0 = x.
Proof. unfold JS.or_elseN. destruct (N.eqb_spec x 0); congruence. Qed.

(** One third of 10 points is 3 points. *)
Example counterPoints_one_of_three : counterPoints 1 3 10 = 3.
Proof. vm_compute. reflexivity. Qed.

(** The credit is the floor of the binary64 value, not of the exact
    quotient: [1 / 49 * 49] is [0.9999999999999999] in binary64. *)
Example counterPoints_binary64 : counterPoints 1 49 49 = 0.
Proof. vm_compute. reflexivity. Qed.

(** A quest worth 10 with the default weekly factor 1.5 yields 15. *)
Example questPoints_weekly :
  questPoints 10 (Settings.toNumber (Settings.weeklyFactor DefaultSettings)) = 15.
Proof. vm_compute. reflexivity. Qed.

(** At or east of UTC the weekday the engine derives from a date string is
    the weekday of that date. *)
Lemma weekdayOf_civil tz d :
  0 <= tz < Clock.msPerDay -> Clock.weekdayOf tz d = Clock.civilWeekday d.
Proof.
  intros Htz. unfold Clock.weekdayOf, Clock.civilWeekday, Clock.getDay,
    Clock.todayStr, Clock.parseDateOnly.
  replace ((d * Clock.msPerDay + tz) / Clock.msPerDay) with d; [reflexivity|].
  unfold Clock.msPerDay in *.
  rewrite Z.add_comm, Z.div_add by lia. rewrite Z.div_small by lia. lia.
Qed.

(** West of UTC, [new Date('YYYY-MM-DD')] (UTC midnight) still falls on the
    previous local day, and [getDay()] answers for that day. *)
Lemma weekdayOf_west tz d :
  - Clock.msPerDay <= tz < 0 -> Clock.weekdayOf tz d = Clock.civilWeekday (d - 1).
Proof.
  intros Htz. unfold Clock.weekdayOf, Clock.civilWeekday, Clock.getDay,
    Clock.todayStr, Clock.parseDateOnly.
  replace ((d * Clock.msPerDay + tz) / Clock.msPerDay) with (d - 1); [reflexivity|].
  unfold Clock.msPerDay in *.
  replace (d * 86400000 + tz) with ((tz + 86400000) + (d - 1) * 86400000) by lia.
  rewrite Z.div_add by lia. rewrite Z.div_small by lia. lia.
Qed.

(** [randomSample] draws valid indices from any source of doubles in
    [0, 1), as long as the array is one JavaScript can hold. *)
Lemma randomSource_randomOk env bound :
  randomSource env -> bound < 2 ^ 53 -> randomOk env bound.
Proof.
  intros Hsrc Hb c n Hn. unfold randomBelow.
  apply floor_random_times_in_range; [apply Hsrc|lia].
Qed.

Lemma randomOk_mono env b b' : b' <= b -> randomOk env b -> randomOk env b'.
Proof. intros Hb H c n Hn. apply H. lia. Qed.

Lemma zoneEnv_randomSource tz : randomSource (zoneEnv tz).
Proof. intros c. vm_compute. reflexivity. Qed.

(** ** The scoring loops *)

Section Folds.
Context {A B : Type} (f : A -> B -> A).

Lemma foldl_skip (l1 l2 : list B) (x : B) (a : A) :
  (forall t, f t x = t) ->
  foldl f a (l1 ++ x :: l2) = foldl f a (l1 ++ l2).
Proof. intros Hx. rewrite !foldl_app. simpl. now rewrite Hx. Qed.
End Folds.

Lemma computeDayTotals_eq env s d :
  computeDayTotals env s d =
  {| DaySummary.date := d;
     DaySummary.totalPoints := dayTotal env s d;
     DaySummary.goalMet :=
       Z.of_N (JS.or_elseN (Settings.dailyGoal (settings s)) 0) <=? dayTotal env s d |}.
Proof. reflexivity. Qed.

Lemma dayTotal_unfold env s d :
  dayTotal env s d =
  JS.floor
    (foldl (questStep env s d)
       (foldl (eventStep env d)
          (foldl (habitStep s (Clock.weekdayOf (utcOffset env) d))
             (foldl (taskStep env d) JS.zero (tasks s)) (logsOf s d))
          (events s))
       (assignedQuests s)).
Proof. reflexivity. Qed.

Lemma computeDayTotals_ext env s s' d :
  settings s' = settings s ->
  dayTotal env s' d = dayTotal env s d ->
  computeDayTotals env s' d = computeDayTotals env s d.
Proof. intros Hs Ht. rewrite !computeDayTotals_eq, Hs, Ht. reflexivity. Qed.

(** An item that its loop passes over can be removed: the total is the
    same. *)
Lemma dayTotal_task_skip env s d l1 t l2 :
  tasks s = l1 ++ t :: l2 ->
  (forall a, taskStep env d a t = a) ->
  dayTotal env s d = dayTotal env (set_tasks (l1 ++ l2) s) d.
Proof.
  intros Ht Hc. rewrite !dayTotal_unfold. simpl. rewrite Ht.
  change (logsOf (set_tasks (l1 ++ l2) s) d) with (logsOf s d).
  change (questStep env (set_tasks (l1 ++ l2) s) d) with (questStep env s d).
  change (habitStep (set_tasks (l1 ++ l2) s)) with (habitStep s).
  now rewrite (foldl_skip _ l1 l2 t _ Hc).
Qed.

Lemma logsOf_split s d l1 lg l2 :
  habitLogs s = l1 ++ lg :: l2 ->
  HabitLog.date lg = d ->
  logsOf s d = filter (fun l => HabitLog.date l = d) l1
               ++ lg :: filter (fun l => HabitLog.date l = d) l2.
Proof.
  intros Hl Hd. unfold logsOf. rewrite Hl, filter_app, filter_cons.
  destruct (decide (HabitLog.date lg = d)); [reflexivity|contradiction].
Qed.

Lemma logsOf_other s d l1 lg l2 :
  habitLogs s = l1 ++ lg :: l2 ->
  HabitLog.date lg <> d ->
  logsOf s d = filter (fun l => HabitLog.date l = d) (l1 ++ l2).
Proof.
  intros Hl Hd. unfold logsOf. rewrite Hl, !filter_app, filter_cons.
  destruct (decide (HabitLog.date lg = d)); [contradiction|reflexivity].
Qed.

Lemma dayTotal_log_skip env s d l1 lg l2 :
  habitLogs s = l1 ++ lg :: l2 ->
  HabitLog.date lg = d ->
  (forall a, habitStep s (Clock.weekdayOf (utcOffset env) d) a lg = a) ->
  dayTotal env s d = dayTotal env (set_habitLogs (l1 ++ l2) s) d.
Proof.
  intros Hl Hd Hc. rewrite !dayTotal_unfold. simpl.
  rewrite (logsOf_split s d l1 lg l2 Hl Hd).
  change (logsOf (set_habitLogs (l1 ++ l2) s) d)
    with (filter (fun l => HabitLog.date l = d) (l1 ++ l2)).
  rewrite filter_app.
  change (questStep env (set_habitLogs (l1 ++ l2) s) d) with (questStep env s d).
  change (habitStep (set_habitLogs (l1 ++ l2) s)) with (habitStep s).
  now rewrite (foldl_skip _ _ _ lg _ Hc).
Qed.

Lemma dayTotal_log_other env s d l1 lg l2 :
  habitLogs s = l1 ++ lg :: l2 ->
  HabitLog.date lg <> d ->
  dayTotal env s d = dayTotal env (set_habitLogs (l1 ++ l2) s) d.
Proof.
  intros Hl Hd. rewrite !dayTotal_unfold. simpl.
  change (logsOf (set_habitLogs (l1 ++ l2) s) d)
    with (filter (fun l => HabitLog.date l = d) (l1 ++ l2)).
  now rewrite (logsOf_other s d l1 lg l2 Hl Hd).
Qed.

Lemma dayTotal_quest_skip env s d l1 aq l2 :
  assignedQuests s = l1 ++ aq :: l2 ->
  (forall a, questStep env s d a aq = a) ->
  dayTotal env s d = dayTotal env (set_assignedQuests (l1 ++ l2) s) d.
Proof.
  intros Hl Hc. rewrite !dayTotal_unfold. simpl. rewrite Hl.
  change (logsOf (set_assignedQuests (l1 ++ l2) s) d) with (logsOf s d).
  change (questStep env (set_assignedQuests (l1 ++ l2) s) d) with (questStep env s d).
  change (habitStep (set_assignedQuests (l1 ++ l2) s)) with (habitStep s).
  now rewrite (foldl_skip _ l1 l2 aq _ Hc).
Qed.

Lemma taskStep_overdue env d a t comp due :
  Task.completedAt t = Some comp ->
  Task.dueDate t = Some due ->
  due < comp ->
  taskStep env d a t = a.
Proof.
  intros Hc Hd Hlt. unfold taskStep. rewrite Hc, Hd.
  destruct (inDay env d comp); [|reflexivity].
  destruct (Z.leb_spec comp due); [lia|reflexivity].
Qed.

Lemma habitStep_dangling s w a lg :
  findHabit s (HabitLog.habitId lg) = None -> habitStep s w a lg = a.
Proof. intros Hf. unfold habitStep. now rewrite Hf. Qed.

Lemma questStep_dangling env s d a aq :
  findQuest s (AssignedQuest.libraryId aq) = None -> questStep env s d a aq = a.
Proof.
  intros Hf. unfold questStep. rewrite Hf.
  destruct (AssignedQuest.completedAt aq); [|reflexivity].
  now destruct (inDay env d z).
Qed.

Lemma counterPoints_coded count target points :
  counterPoints count target points
  = counterCredit (targetAsCoded target) count points.
Proof.
  unfold counterPoints, counterCredit, targetAsCoded. rewrite !or_else_0.
  reflexivity.
Qed.

(** A negative stored target is not replaced: the count is clamped to 0,
    the quotient is a zero and the log earns nothing, whatever its count and
    the habit's points. *)
Lemma counterPoints_negative_target count target points :
  target < 0 -> counterPoints count target points = 0.
Proof.
  intros Ht. unfold counterPoints.
  assert (Hor : JS.or_else target 1 = target).
  { unfold JS.or_else. destruct (Z.eqb_spec target 0); [lia|reflexivity]. }
  rewrite Hor.
  assert (Hc : JS.clamp (JS.or_else count 0) 0 target = 0)
    by (unfold JS.clamp; lia).
  rewrite Hc. change (JS.ofZ 0) with (S754_zero false).
  unfold JS.div, JS.mul.
  destruct (JS.ofZ target) as [s|s| |s m e]; cbn [SFdiv];
    destruct (JS.ofZ (JS.or_else points 0)) as [s'|s'| |s' m' e'];
    reflexivity.
Qed.

Lemma targetAsCoded_nonzero target : targetAsCoded target <> 0.
Proof. unfold targetAsCoded. destruct (Z.eqb_spec target 0); lia. Qed.

Lemma habitStep_counter s w a lg h :
  findHabit s (HabitLog.habitId lg) = Some h ->
  Habit.type h = "counter"%string ->
  scheduledOn w h = true ->
  habitStep s w a lg
  = addPoints a
      (counterPoints (HabitLog.count lg) (Habit.target h) (Habit.points h)).
Proof.
  intros Hf Ht Hs. unfold habitStep. rewrite Hf, Hs, Ht. reflexivity.
Qed.

(** *** The loops in exact arithmetic *)

Section FoldsZ.
Context {B : Type} (f : Z -> B -> Z).
Hypothesis f_shift : forall t k y, f (t + k) y = f t y + k.

Lemma foldl_shift (l : list B) (a k : Z) :
  foldl f (a + k) l = foldl f a l + k.
Proof.
  revert a. induction l as [|y l IH]; intros a; simpl; [reflexivity|].
  now rewrite f_shift, IH.
Qed.

Lemma foldl_adds (l1 l2 : list B) (x : B) (a c : Z) :
  (forall t, f t x = t + c) ->
  foldl f a (l1 ++ x :: l2) = foldl f a (l1 ++ l2) + c.
Proof.
  intros Hx. rewrite !foldl_app. simpl. rewrite Hx. apply foldl_shift.
Qed.
End FoldsZ.

Lemma taskStepZ_shift env d t k y :
  taskStepZ env d (t + k) y = taskStepZ env d t y + k.
Proof.
  unfold taskStepZ. destruct (Task.completedAt y); [|reflexivity].
  destruct (inDay env d z); [|reflexivity].
  destruct (Task.dueDate y); [destruct (_ <=? _)|]; lia.
Qed.

Lemma habitStepZ_shift s w t k y :
  habitStepZ s w (t + k) y = habitStepZ s w t y + k.
Proof.
  unfold habitStepZ. destruct (findHabit s _); [|reflexivity].
  destruct (negb _); lia.
Qed.

Lemma eventStepZ_shift env d t k y :
  eventStepZ env d (t + k) y = eventStepZ env d t y + k.
Proof.
  unfold eventStepZ. destruct (negb _); [reflexivity|].
  destruct (Event.completedAt y); [|reflexivity].
  destruct (inDay env d z); lia.
Qed.

Lemma questStepZ_shift env s d t k y :
  questStepZ env s d (t + k) y = questStepZ env s d t y + k.
Proof.
  unfold questStepZ. destruct (AssignedQuest.completedAt y); [|reflexivity].
  destruct (inDay env d z); [|reflexivity].
  destruct (findQuest s _); lia.
Qed.

Lemma exactTotal_unfold env s d :
  exactTotal env s d =
  foldl (questStepZ env s d)
    (foldl (eventStepZ env d)
       (foldl (habitStepZ s (Clock.weekdayOf (utcOffset env) d))
          (foldl (taskStepZ env d) 0 (tasks s)) (logsOf s d))
       (events s))
    (assignedQuests s).
Proof. reflexivity. Qed.

(** Removing a task whose loop step adds [c] lowers the exact total by
    [c]; the same for a habit log of the day and for an assigned quest. *)
Lemma exactTotal_task env s d l1 t l2 c :
  tasks s = l1 ++ t :: l2 ->
  (forall a, taskStepZ env d a t = a + c) ->
  exactTotal env s d = exactTotal env (set_tasks (l1 ++ l2) s) d + c.
Proof.
  intros Ht Hc. rewrite !exactTotal_unfold. simpl. rewrite Ht.
  change (logsOf (set_tasks (l1 ++ l2) s) d) with (logsOf s d).
  change (questStepZ env (set_tasks (l1 ++ l2) s) d) with (questStepZ env s d).
  change (habitStepZ (set_tasks (l1 ++ l2) s)) with (habitStepZ s).
  rewrite (foldl_adds _ (taskStepZ_shift env d) l1 l2 t 0 c Hc).
  rewrite (foldl_shift _ (habitStepZ_shift s _)).
  rewrite (foldl_shift _ (eventStepZ_shift env d)).
  rewrite (foldl_shift _ (questStepZ_shift env s d)).
  reflexivity.
Qed.

Lemma exactTotal_log env s d l1 lg l2 c :
  habitLogs s = l1 ++ lg :: l2 ->
  HabitLog.date lg = d ->
  (forall a, habitStepZ s (Clock.weekdayOf (utcOffset env) d) a lg = a + c) ->
  exactTotal env s d = exactTotal env (set_habitLogs (l1 ++ l2) s) d + c.
Proof.
  intros Hl Hd Hc. rewrite !exactTotal_unfold. simpl.
  rewrite (logsOf_split s d l1 lg l2 Hl Hd).
  change (logsOf (set_habitLogs (l1 ++ l2) s) d)
    with (filter (fun l => HabitLog.date l = d) (l1 ++ l2)).
  rewrite filter_app.
  change (questStepZ env (set_habitLogs (l1 ++ l2) s) d) with (questStepZ env s d).
  change (habitStepZ (set_habitLogs (l1 ++ l2) s)) with (habitStepZ s).
  rewrite (foldl_adds _ (habitStepZ_shift s _) _ _ lg _ c Hc).
  rewrite (foldl_shift _ (eventStepZ_shift env d)).
  rewrite (foldl_shift _ (questStepZ_shift env s d)).
  reflexivity.
Qed.

Lemma exactTotal_log_other env s d l1 lg l2 :
  habitLogs s = l1 ++ lg :: l2 ->
  HabitLog.date lg <> d ->
  exactTotal env s d = exactTotal env (set_habitLogs (l1 ++ l2) s) d.
Proof.
  intros Hl Hd. rewrite !exactTotal_unfold. simpl.
  change (logsOf (set_habitLogs (l1 ++ l2) s) d)
    with (filter (fun l => HabitLog.date l = d) (l1 ++ l2)).
  now rewrite (logsOf_other s d l1 lg l2 Hl Hd).
Qed.

Lemma exactTotal_quest env s d l1 aq l2 c :
  assignedQuests s = l1 ++ aq :: l2 ->
  (forall a, questStepZ env s d a aq = a + c) ->
  exactTotal env s d = exactTotal env (set_assignedQuests (l1 ++ l2) s) d + c.
Proof.
  intros Hl Hc. rewrite !exactTotal_unfold. simpl. rewrite Hl.
  change (logsOf (set_assignedQuests (l1 ++ l2) s) d) with (logsOf s d).
  change (questStepZ env (set_assignedQuests (l1 ++ l2) s) d)
    with (questStepZ env s d).
  change (habitStepZ (set_assignedQuests (l1 ++ l2) s)) with (habitStepZ s).
  apply (foldl_adds _ (questStepZ_shift env s d)). exact Hc.
Qed.

Lemma habitStepZ_counter s w a lg h :
  findHabit s (HabitLog.habitId lg) = Some h ->
  Habit.type h = "counter"%string ->
  scheduledOn w h = true ->
  habitStepZ s w a lg
  = a + counterPoints (HabitLog.count lg) (Habit.target h) (Habit.points h).
Proof.
  intros Hf Ht Hs. unfold habitStepZ. rewrite Hf, Hs, Ht. reflexivity.
Qed.

(** The loops in exact arithmetic take the steps of the binary64 loops:
    each step leaves the running total as it is, where its credit is 0, or
    adds its credit with [total += pts]. *)
Lemma taskStep_adds env d a t :
  (taskStep env d a t = a /\ taskStepZ env d 0 t = 0)
  \/ taskStep env d a t = addPoints a (taskStepZ env d 0 t).
Proof.
  unfold taskStep, taskStepZ. destruct (Task.completedAt t); [|now left].
  destruct (inDay env d z); [|now left].
  destruct (Task.dueDate t); [destruct (_ <=? _); [|now left]|]; now right.
Qed.

Lemma habitStep_adds s w a lg :
  (habitStep s w a lg = a /\ habitStepZ s w 0 lg = 0)
  \/ habitStep s w a lg = addPoints a (habitStepZ s w 0 lg).
Proof.
  unfold habitStep, habitStepZ. destruct (findHabit s _); [|now left].
  destruct (negb _); [now left|now right].
Qed.

Lemma eventStep_adds env d a ev :
  (eventStep env d a ev = a /\ eventStepZ env d 0 ev = 0)
  \/ eventStep env d a ev = addPoints a (eventStepZ env d 0 ev).
Proof.
  unfold eventStep, eventStepZ. destruct (negb _); [now left|].
  destruct (Event.completedAt ev); [|now left].
  destruct (inDay env d z); [now right|now left].
Qed.

Lemma questStep_adds env s d a aq :
  (questStep env s d a aq = a /\ questStepZ env s d 0 aq = 0)
  \/ questStep env s d a aq = addPoints a (questStepZ env s d 0 aq).
Proof.
  unfold questStep, questStepZ.
  destruct (AssignedQuest.completedAt aq); [|now left].
  destruct (inDay env d z); [|now left].
  destruct (findQuest s _); [now right|now left].
Qed.

(** *** Days on which no sum is rounded *)

Lemma sumZ_app l1 l2 : sumZ (l1 ++ l2) = sumZ l1 + sumZ l2.
Proof. unfold sumZ. induction l1 as [|x l1 IH]; simpl; lia. Qed.

Lemma sumZ_abs_nonneg {B} (g : B -> Z) (l : list B) :
  0 <= sumZ ((fun y => Z.abs (g y)) <$> l).
Proof. induction l as [|y l IH]; cbn; [lia|]. fold (sumZ ((fun y => Z.abs (g y)) <$> l)). lia. Qed.

Lemma addPoints_exact (m c : Z) :
  Z.abs m + Z.abs c < 2 ^ 53 -> addPoints (JS.ofZ m) c = JS.ofZ (m + c).
Proof. intros H. unfold addPoints. apply add_exact; lia. Qed.

Section Exact.
Context {B : Type} (f : JS.number -> B -> JS.number) (g : Z -> B -> Z).
Hypothesis g_shift : forall t k y, g (t + k) y = g t y + k.
Hypothesis f_exact :
  forall m y, Z.abs m + Z.abs (g 0 y) < 2 ^ 53 -> f (JS.ofZ m) y = JS.ofZ (g m y).

Lemma step_from_0 (m : Z) (y : B) : g m y = g 0 y + m.
Proof. rewrite <- g_shift. reflexivity. Qed.

Lemma foldl_bound (l : list B) (m : Z) :
  Z.abs (foldl g m l) <= Z.abs m + sumZ ((fun y => Z.abs (g 0 y)) <$> l).
Proof.
  revert m. induction l as [|y l IH]; intros m; cbn; [lia|].
  fold (sumZ ((fun y => Z.abs (g 0 y)) <$> l)).
  specialize (IH (g m y)). rewrite (step_from_0 m y) in IH |- *. lia.
Qed.

Lemma foldl_exact (l : list B) (m : Z) :
  Z.abs m + sumZ ((fun y => Z.abs (g 0 y)) <$> l) < 2 ^ 53 ->
  foldl f (JS.ofZ m) l = JS.ofZ (foldl g m l).
Proof.
  revert m. induction l as [|y l IH]; intros m; cbn; [reflexivity|].
  fold (sumZ ((fun y => Z.abs (g 0 y)) <$> l)). intros H.
  pose proof (sumZ_abs_nonneg (g 0) l) as Hpos.
  rewrite f_exact by lia. apply IH.
  rewrite (step_from_0 m y). lia.
Qed.
End Exact.

Lemma taskStep_exact env d m t :
  Z.abs m + Z.abs (taskStepZ env d 0 t) < 2 ^ 53 ->
  taskStep env d (JS.ofZ m) t = JS.ofZ (taskStepZ env d m t).
Proof.
  unfold taskStep, taskStepZ. destruct (Task.completedAt t); [|reflexivity].
  destruct (inDay env d z); [|reflexivity].
  destruct (Task.dueDate t); [destruct (_ <=? _); [|reflexivity]|];
    intros H; apply addPoints_exact; lia.
Qed.

Lemma habitStep_exact s w m lg :
  Z.abs m + Z.abs (habitStepZ s w 0 lg) < 2 ^ 53 ->
  habitStep s w (JS.ofZ m) lg = JS.ofZ (habitStepZ s w m lg).
Proof.
  unfold habitStep, habitStepZ. destruct (findHabit s _); [|reflexivity].
  destruct (negb _); [reflexivity|].
  intros H; apply addPoints_exact; lia.
Qed.

Lemma eventStep_exact env d m ev :
  Z.abs m + Z.abs (eventStepZ env d 0 ev) < 2 ^ 53 ->
  eventStep env d (JS.ofZ m) ev = JS.ofZ (eventStepZ env d m ev).
Proof.
  unfold eventStep, eventStepZ. destruct (negb _); [reflexivity|].
  destruct (Event.completedAt ev); [|reflexivity].
  destruct (inDay env d z); [|reflexivity].
  intros H; apply addPoints_exact; lia.
Qed.

Lemma questStep_exact env s d m aq :
  Z.abs m + Z.abs (questStepZ env s d 0 aq) < 2 ^ 53 ->
  questStep env s d (JS.ofZ m) aq = JS.ofZ (questStepZ env s d m aq).
Proof.
  unfold questStep, questStepZ.
  destruct (AssignedQuest.completedAt aq); [|reflexivity].
  destruct (inDay env d z); [|reflexivity].
  destruct (findQuest s _); [|reflexivity].
  intros H; apply addPoints_exact; lia.
Qed.

Lemma absTotal_unfold env s d :
  absTotal env s d
  = sumZ ((fun t => Z.abs (taskStepZ env d 0 t)) <$> tasks s)
    + sumZ ((fun lg => Z.abs (habitStepZ s (Clock.weekdayOf (utcOffset env) d) 0 lg))
              <$> logsOf s d)
    + sumZ ((fun ev => Z.abs (eventStepZ env d 0 ev)) <$> events s)
    + sumZ ((fun aq => Z.abs (questStepZ env s d 0 aq)) <$> assignedQuests s).
Proof.
  unfold absTotal, dayCredits.
  rewrite !fmap_app, !sumZ_app, <- !list_fmap_compose. unfold compose. lia.
Qed.

(** On an exact day [computeDayTotals] gives the exact total. *)
Lemma dayTotal_exact env s d :
  exactDay env s d -> dayTotal env s d = exactTotal env s d.
Proof.
  unfold exactDay. rewrite absTotal_unfold, dayTotal_unfold, exactTotal_unfold.
  set (w := Clock.weekdayOf (utcOffset env) d).
  pose proof (sumZ_abs_nonneg (taskStepZ env d 0) (tasks s)) as H1.
  pose proof (sumZ_abs_nonneg (habitStepZ s w 0) (logsOf s d)) as H2.
  pose proof (sumZ_abs_nonneg (eventStepZ env d 0) (events s)) as H3.
  pose proof (sumZ_abs_nonneg (questStepZ env s d 0) (assignedQuests s)) as H4.
  pose proof (foldl_bound _ (taskStepZ_shift env d) (tasks s) 0) as B1.
  set (T1 := foldl (taskStepZ env d) 0 (tasks s)) in *.
  pose proof (foldl_bound _ (habitStepZ_shift s w) (logsOf s d) T1) as B2.
  set (T2 := foldl (habitStepZ s w) T1 (logsOf s d)) in *.
  pose proof (foldl_bound _ (eventStepZ_shift env d) (events s) T2) as B3.
  set (T3 := foldl (eventStepZ env d) T2 (events s)) in *.
  pose proof (foldl_bound _ (questStepZ_shift env s d) (assignedQuests s) T3) as B4.
  set (T4 := foldl (questStepZ env s d) T3 (assignedQuests s)) in *.
  intros Hex.
  change JS.zero with (JS.ofZ 0).
  rewrite (foldl_exact _ _ (taskStepZ_shift env d) (taskStep_exact env d))
    by (fold T1; lia).
  fold T1.
  rewrite (foldl_exact _ _ (habitStepZ_shift s w) (habitStep_exact s w))
    by (fold T2; lia).
  fold T2.
  rewrite (foldl_exact _ _ (eventStepZ_shift env d) (eventStep_exact env d))
    by (fold T3; lia).
  fold T3.
  rewrite (foldl_exact _ _ (questStepZ_shift env s d) (questStep_exact env s d))
    by (fold T4; lia).
  fold T4. apply floor_ofZ. lia.
Qed.

(** Removing an item lowers the sum of the absolute credits by the
    absolute value of its credit: a day that is exact stays exact without
    the item. *)
Lemma sumZ_cons x l : sumZ (x :: l) = x + sumZ l.
Proof. reflexivity. Qed.

Lemma absTotal_task env s d l1 t l2 :
  tasks s = l1 ++ t :: l2 ->
  absTotal env s d
  = absTotal env (set_tasks (l1 ++ l2) s) d + Z.abs (taskStepZ env d 0 t).
Proof.
  intros Ht. rewrite !absTotal_unfold. simpl. rewrite Ht.
  change (logsOf (set_tasks (l1 ++ l2) s) d) with (logsOf s d).
  change (questStepZ env (set_tasks (l1 ++ l2) s) d) with (questStepZ env s d).
  change (habitStepZ (set_tasks (l1 ++ l2) s)) with (habitStepZ s).
  rewrite !fmap_app, !sumZ_app, fmap_cons, sumZ_cons. lia.
Qed.

Lemma absTotal_log env s d l1 lg l2 :
  habitLogs s = l1 ++ lg :: l2 ->
  HabitLog.date lg = d ->
  absTotal env s d
  = absTotal env (set_habitLogs (l1 ++ l2) s) d
    + Z.abs (habitStepZ s (Clock.weekdayOf (utcOffset env) d) 0 lg).
Proof.
  intros Hl Hd. rewrite !absTotal_unfold. simpl.
  rewrite (logsOf_split s d l1 lg l2 Hl Hd).
  change (logsOf (set_habitLogs (l1 ++ l2) s) d)
    with (filter (fun l => HabitLog.date l = d) (l1 ++ l2)).
  rewrite filter_app.
  change (questStepZ env (set_habitLogs (l1 ++ l2) s) d) with (questStepZ env s d).
  change (habitStepZ (set_habitLogs (l1 ++ l2) s)) with (habitStepZ s).
  rewrite !fmap_app, !sumZ_app, fmap_cons, sumZ_cons. lia.
Qed.

Lemma absTotal_log_other env s d l1 lg l2 :
  habitLogs s = l1 ++ lg :: l2 ->
  HabitLog.date lg <> d ->
  absTotal env s d = absTotal env (set_habitLogs (l1 ++ l2) s) d.
Proof.
  intros Hl Hd. rewrite !absTotal_unfold. simpl.
  change (logsOf (set_habitLogs (l1 ++ l2) s) d)
    with (filter (fun l => HabitLog.date l = d) (l1 ++ l2)).
  now rewrite (logsOf_other s d l1 lg l2 Hl Hd).
Qed.

Lemma absTotal_quest env s d l1 aq l2 :
  assignedQuests s = l1 ++ aq :: l2 ->
  absTotal env s d
  = absTotal env (set_assignedQuests (l1 ++ l2) s) d
    + Z.abs (questStepZ env s d 0 aq).
Proof.
  intros Hl. rewrite !absTotal_unfold. simpl. rewrite Hl.
  change (logsOf (set_assignedQuests (l1 ++ l2) s) d) with (logsOf s d).
  change (questStepZ env (set_assignedQuests (l1 ++ l2) s) d)
    with (questStepZ env s d).
  change (habitStepZ (set_assignedQuests (l1 ++ l2) s)) with (habitStepZ s).
  rewrite !fmap_app, !sumZ_app, fmap_cons, sumZ_cons. lia.
Qed.

Lemma exactDay_without_log env s d l1 lg l2 :
  habitLogs s = l1 ++ lg :: l2 ->
  exactDay env s d -> exactDay env (set_habitLogs (l1 ++ l2) s) d.
Proof.
  unfold exactDay. intros Hl Hex.
  destruct (decide (HabitLog.date lg = d)) as [Hd|Hd].
  - rewrite (absTotal_log env s d l1 lg l2 Hl Hd) in Hex. lia.
  - now rewrite <- (absTotal_log_other env s d l1 lg l2 Hl Hd).
Qed.

(** The same credit in every zone, on the weekday the engine derives. *)
Lemma counter_log_credit env s d l1 lg l2 h :
  habitLogs s = l1 ++ lg :: l2 ->
  HabitLog.date lg = d ->
  findHabit s (HabitLog.habitId lg) = Some h ->
  Habit.type h = "counter"%string ->
  scheduledOn (Clock.weekdayOf (utcOffset env) d) h = true ->
  exactTotal env s d
  = exactTotal env (set_habitLogs (l1 ++ l2) s) d
    + counterCredit (targetAsCoded (Habit.target h)) (HabitLog.count lg)
        (Habit.points h).
Proof.
  intros Hl Hd Hf Ht Hs. rewrite <- counterPoints_coded.
  apply (exactTotal_log env s d l1 lg l2); [assumption..|].
  intros a. now apply habitStepZ_counter.
Qed.

(** ** Scoring engine: the claims *)

(** C3, as the code has it.  In a time zone at or east of UTC, a counter
    habit's log dated [d], whose habit still exists and is scheduled on the
    weekday of [d], adds exactly
    [floor(clamp(count, 0, T) / T * points)] to the running total of
    [computeDayTotals(d)], where [T] is 1 when the stored target is 0 and
    the stored target otherwise, so that [T] is never 0; with target 3,
    points 10 and count 1 the log adds 3.  The quotient, the product and
    the addition [total += pts] are binary64 operations: the day's total is
    the total without the log plus the credit on every day whose points
    stay below 2^53. *)
Theorem counter_habit_partial_credit :
  counterCreditLaw eastOfUTC targetAsCoded
  /\ counterCredit (targetAsCoded 3) 1 10 = 3.
Proof.
  split; [|vm_compute; reflexivity].
  intros env s d l1 lg l2 h Hz Hl Hd Hf Ht Hs.
  assert (Hs' : scheduledOn (Clock.weekdayOf (utcOffset env) d) h = true)
    by now rewrite (weekdayOf_civil _ _ Hz).
  split; [apply targetAsCoded_nonzero|split].
  - intros total. rewrite <- counterPoints_coded.
    now apply habitStep_counter.
  - intros Hex.
    rewrite (dayTotal_exact _ _ _ Hex),
      (dayTotal_exact _ _ _ (exactDay_without_log _ _ _ _ _ _ Hl Hex)).
    now apply counter_log_credit.
Qed.

Lemma counter_habit_partial_credit_witness :
  habitStep (thursdayState "counter" 3 1) "Thu" (JS.ofZ 200) (thursdayLog 1)
  = JS.ofZ 203
  /\ dayTotal (zoneEnv 0) (thursdayState "counter" 3 1) 0
     = dayTotal (zoneEnv 0) (set_habitLogs [] (thursdayState "counter" 3 1)) 0 + 3.
Proof.
  assert (Hz : eastOfUTC (utcOffset (zoneEnv 0)))
    by (unfold eastOfUTC, Clock.msPerDay; simpl; lia).
  pose proof (proj1 counter_habit_partial_credit (zoneEnv 0)
                (thursdayState "counter" 3 1) 0 [] (thursdayLog 1) []
                (thursdayHabit "counter" 3) Hz eq_refl eq_refl eq_refl
                eq_refl eq_refl) as [_ [Hstep Htotal]].
  split.
  - exact (Hstep (JS.ofZ 200)).
  - apply Htotal. vm_compute. reflexivity.
Defined.

(** C3 as the specification states it fails: a stored target of -3 is not
    read as 1.  With count 1 and 10 points the claim promises 10 points, the
    code clamps the count to 0, divides by -3 and adds nothing. *)
Lemma counter_habit_credit_not_as_claimed :
  ~ counterCreditLaw anyZone targetAsClaimed.
Proof.
  intros Hlaw.
  destruct (Hlaw (zoneEnv 0) (thursdayState "counter" (-3) 1) 0 []
              (thursdayLog 1) [] (thursdayHabit "counter" (-3))
              I eq_refl eq_refl eq_refl eq_refl eq_refl) as [_ [Hstep _]].
  specialize (Hstep JS.zero). vm_compute in Hstep. discriminate.
Qed.

(** Neither amendment of C3 can be dropped: reading only a stored 0 as 1
    does not hold west of UTC, where the engine looks at the weekday of the
    day before, and the zone alone does not repair the negative target. *)
Lemma counter_habit_credit_needs_both :
  ~ counterCreditLaw anyZone targetAsCoded
  /\ ~ counterCreditLaw eastOfUTC targetAsClaimed.
Proof.
  split; intros Hlaw.
  - destruct (Hlaw (zoneEnv (-5 * hourMs)) (thursdayState "counter" 3 1) 0 []
                (thursdayLog 1) [] (thursdayHabit "counter" 3)
                I eq_refl eq_refl eq_refl eq_refl eq_refl) as [_ [Hstep _]].
    specialize (Hstep JS.zero). vm_compute in Hstep. discriminate.
  - assert (Hz : eastOfUTC (utcOffset (zoneEnv 0)))
      by (unfold eastOfUTC, Clock.msPerDay; simpl; lia).
    destruct (Hlaw (zoneEnv 0) (thursdayState "counter" (-3) 1) 0 []
                (thursdayLog 1) [] (thursdayHabit "counter" (-3))
                Hz eq_refl eq_refl eq_refl eq_refl eq_refl) as [_ [Hstep _]].
    specialize (Hstep JS.zero). vm_compute in Hstep. discriminate.
Qed.

(** The addition [total += pts] rounds from 2^53 on: next to a task worth
    2^53 the same log, worth 3, moves the day's total by 4. *)
Lemma counter_credit_is_rounded_into_the_total :
  dayTotal (zoneEnv 0) (hugeTaskState (2 ^ 53)) 0
  = dayTotal (zoneEnv 0) (set_habitLogs [] (hugeTaskState (2 ^ 53))) 0 + 4
  /\ ~ exactDay (zoneEnv 0) (hugeTaskState (2 ^ 53)) 0.
Proof.
  split; [vm_compute; reflexivity|].
  unfold exactDay. vm_compute. discriminate.
Qed.

(** C4.  A task completed strictly after its due instant adds nothing to
    [computeDayTotals], for any date and whatever its points: the summary is
    the one computed without the task.  With a daily goal of 50 and, as the
    only item, a task worth 60 due today at 18:00 and completed today at
    20:00, [computeDayTotals(today)] is [{totalPoints: 0, goalMet: false}]. *)
Theorem overdue_task_scores_zero :
  (forall env s d l1 t l2 comp due,
      tasks s = l1 ++ t :: l2 ->
      Task.completedAt t = Some comp ->
      Task.dueDate t = Some due ->
      due < comp ->
      computeDayTotals env s d = computeDayTotals env (set_tasks (l1 ++ l2) s) d)
  /\ (forall env today st m,
         Settings.dailyGoal st = 50%N ->
         computeDayTotals env (lateTaskState env today st m) today
         = {| DaySummary.date := today;
              DaySummary.totalPoints := 0;
              DaySummary.goalMet := false |}).
Proof.
  split.
  - intros env s d l1 t l2 comp due Ht Hc Hd Hlt.
    symmetry. apply computeDayTotals_ext; [reflexivity|].
    symmetry. apply (dayTotal_task_skip env s d l1 t l2 Ht).
    intros a. apply (taskStep_overdue env d a t comp due Hc Hd Hlt).
  - intros env today st m Hg.
    rewrite computeDayTotals_eq.
    assert (Ht : dayTotal env (lateTaskState env today st m) today = 0).
    { rewrite dayTotal_unfold. simpl.
      rewrite (taskStep_overdue env today JS.zero (lateTask env today) _ _
                 eq_refl eq_refl);
        [reflexivity|]. unfold hourMs. lia. }
    rewrite Ht. simpl. rewrite Hg. reflexivity.
Qed.

Lemma overdue_task_scores_zero_witness :
  computeDayTotals (zoneEnv 0) (lateTaskState (zoneEnv 0) 19000 goal50 DefaultMeta) 19000
  = computeDayTotals (zoneEnv 0)
      (set_tasks [] (lateTaskState (zoneEnv 0) 19000 goal50 DefaultMeta)) 19000
  /\ computeDayTotals (zoneEnv 0) (lateTaskState (zoneEnv 0) 19000 goal50 DefaultMeta) 19000
     = {| DaySummary.date := 19000;
          DaySummary.totalPoints := 0;
          DaySummary.goalMet := false |}.
Proof.
  split.
  - refine (proj1 overdue_task_scores_zero (zoneEnv 0)
              (lateTaskState (zoneEnv 0) 19000 goal50 DefaultMeta) 19000
              [] (lateTask (zoneEnv 0) 19000) [] _ _ eq_refl eq_refl eq_refl _).
    vm_compute. reflexivity.
  - apply (proj2 overdue_task_scores_zero). reflexivity.
Defined.

(** C8.  [computeDayTotals] is total and skips dangling references: a habit
    log whose [habitId] matches no habit, and an assigned quest whose
    [libraryId] matches no library entry, each leave the summary as it is
    without them; the result carries the date asked for, and [goalMet] says
    whether the total reaches the daily goal. *)
Theorem dangling_references_are_skipped :
  (forall env s d l1 lg l2,
      habitLogs s = l1 ++ lg :: l2 ->
      findHabit s (HabitLog.habitId lg) = None ->
      computeDayTotals env s d
      = computeDayTotals env (set_habitLogs (l1 ++ l2) s) d)
  /\ (forall env s d l1 aq l2,
         assignedQuests s = l1 ++ aq :: l2 ->
         findQuest s (AssignedQuest.libraryId aq) = None ->
         computeDayTotals env s d
         = computeDayTotals env (set_assignedQuests (l1 ++ l2) s) d)
  /\ (forall env s d,
         DaySummary.date (computeDayTotals env s d) = d
         /\ DaySummary.goalMet (computeDayTotals env s d)
            = (Z.of_N (Settings.dailyGoal (settings s))
               <=? DaySummary.totalPoints (computeDayTotals env s d))).
Proof.
  split; [|split].
  - intros env s d l1 lg l2 Hl Hf.
    symmetry. apply computeDayTotals_ext; [reflexivity|].
    destruct (decide (HabitLog.date lg = d)) as [Hd|Hd].
    + symmetry. apply (dayTotal_log_skip env s d l1 lg l2 Hl Hd).
      intros a. now apply habitStep_dangling.
    + now rewrite (dayTotal_log_other env s d l1 lg l2 Hl Hd).
  - intros env s d l1 aq l2 Hl Hf.
    symmetry. apply computeDayTotals_ext; [reflexivity|].
    symmetry. apply (dayTotal_quest_skip env s d l1 aq l2 Hl).
    intros a. now apply questStep_dangling.
  - intros env s d. rewrite computeDayTotals_eq. simpl.
    now rewrite or_elseN_0.
Qed.

Lemma dangling_references_are_skipped_witness :
  computeDayTotals (zoneEnv 0) orphanState 0
  = computeDayTotals (zoneEnv 0) (set_habitLogs [] orphanState) 0
  /\ computeDayTotals (zoneEnv 0) orphanState 0
     = computeDayTotals (zoneEnv 0) (set_assignedQuests [] orphanState) 0
  /\ DaySummary.totalPoints (computeDayTotals (zoneEnv 0) orphanState 0) = 200.
Proof.
  split; [|split].
  - apply (proj1 dangling_references_are_skipped (zoneEnv 0) orphanState 0
             [] orphanLog []); reflexivity.
  - apply (proj1 (proj2 dangling_references_are_skipped) (zoneEnv 0) orphanState 0
             [] orphanQuest []); reflexivity.
  - vm_compute. reflexivity.
Defined.

(** ** Summary cache *)

Section ListFind.
Context {A : Type} (P : A -> Prop) `{!forall x, Decision (P x)}.

Lemma list_find_insert_same (l : list A) (i : nat) (x y : A) :
  list_find P l = Some (i, x) -> P y ->
  list_find P (<[i := y]> l) = Some (i, y).
Proof.
  revert i. induction l as [|z l IH]; intros i Hf Hy; [discriminate|].
  simpl in Hf. destruct (decide (P z)) as [Hz|Hz].
  - inversion Hf; subst. simpl. now rewrite decide_True.
  - destruct (list_find P l) as [[j w]|] eqn:E; [|discriminate].
    simpl in Hf. inversion Hf; subst. simpl.
    rewrite decide_False by assumption.
    now rewrite (IH j eq_refl Hy).
Qed.

Lemma list_find_insert_other (l : list A) (i : nat) (x y : A) :
  l !! i = Some x -> ~ P x -> ~ P y ->
  list_find P (<[i := y]> l) = list_find P l.
Proof.
  revert i. induction l as [|z l IH]; intros i Hi Hx Hy; [reflexivity|].
  destruct i as [|i]; simpl in *.
  - inversion Hi; subst. now rewrite !decide_False by assumption.
  - destruct (decide (P z)); [reflexivity|]. now rewrite (IH i Hi Hx Hy).
Qed.

Lemma list_find_snoc_new (l : list A) (y : A) :
  list_find P l = None -> P y ->
  list_find P (l ++ [y]) = Some (length l, y).
Proof.
  intros Hn Hy. rewrite list_find_app_r by assumption. simpl.
  now rewrite decide_True.
Qed.

Lemma list_find_snoc_other (l : list A) (y : A) :
  ~ P y -> list_find P (l ++ [y]) = list_find P l.
Proof.
  intros Hy. induction l as [|z l IH]; simpl.
  - now rewrite decide_False.
  - destruct (decide (P z)); [reflexivity|]. now rewrite IH.
Qed.
End ListFind.

Lemma storeSummary_lookup sum l :
  snd <$> list_find (fun x => DaySummary.date x = DaySummary.date sum)
            (storeSummary sum l) = Some sum.
Proof.
  unfold storeSummary.
  destruct (list_find _ l) as [[idx x]|] eqn:E.
  - now rewrite (list_find_insert_same _ l idx x sum E eq_refl).
  - now rewrite (list_find_snoc_new _ l sum E eq_refl).
Qed.

Lemma storeSummary_other sum l d' :
  d' <> DaySummary.date sum ->
  list_find (fun x => DaySummary.date x = d') (storeSummary sum l)
  = list_find (fun x => DaySummary.date x = d') l.
Proof.
  intros Hd. unfold storeSummary.
  destruct (list_find _ l) as [[idx x]|] eqn:E.
  - apply list_find_Some in E as (Hi & Hx & _).
    apply (list_find_insert_other _ l idx x sum Hi); congruence.
  - apply list_find_snoc_other. congruence.
Qed.

Lemma storeSummary_dates sum l :
  NoDup (DaySummary.date <$> l) ->
  NoDup (DaySummary.date <$> storeSummary sum l).
Proof.
  intros Hnd. unfold storeSummary.
  destruct (list_find _ l) as [[idx x]|] eqn:E.
  - apply list_find_Some in E as (Hi & Hx & _).
    rewrite list_fmap_insert, <- Hx.
    rewrite list_insert_id; [assumption|].
    now rewrite list_lookup_fmap, Hi.
  - rewrite fmap_app. simpl. apply NoDup_app. split; [assumption|].
    split; [|apply NoDup_singleton].
    intros y Hy Hy'. apply list_elem_of_singleton in Hy'. subst y.
    apply list_elem_of_fmap in Hy as (z & Hz & Hin).
    apply list_find_None in E. rewrite Forall_forall in E.
    apply (E z Hin). congruence.
Qed.

(** C10.  [upsertDaySummary(d)] returns [computeDayTotals(d)] and stores it
    as the cached summary of [d] (which is still what [computeDayTotals(d)]
    gives afterwards); the cached summary of every other date is unchanged,
    as is everything in the state but the summaries; and if no two cached
    summaries shared a date before the call, none do after it. *)
Theorem upsertDaySummary_frame :
  forall env s d,
    exists s',
      upsertDaySummary env d s = Some (computeDayTotals env s d, s')
      /\ cachedSummary s' d = Some (computeDayTotals env s d)
      /\ computeDayTotals env s' d = computeDayTotals env s d
      /\ (forall d', d' <> d -> cachedSummary s' d' = cachedSummary s d')
      /\ (NoDup (DaySummary.date <$> daySummaries s) ->
          NoDup (DaySummary.date <$> daySummaries s'))
      /\ s' = set_daySummaries (daySummaries s') s.
Proof.
  intros env s d. eexists. split; [reflexivity|].
  split; [|split; [|split; [|split]]].
  - apply (storeSummary_lookup (computeDayTotals env s d)).
  - reflexivity.
  - intros d' Hd. unfold cachedSummary. simpl.
    now rewrite storeSummary_other.
  - apply storeSummary_dates.
  - reflexivity.
Qed.

Lemma upsertDaySummary_frame_witness :
  exists s',
    upsertDaySummary (zoneEnv 0) 0 cachedState
    = Some (DaySummary.mk 0 210 true, s')
    /\ cachedSummary s' 1 = Some (DaySummary.mk 1 7 false)
    /\ NoDup (DaySummary.date <$> daySummaries s').
Proof.
  destruct (upsertDaySummary_frame (zoneEnv 0) cachedState 0)
    as (s' & Hrun & _ & _ & Hother & Hnd & _).
  exists s'. split; [exact Hrun|]. split.
  - rewrite Hother; [reflexivity|discriminate].
  - apply Hnd. apply (bool_decide_unpack _). vm_compute. exact I.
Defined.

(** ** Streak evaluator *)

Lemma habitsCompleteLoop_spec logs d todays :
  habitsCompleteLoop logs d todays = true
  <-> forall h, h ∈ todays ->
        exists log, findLog logs (Habit.id h) d = Some log
                    /\ thresholdAsCoded h <= HabitLog.count log.
Proof.
  induction todays as [|h rest IH]; simpl.
  - split; [|reflexivity]. intros _ h Hh. inversion Hh.
  - split.
    + intros Hloop h' Hh'.
      destruct (findLog logs (Habit.id h) d) as [log|] eqn:Hf; [|discriminate].
      assert (Hthis : thresholdAsCoded h <= HabitLog.count log
                      /\ habitsCompleteLoop logs d rest = true).
      { unfold thresholdAsCoded. rewrite or_else_0 in Hloop.
        destruct (String.eqb (Habit.type h) "binary");
          [destruct (Z.ltb_spec (HabitLog.count log) 1)
          |destruct (Z.ltb_spec (HabitLog.count log) (JS.or_else (Habit.target h) 1))];
          try discriminate; split; (lia || assumption). }
      destruct Hthis as [Hle Hrest].
      apply elem_of_cons in Hh' as [->|Hin].
      * exists log. split; [assumption|exact Hle].
      * now apply IH.
    + intros Hall.
      destruct (Hall h) as (log & Hf & Hle); [left|].
      rewrite Hf, or_else_0.
      assert (Hrest : habitsCompleteLoop logs d rest = true).
      { apply IH. intros h' Hh'. apply Hall. now right. }
      unfold thresholdAsCoded in Hle.
      destruct (String.eqb (Habit.type h) "binary");
        [destruct (Z.ltb_spec (HabitLog.count log) 1)
        |destruct (Z.ltb_spec (HabitLog.count log) (JS.or_else (Habit.target h) 1))];
        (lia || assumption).
Qed.

Lemma allScheduledHabitsComplete_spec env s d :
  allScheduledHabitsComplete env s d = true
  <-> scheduledHabitsLogged thresholdAsCoded
        (Clock.weekdayOf (utcOffset env) d) s d.
Proof.
  unfold allScheduledHabitsComplete, scheduledHabitsLogged.
  set (w := Clock.weekdayOf (utcOffset env) d).
  set (todays := filter (fun h => scheduledOn w h = true) (habits s)).
  assert (Hin : forall h, h ∈ todays <-> h ∈ habits s /\ scheduledOn w h = true).
  { intros h. unfold todays. rewrite list_elem_of_filter. tauto. }
  destruct (Nat.eqb_spec (length todays) 0) as [Hlen|Hlen].
  - split; [|reflexivity]. intros _ h Hh Hs.
    apply nil_length_inv in Hlen.
    assert (Hc : h ∈ todays) by (apply Hin; auto).
    rewrite Hlen in Hc. inversion Hc.
  - rewrite habitsCompleteLoop_spec. split.
    + intros H h Hh Hs. apply H, Hin. auto.
    + intros H h Hh. apply Hin in Hh as [Hh Hs]. auto.
Qed.

Lemma allScheduledHabitsComplete_none env s d :
  (forall h, h ∈ habits s ->
             scheduledOn (Clock.weekdayOf (utcOffset env) d) h = false) ->
  allScheduledHabitsComplete env s d = true.
Proof.
  intros Hnone. apply allScheduledHabitsComplete_spec.
  intros h Hh Hs. rewrite (Hnone h Hh) in Hs. discriminate.
Qed.

(** C7, as the code has it.  In a time zone at or east of UTC,
    [allScheduledHabitsComplete(date)] returns true when no habit is
    scheduled on the weekday of the date, and in general it returns true if
    and only if every habit scheduled on that weekday has a log for the date
    (the first stored for that habit and date) with count at least 1 for a
    binary habit and at least the target for a counter habit, a stored target
    of 0 counting as 1. *)
Theorem streak_evaluator_threshold : streakEvaluatorLaw eastOfUTC thresholdAsCoded.
Proof.
  intros env s d Hz. rewrite <- (weekdayOf_civil _ d Hz). split.
  - apply allScheduledHabitsComplete_none.
  - apply allScheduledHabitsComplete_spec.
Qed.

Lemma streak_evaluator_threshold_witness :
  allScheduledHabitsComplete (zoneEnv 0) (thursdayState "counter" 3 3) 0 = true
  <-> scheduledHabitsLogged thresholdAsCoded (Clock.civilWeekday 0)
        (thursdayState "counter" 3 3) 0.
Proof.
  refine (proj2 (streak_evaluator_threshold (zoneEnv 0)
                   (thursdayState "counter" 3 3) 0 _)).
  unfold eastOfUTC, Clock.msPerDay. simpl. lia.
Defined.

(** C7 as the specification states it fails: for a counter habit stored
    with target 0 and logged at count 0, "count >= target" holds, yet the
    code compares the count with [target || 1] = 1 and returns false. *)
Lemma streak_evaluator_not_as_claimed :
  ~ streakEvaluatorLaw anyZone thresholdAsClaimed.
Proof.
  intros Hlaw.
  destruct (Hlaw (zoneEnv 0) (thursdayState "counter" 0 0) 0 I) as [_ [_ Hback]].
  assert (Hall : scheduledHabitsLogged thresholdAsClaimed (Clock.civilWeekday 0)
                   (thursdayState "counter" 0 0) 0).
  { intros h Hh _. apply list_elem_of_singleton in Hh. subst h.
    eexists. split; [reflexivity|]. vm_compute. discriminate. }
  specialize (Hback Hall). vm_compute in Hback. discriminate.
Qed.

(** Neither amendment of C7 can be dropped: west of UTC a habit scheduled
    on the weekday of the date is not looked at, and the zone alone does
    not repair the threshold of a stored target 0. *)
Lemma streak_evaluator_needs_both :
  ~ streakEvaluatorLaw anyZone thresholdAsCoded
  /\ ~ streakEvaluatorLaw eastOfUTC thresholdAsClaimed.
Proof.
  split; intros Hlaw.
  - destruct (Hlaw (zoneEnv (-5 * hourMs)) (thursdayState "binary" 1 0) 0 I)
      as [_ [Hfwd _]].
    assert (Htrue : allScheduledHabitsComplete (zoneEnv (-5 * hourMs))
                      (thursdayState "binary" 1 0) 0 = true)
      by (vm_compute; reflexivity).
    destruct (Hfwd Htrue (thursdayHabit "binary" 1)) as (log & Hf & Hle);
      [left|reflexivity|].
    vm_compute in Hf. inversion Hf; subst log. vm_compute in Hle. now apply Hle.
  - assert (Hz : eastOfUTC (utcOffset (zoneEnv 0)))
      by (unfold eastOfUTC, Clock.msPerDay; simpl; lia).
    destruct (Hlaw (zoneEnv 0) (thursdayState "counter" 0 0) 0 Hz) as [_ [_ Hback]].
    assert (Hall : scheduledHabitsLogged thresholdAsClaimed (Clock.civilWeekday 0)
                     (thursdayState "counter" 0 0) 0).
    { intros h Hh _. apply list_elem_of_singleton in Hh. subst h.
      eexists. split; [reflexivity|]. vm_compute. discriminate. }
    specialize (Hback Hall). vm_compute in Hback. discriminate.
Qed.

(** ** Quest assignment *)

Section SamplingFacts.
Context {A : Type}.
Implicit Types a arr : list A.

Lemma swap_perm a i j :
  (i < length a)%nat -> (j < length a)%nat ->
  exists a', swap a i j = Some a' /\ a' ≡ₚ a /\ length a' = length a.
Proof.
  intros Hi Hj. unfold swap.
  destruct (lookup_lt_is_Some_2 a i Hi) as [x Hx].
  destruct (lookup_lt_is_Some_2 a j Hj) as [y Hy].
  rewrite Hx, Hy. eexists. split; [reflexivity|]. split.
  - now apply Permutation_insert_swap.
  - now rewrite !length_insert.
Qed.

Lemma shuffleFrom_perm env i a c :
  randomOk env (Z.of_nat (length a)) ->
  (i < length a)%nat ->
  exists a', shuffleFrom env i a c = Some (a', (c + i)%nat)
             /\ a' ≡ₚ a /\ length a' = length a.
Proof.
  revert a c. induction i as [|i IH]; intros a c Hok Hi; simpl.
  - exists a. now rewrite Nat.add_0_r.
  - destruct (Hok c (Z.of_nat (S i) + 1)) as [Hlo Hhi]; [lia|].
    destruct (Z.ltb_spec (randomBelow env c (Z.of_nat (S i) + 1)) 0); [lia|].
    destruct (swap_perm a (S i) (Z.to_nat (randomBelow env c (Z.of_nat (S i) + 1))))
      as (a1 & Hsw & Hp1 & Hl1); [lia..|].
    rewrite Hsw.
    destruct (IH a1 (S c)) as (a2 & Hsh & Hp2 & Hl2); [now rewrite Hl1|lia|].
    exists a2. rewrite Hsh. replace (S c + i)%nat with (c + S i)%nat by lia.
    split; [reflexivity|]. split; [now rewrite Hp2|congruence].
Qed.

Lemma slice0_take a n : 0 <= n -> slice0 a n = take (Z.to_nat n) a.
Proof. intros Hn. unfold slice0. destruct (Z.ltb_spec n 0); [lia|reflexivity]. Qed.

(** [randomSample(arr, n)] returns [min(n, arr.length)] elements drawn
    without repetition: together with the elements left over they are a
    permutation of [arr]. *)
Lemma randomSample_spec env arr n c :
  randomOk env (Z.of_nat (length arr)) ->
  0 <= n ->
  exists chosen rest c',
    randomSample env arr n c = Some (chosen, c')
    /\ chosen ++ rest ≡ₚ arr
    /\ Z.of_nat (length chosen) = Z.min n (Z.of_nat (length arr)).
Proof.
  intros Hok Hn. unfold randomSample.
  destruct arr as [|x arr'] eqn:Harr.
  - simpl. exists [], [], c. rewrite slice0_take by assumption.
    rewrite take_nil. simpl. repeat split; [reflexivity|lia].
  - rewrite <- Harr in *.
    destruct (shuffleFrom_perm env (length arr - 1) arr c Hok)
      as (a' & Hsh & Hp & Hl); [rewrite Harr; simpl; lia|].
    rewrite Hsh. exists (take (Z.to_nat n) a'), (drop (Z.to_nat n) a'), (c + (length arr - 1))%nat.
    rewrite slice0_take by assumption.
    split; [reflexivity|]. split; [now rewrite take_drop|].
    rewrite length_take, Hl. lia.
Qed.
End SamplingFacts.

Lemma pushCreated_spec created s :
  exists s', pushCreated created s = Some (tt, s')
             /\ questsAdded created s s'.
Proof.
  unfold pushCreated, questsAdded.
  destruct (Nat.eqb_spec (length created) 0) as [Hl|Hl].
  - apply nil_length_inv in Hl. subst created.
    eexists. split; [reflexivity|]. rewrite app_nil_r.
    destruct s; eexists _, _; reflexivity.
  - eexists. split; [reflexivity|]. destruct s; eexists _, _; reflexivity.
Qed.

Lemma sampleM_spec env pool n s :
  randomOk env (Z.of_nat (length pool)) ->
  0 <= n ->
  exists chosen c',
    sampleM env pool n s = Some (chosen, set_randomCalls c' s)
    /\ drawnFrom pool chosen
    /\ Z.of_nat (length chosen) = Z.min n (Z.of_nat (length pool)).
Proof.
  intros Hok Hn. unfold sampleM.
  destruct (randomSample_spec env pool n (randomCalls s) Hok Hn)
    as (chosen & rest & c' & Hrs & Hp & Hl).
  rewrite Hrs. exists chosen, c'. split; [reflexivity|].
  split; [now exists rest|assumption].
Qed.

Lemma assignDailyQuests_spec env d s :
  randomOk env (Z.of_nat (length (activePool s))) ->
  exists chosen s',
    assignDailyQuests env d s = Some (tt, s')
    /\ drawnFrom (activePool s) chosen
    /\ Z.of_nat (length chosen)
       = Z.min (Z.of_N (Settings.dailyQuestCount (settings s)))
               (Z.of_nat (length (activePool s)))
    /\ questsAdded (imap (mkDaily env d (uidCalls s)) chosen) s s'.
Proof.
  intros Hok. unfold assignDailyQuests, bind, gets. rewrite or_elseN_0.
  destruct (sampleM_spec env (activePool s)
              (Z.min (Z.of_N (Settings.dailyQuestCount (settings s)))
                     (Z.of_nat (length (activePool s)))) s Hok)
    as (chosen & c' & Hs & Hd & Hl); [lia|].
  rewrite Hs. simpl.
  destruct (pushCreated_spec (imap (mkDaily env d (uidCalls s)) chosen)
              (set_randomCalls c' s)) as (s' & Hp & Hq).
  exists chosen, s'. split; [exact Hp|]. split; [assumption|].
  split; [lia|]. exact Hq.
Qed.

Lemma weeklyCount_spec env s :
  exists c', weeklyCount env s = Some (weeklyRequest env s, set_randomCalls c' s)
             /\ 0 <= weeklyRequest env s.
Proof.
  unfold weeklyCount, weeklyRequest.
  destruct (String.eqb _ _).
  - eexists. split; [reflexivity|lia].
  - exists (randomCalls s). rewrite or_elseN_0. split; [|lia].
    destruct s; reflexivity.
Qed.

Lemma assignWeeklyQuests_spec env ws s :
  randomOk env (Z.of_nat (length (activePool s))) ->
  exists chosen s',
    assignWeeklyQuests env ws s = Some (tt, s')
    /\ drawnFrom (activePool s) chosen
    /\ Z.of_nat (length chosen)
       = Z.min (weeklyRequest env s) (Z.of_nat (length (activePool s)))
    /\ questsAdded
         (imap (mkWeekly env ws (Settings.toNumber (Settings.weeklyFactor (settings s)))
                  (uidCalls s)) chosen) s s'.
Proof.
  intros Hok. unfold assignWeeklyQuests, bind, gets.
  destruct (weeklyCount_spec env s) as (c1 & Hc & Hn). rewrite Hc.
  destruct (sampleM_spec env (activePool s)
              (Z.min (weeklyRequest env s) (Z.of_nat (length (activePool s))))
              (set_randomCalls c1 s) Hok)
    as (chosen & c' & Hs & Hd & Hl); [lia|].
  change (activePool (set_randomCalls c1 s)) with (activePool s).
  rewrite Hs. 
  destruct (pushCreated_spec
              (imap (mkWeekly env ws (Settings.toNumber (Settings.weeklyFactor (settings s)))
                       (uidCalls s)) chosen)
              (set_randomCalls c' (set_randomCalls c1 s))) as (s' & Hp & Hq).
  exists chosen, s'. split; [exact Hp|]. split; [assumption|].
  split; [lia|]. exact Hq.
Qed.

Lemma libraryId_mkDaily env d u chosen :
  AssignedQuest.libraryId <$> imap (mkDaily env d u) chosen
  = QuestLibrary.id <$> chosen.
Proof. rewrite fmap_imap. apply imap_const. Qed.

Lemma libraryId_mkWeekly env ws f u chosen :
  AssignedQuest.libraryId <$> imap (mkWeekly env ws f u) chosen
  = QuestLibrary.id <$> chosen.
Proof. rewrite fmap_imap. apply imap_const. Qed.

Lemma drawnFrom_NoDup pool chosen :
  drawnFrom pool chosen ->
  NoDup (QuestLibrary.id <$> pool) -> NoDup (QuestLibrary.id <$> chosen).
Proof.
  intros [rest Hp] Hnd. rewrite <- Hp, fmap_app in Hnd.
  now apply NoDup_app in Hnd as [Hnd _].
Qed.

Lemma assignsDistinct_intro n created chosen s s' :
  0 <= n ->
  questsAdded created s s' ->
  drawnFrom (activePool s) chosen ->
  AssignedQuest.libraryId <$> created = QuestLibrary.id <$> chosen ->
  length created = length chosen ->
  Z.of_nat (length chosen) = Z.min n (Z.of_nat (length (activePool s))) ->
  assignsDistinct n created s s'.
Proof.
  intros Hn Hq Hd Hids Hlen Hmin. unfold assignsDistinct.
  split; [destruct Hq as (rc & uc & ->); reflexivity|].
  split; [exists chosen; auto|].
  split; [intros Hnd; rewrite Hids; eauto using drawnFrom_NoDup|].
  split; [lia|]. split; [lia|].
  intros Hz. apply nil_length_inv.
  destruct Hz as [->|Hnil]; [lia|]. rewrite Hnil in Hmin. simpl in Hmin. lia.
Qed.

Lemma weeklyRequest_range env s :
  Settings.weeklyQuestMode (settings s) = "range"%string ->
  (Settings.weeklyQuestMin (settings s) <= Settings.weeklyQuestMax (settings s))%N ->
  randomOk env (Z.of_N (Settings.weeklyQuestMax (settings s))
                - Z.of_N (Settings.weeklyQuestMin (settings s)) + 1) ->
  Z.of_N (Settings.weeklyQuestMin (settings s)) <= weeklyRequest env s
  <= Z.of_N (Settings.weeklyQuestMax (settings s)).
Proof.
  intros Hmode Hmm Hok. unfold weeklyRequest. rewrite Hmode. simpl.
  match goal with |- context [randomBelow env ?c ?n] =>
    destruct (Hok c n) as [Hlo Hhi]; [lia|] end.
  lia.
Qed.

Lemma mkWeekly_multiplier env ws f u chosen :
  Forall (fun aq => AssignedQuest.multiplier aq = f
                    /\ AssignedQuest.type aq = "weekly"%string
                    /\ AssignedQuest.weekOf aq = Some ws)
         (imap (mkWeekly env ws f u) chosen).
Proof.
  apply Forall_forall. intros aq Hin.
  apply elem_of_lookup_imap in Hin as (i & q & -> & _). now split.
Qed.

(** With every draw equal to 0.5, the loop over [1, 2, 3, 4, 5] swaps
    positions (4, 2), (3, 2), (2, 1) and (1, 1); the first three entries of
    [1, 4, 2, 5, 3] are the sample. *)
Example randomSample_half :
  randomSample (zoneEnv 0) [1; 2; 3; 4; 5] 3 0 = Some ([1; 4; 2], 4%nat).
Proof. vm_compute. reflexivity. Qed.

Lemma activePool_length s :
  Z.of_nat (length (activePool s)) <= Z.of_nat (length (questLibrary s)).
Proof. unfold activePool. pose proof (length_filter (fun q => QuestLibrary.active q = true) (questLibrary s)). lia. Qed.

Lemma randomSource_pool env s :
  randomSource env ->
  Z.of_nat (length (questLibrary s)) < arrayLimit ->
  randomOk env (Z.of_nat (length (activePool s)) + 1).
Proof.
  intros Hsrc Hlen. apply randomSource_randomOk; [assumption|].
  pose proof (activePool_length s). unfold arrayLimit in Hlen.
  change (2 ^ 32) with 4294967296 in Hlen.
  change (2 ^ 53) with 9007199254740992. lia.
Qed.

(** C5.  With [Math.random()] in [0, 1), each assignment call succeeds and
    appends quests that reference entries drawn from the active pool without
    repetition (pairwise distinct ids when the pool's ids are), exactly
    [min(n, |P|)] of them for the requested count [n]: never more than the
    pool holds, none when the pool is empty or [n] is 0.  For
    [assignDailyQuests] [n] is [dailyQuestCount], for [assignWeeklyQuests]
    the fixed count or the count drawn in range mode. *)
Theorem assignment_never_repeats_a_quest :
  forall env s d,
    randomSource env ->
    Z.of_nat (length (questLibrary s)) < arrayLimit ->
    (exists created s',
        assignDailyQuests env d s = Some (tt, s')
        /\ assignsDistinct (Z.of_N (Settings.dailyQuestCount (settings s)))
             created s s')
    /\ (exists created s',
           assignWeeklyQuests env d s = Some (tt, s')
           /\ assignsDistinct (weeklyRequest env s) created s s').
Proof.
  intros env s d Hsrc Hlen.
  assert (Hok : randomOk env (Z.of_nat (length (activePool s)))).
  { eapply randomOk_mono; [|apply (randomSource_pool env s Hsrc Hlen)]. lia. }
  split.
  - destruct (assignDailyQuests_spec env d s Hok) as (chosen & s' & Hrun & Hd & Hl & Hq).
    eexists _, s'. split; [exact Hrun|].
    apply (assignsDistinct_intro _ _ chosen);
      [lia|exact Hq|exact Hd|apply libraryId_mkDaily|apply length_imap|exact Hl].
  - destruct (assignWeeklyQuests_spec env d s Hok) as (chosen & s' & Hrun & Hd & Hl & Hq).
    eexists _, s'. split; [exact Hrun|].
    destruct (weeklyCount_spec env s) as (_ & _ & Hn).
    apply (assignsDistinct_intro _ _ chosen);
      [exact Hn|exact Hq|exact Hd|apply libraryId_mkWeekly|apply length_imap|exact Hl].
Qed.

Lemma assignment_never_repeats_a_quest_witness :
  (exists created s',
      assignDailyQuests (zoneEnv 0) 19000 exampleState = Some (tt, s')
      /\ assignsDistinct 3 created exampleState s')
  /\ (exists created s',
         assignWeeklyQuests (zoneEnv 0) 18995 exampleState = Some (tt, s')
         /\ assignsDistinct 3 created exampleState s').
Proof.
  split.
  - refine (proj1 (assignment_never_repeats_a_quest (zoneEnv 0) exampleState
                     19000 (zoneEnv_randomSource 0) _)).
    vm_compute. reflexivity.
  - refine (proj2 (assignment_never_repeats_a_quest (zoneEnv 0) exampleState
                     18995 (zoneEnv_randomSource 0) _)).
    vm_compute. reflexivity.
Defined.

(** C6.  In weekly mode "range" with [weeklyQuestMin <= weeklyQuestMax]
    and at least [weeklyQuestMax] active library entries, whatever doubles in
    [0, 1) [Math.random()] returns, [assignWeeklyQuests] succeeds and creates
    a number of quests between [weeklyQuestMin] and [weeklyQuestMax],
    bounds included, each of type 'weekly' for the given week and carrying
    the configured weekly factor as its multiplier. *)
Theorem weekly_range_count_within_bounds :
  forall env s ws,
    let st := settings s in
    Settings.weeklyQuestMode st = "range"%string ->
    (Settings.weeklyQuestMin st <= Settings.weeklyQuestMax st)%N ->
    Z.of_N (Settings.weeklyQuestMax st) <= Z.of_nat (length (activePool s)) ->
    randomSource env ->
    Z.of_nat (length (questLibrary s)) < arrayLimit ->
    exists created s',
      assignWeeklyQuests env ws s = Some (tt, s')
      /\ assignedQuests s' = assignedQuests s ++ created
      /\ Z.of_N (Settings.weeklyQuestMin st) <= Z.of_nat (length created)
         <= Z.of_N (Settings.weeklyQuestMax st)
      /\ Forall (fun aq =>
                   AssignedQuest.multiplier aq
                   = Settings.toNumber (Settings.weeklyFactor st)
                   /\ AssignedQuest.type aq = "weekly"%string
                   /\ AssignedQuest.weekOf aq = Some ws) created.
Proof.
  intros env s ws st Hmode Hmm Hpool Hsrc Hlen.
  pose proof (randomSource_pool env s Hsrc Hlen) as Hok.
  destruct (assignWeeklyQuests_spec env ws s) as (chosen & s' & Hrun & Hd & Hl & Hq).
  { eapply randomOk_mono; [|exact Hok]. lia. }
  eexists _, s'. split; [exact Hrun|].
  split; [destruct Hq as (rc & uc & ->); reflexivity|].
  split; [|apply mkWeekly_multiplier].
  rewrite length_imap.
  assert (Hr := weeklyRequest_range env s Hmode Hmm).
  fold st in Hr.
  assert (Hok' : randomOk env (Z.of_N (Settings.weeklyQuestMax st)
                               - Z.of_N (Settings.weeklyQuestMin st) + 1)).
  { eapply randomOk_mono; [|exact Hok]. lia. }
  specialize (Hr Hok'). lia.
Qed.

(** The scenario of the specification: min 2, max 4 and ten active quests. *)
Lemma weekly_range_count_within_bounds_witness :
  Z.of_nat (length (activePool rangeState)) = 10
  /\ exists created s',
       assignWeeklyQuests (zoneEnv 0) 18995 rangeState = Some (tt, s')
       /\ assignedQuests s' = assignedQuests rangeState ++ created
       /\ 2 <= Z.of_nat (length created) <= 4
       /\ Forall (fun aq =>
                    AssignedQuest.multiplier aq
                    = Settings.toNumber (Settings.weeklyFactor rangeSettings)
                    /\ AssignedQuest.type aq = "weekly"%string
                    /\ AssignedQuest.weekOf aq = Some 18995) created.
Proof.
  split; [reflexivity|].
  refine (weekly_range_count_within_bounds (zoneEnv 0) rangeState 18995
            eq_refl _ _ (zoneEnv_randomSource 0) _).
  - vm_compute. discriminate.
  - vm_compute. discriminate.
  - vm_compute. reflexivity.
Defined.

(** ** Rollover controller *)

Lemma ensureRollover_same_day env now s :
  Meta.lastAssignmentRun (meta s) = Some (Clock.todayStr (utcOffset env) now) ->
  ensureRollover env now s
  = Some (tt, set_daySummaries
                (storeSummary
                   (computeDayTotals env s (Clock.todayStr (utcOffset env) now))
                   (daySummaries s)) s).
Proof.
  intros Hlast. unfold ensureRollover, bind, gets. rewrite Hlast.
  rewrite bool_decide_false by (intros H; now apply H).
  reflexivity.
Qed.

Lemma ensureRollover_first_run env now s :
  Meta.lastAssignmentRun (meta s) = None ->
  randomOk env (Z.of_nat (length (activePool s))) ->
  exists created s',
    ensureRollover env now s = Some (tt, s')
    /\ rolledOver (firstRunMeta env s (Clock.todayStr (utcOffset env) now))
         created s s'.
Proof.
  intros Hlast Hok. unfold ensureRollover, bind, gets. rewrite Hlast.
  set (today := Clock.todayStr (utcOffset env) now).
  destruct (assignDailyQuests_spec env today s Hok)
    as (ch1 & s1 & Hrun1 & _ & _ & (rc1 & uc1 & ->)).
  rewrite Hrun1.
  match goal with |- context [assignWeeklyQuests env ?ws ?st] =>
    destruct (assignWeeklyQuests_spec env ws st Hok)
      as (ch2 & s2 & Hrun2 & _ & _ & (rc2 & uc2 & ->)) end.
  rewrite Hrun2. simpl.
  eexists _, _. split; [reflexivity|].
  unfold rolledOver. simpl. rewrite <- app_assoc. eexists _, _, _. reflexivity.
Qed.

Lemma ensureRollover_day_changed env now s prev :
  Meta.lastAssignmentRun (meta s) = Some prev ->
  prev <> Clock.todayStr (utcOffset env) now ->
  randomOk env (Z.of_nat (length (activePool s))) ->
  exists created s',
    ensureRollover env now s = Some (tt, s')
    /\ rolledOver (dayChangedMeta env s prev (Clock.todayStr (utcOffset env) now))
         created s s'.
Proof.
  intros Hlast Hne Hok. unfold ensureRollover, bind, gets. rewrite Hlast.
  set (today := Clock.todayStr (utcOffset env) now) in *.
  rewrite bool_decide_true by assumption.
  unfold upsertDaySummary at 1. unfold modifyMeta, modify.
  match goal with |- context [assignDailyQuests env today ?st] =>
    destruct (assignDailyQuests_spec env today st Hok)
      as (ch1 & s1 & Hrun1 & _ & _ & (rc1 & uc1 & ->)); rewrite Hrun1; clear Hrun1 end.
  unfold upsertDaySummary, ret.
  cbn [settings meta tasks habits habitLogs events questLibrary assignedQuests
       daySummaries randomCalls uidCalls set_meta set_daySummaries].
  unfold dayChangedMeta.
  change (allScheduledHabitsComplete env
            (set_daySummaries
               (storeSummary (computeDayTotals env s prev) (daySummaries s)) s) prev)
    with (allScheduledHabitsComplete env s prev).
  set (m1 := updateStreak _ (meta s)).
  cbv zeta.
  destruct (bool_decide _) eqn:Hweek.
  - match goal with |- context [assignWeeklyQuests env ?ws ?st] =>
      destruct (assignWeeklyQuests_spec env ws st Hok)
        as (ch2 & s2 & Hrun2 & _ & _ & (rc2 & uc2 & ->)); rewrite Hrun2; clear Hrun2 end.
    cbn [settings meta tasks habits habitLogs events questLibrary assignedQuests
         daySummaries randomCalls uidCalls set_meta set_daySummaries].
    eexists _, _. split; [reflexivity|].
    unfold rolledOver. rewrite <- app_assoc. eexists _, _, _. reflexivity.
  - eexists _, _. split; [reflexivity|].
    unfold rolledOver.
    cbn [settings meta tasks habits habitLogs events questLibrary assignedQuests
         daySummaries randomCalls uidCalls set_meta set_daySummaries].
    eexists _, _, _. reflexivity.
Qed.

Lemma ensureRollover_total env now s :
  randomOk env (Z.of_nat (length (activePool s))) ->
  exists m created s',
    ensureRollover env now s = Some (tt, s')
    /\ rolledOver m created s s'
    /\ Meta.lastAssignmentRun m = Some (Clock.todayStr (utcOffset env) now)
    /\ m = match Meta.lastAssignmentRun (meta s) with
           | None => firstRunMeta env s (Clock.todayStr (utcOffset env) now)
           | Some prev =>
               if bool_decide (prev <> Clock.todayStr (utcOffset env) now)
               then dayChangedMeta env s prev (Clock.todayStr (utcOffset env) now)
               else meta s
           end.
Proof.
  intros Hok. set (today := Clock.todayStr (utcOffset env) now).
  destruct (Meta.lastAssignmentRun (meta s)) as [prev|] eqn:Hlast.
  - destruct (decide (prev = today)) as [->|Hne].
    + rewrite bool_decide_false by (intros H; now apply H).
      exists (meta s), [], (set_daySummaries
                (storeSummary (computeDayTotals env s today) (daySummaries s)) s).
      split; [now apply ensureRollover_same_day|].
      split; [|split; [assumption|reflexivity]].
      unfold rolledOver. rewrite app_nil_r. eexists _, _, _. reflexivity.
    + rewrite bool_decide_true by assumption.
      destruct (ensureRollover_day_changed env now s prev Hlast Hne Hok)
        as (created & s' & Hrun & Hr).
      exists (dayChangedMeta env s prev today), created, s'.
      repeat split; assumption || reflexivity.
  - destruct (ensureRollover_first_run env now s Hlast Hok)
      as (created & s' & Hrun & Hr).
    exists (firstRunMeta env s today), created, s'.
    repeat split; assumption || reflexivity.
Qed.

Lemma updateStreak_invariant ok m :
  (Meta.streak m <= Meta.bestStreak m)%N ->
  (Meta.streak (updateStreak ok m) <= Meta.bestStreak (updateStreak ok m))%N.
Proof.
  intros Hinv. unfold updateStreak. destruct ok; simpl; [|lia].
  rewrite !or_elseN_0. destruct (N.ltb_spec (Meta.bestStreak m) (Meta.streak m + 1)); lia.
Qed.

Lemma dayChangedMeta_streak env s prev today :
  Meta.streak (dayChangedMeta env s prev today)
  = Meta.streak (updateStreak
                   (DaySummary.goalMet (computeDayTotals env s prev)
                    && allScheduledHabitsComplete env s prev) (meta s))
  /\ Meta.bestStreak (dayChangedMeta env s prev today)
     = Meta.bestStreak (updateStreak
                          (DaySummary.goalMet (computeDayTotals env s prev)
                           && allScheduledHabitsComplete env s prev) (meta s)).
Proof.
  unfold dayChangedMeta. cbv zeta. destruct (bool_decide _); split; reflexivity.
Qed.

Lemma thresholdAsCoded_pos h : zeroIsIncomplete h -> 1 <= thresholdAsCoded h.
Proof.
  unfold zeroIsIncomplete, thresholdAsCoded, JS.or_else.
  intros [->|Ht]; [reflexivity|].
  destruct (String.eqb _ _); [lia|]. destruct (Z.eqb_spec (Habit.target h) 0); lia.
Qed.

Lemma zero_count_incomplete env s d h log :
  h ∈ habits s ->
  scheduledOn (Clock.weekdayOf (utcOffset env) d) h = true ->
  zeroIsIncomplete h ->
  findLog (habitLogs s) (Habit.id h) d = Some log ->
  HabitLog.count log = 0 ->
  allScheduledHabitsComplete env s d = false.
Proof.
  intros Hh Hs He Hf Hc.
  destruct (allScheduledHabitsComplete env s d) eqn:Hall; [|reflexivity].
  apply allScheduledHabitsComplete_spec in Hall.
  destruct (Hall h Hh Hs) as (log' & Hf' & Hle).
  rewrite Hf in Hf'. inversion Hf'; subst log'.
  pose proof (thresholdAsCoded_pos h He). lia.
Qed.

Lemma updateStreak_true m :
  Meta.streak (updateStreak true m) = (Meta.streak m + 1)%N
  /\ Meta.bestStreak (updateStreak true m)
     = N.max (Meta.bestStreak m) (Meta.streak m + 1).
Proof.
  unfold updateStreak. simpl. rewrite !or_elseN_0. split; [reflexivity|].
  destruct (N.ltb_spec (Meta.bestStreak m) (Meta.streak m + 1)); lia.
Qed.

Lemma randomSource_shuffles env s :
  randomSource env ->
  Z.of_nat (length (questLibrary s)) < arrayLimit ->
  randomOk env (Z.of_nat (length (activePool s))).
Proof.
  intros Hsrc Hlen.
  eapply randomOk_mono; [|apply (randomSource_pool env s Hsrc Hlen)]. lia.
Qed.

(** Calls that do not overlap.  When [ensureRollover()] has run to
    completion and is called again on the same calendar day, the second
    call finds
    [meta.lastAssignmentRun] equal to the current date (the same-day
    branch): it assigns no quest, changes neither [streak] nor [bestStreak],
    leaves the whole lifecycle record as the first call left it, and only
    refreshes today's summary.  Both calls succeed, whichever branch the
    first one takes. *)
Theorem ensureRollover_twice_same_day :
  forall env s now1 now2,
    randomSource env ->
    Z.of_nat (length (questLibrary s)) < arrayLimit ->
    Clock.todayStr (utcOffset env) now1 = Clock.todayStr (utcOffset env) now2 ->
    exists s1 s2,
      ensureRollover env now1 s = Some (tt, s1)
      /\ ensureRollover env now2 s1 = Some (tt, s2)
      /\ Meta.lastAssignmentRun (meta s1)
         = Some (Clock.todayStr (utcOffset env) now2)
      /\ assignedQuests s2 = assignedQuests s1
      /\ Meta.streak (meta s2) = Meta.streak (meta s1)
      /\ Meta.bestStreak (meta s2) = Meta.bestStreak (meta s1)
      /\ meta s2 = meta s1
      /\ s2 = set_daySummaries
                (storeSummary
                   (computeDayTotals env s1 (Clock.todayStr (utcOffset env) now2))
                   (daySummaries s1)) s1.
Proof.
  intros env s now1 now2 Hsrc Hlen Hday.
  pose proof (randomSource_shuffles env s Hsrc Hlen) as Hok.
  destruct (ensureRollover_total env now1 s Hok)
    as (m & created & s1 & Hrun1 & (sums & rc & uc & Hs1) & Hlast & _).
  assert (Hlast1 : Meta.lastAssignmentRun (meta s1)
                   = Some (Clock.todayStr (utcOffset env) now2)).
  { rewrite Hs1. simpl. congruence. }
  exists s1. eexists. split; [exact Hrun1|].
  split; [now apply ensureRollover_same_day|].
  repeat split; try reflexivity. exact Hlast1.
Qed.

(** A first run at 01:00 and a second call an hour later. *)
Lemma ensureRollover_twice_same_day_witness :
  exists s1 s2,
    ensureRollover (zoneEnv 0) exampleNow exampleState = Some (tt, s1)
    /\ ensureRollover (zoneEnv 0) (exampleNow + hourMs) s1 = Some (tt, s2)
    /\ Meta.lastAssignmentRun (meta s1) = Some 19000
    /\ assignedQuests s2 = assignedQuests s1
    /\ meta s2 = meta s1.
Proof.
  destruct (ensureRollover_twice_same_day (zoneEnv 0) exampleState exampleNow
              (exampleNow + hourMs) (zoneEnv_randomSource 0))
    as (s1 & s2 & H1 & H2 & Hlast & Hq & _ & _ & Hm & _).
  - vm_compute. reflexivity.
  - vm_compute. reflexivity.
  - exists s1, s2. repeat split; assumption.
Defined.

(** *** Calls that overlap *)

Lemma runAlone_unfold (k : Segment) s :
  match k s with Next s' a => runOn a s' | Stuck => None end = runAlone k s.
Proof. reflexivity. Qed.

Lemma runAlone_upsert env d k s :
  runAlone (upsertDaySummaryAsync env d k) s
  = thenRun (upsertDaySummary env d) (fun sum => runAlone (k sum)) s.
Proof. reflexivity. Qed.

Lemma runAlone_pushCreated created k s :
  runAlone (pushCreatedAsync created k) s
  = thenRun (pushCreated created) (fun _ => runAlone k) s.
Proof.
  unfold runAlone, pushCreatedAsync, thenRun, pushCreated.
  destruct (length created =? 0)%nat; reflexivity.
Qed.

Lemma runAlone_assignDaily env d k s :
  runAlone (assignDailyQuestsAsync env d k) s
  = thenRun (assignDailyQuests env d) (fun _ => runAlone k) s.
Proof.
  unfold assignDailyQuestsAsync, assignDailyQuests, thenRun, bind, gets.
  unfold runAlone at 1.
  destruct (sampleM env _ _ s) as [[chosen s1]|]; [|reflexivity].
  apply (runAlone_pushCreated _ k s1).
Qed.

Lemma runAlone_assignWeekly env w k s :
  runAlone (assignWeeklyQuestsAsync env w k) s
  = thenRun (assignWeeklyQuests env w) (fun _ => runAlone k) s.
Proof.
  unfold assignWeeklyQuestsAsync, assignWeeklyQuests, thenRun, bind, gets.
  unfold runAlone at 1.
  destruct (weeklyCount env s) as [[count s1]|] eqn:Hc; [|reflexivity].
  assert (Hset : settings s1 = settings s /\ activePool s1 = activePool s).
  { unfold weeklyCount in Hc. destruct (String.eqb _ _); inversion Hc; subst;
      split; reflexivity. }
  destruct Hset as [Hset Hpool].
  destruct (sampleM env _ _ s1) as [[chosen s2]|]; [|reflexivity].
  apply (runAlone_pushCreated _ k s2).
Qed.

Ltac enter_segment :=
  unfold runAlone at 1; cbv beta zeta; rewrite ?runAlone_unfold.

(** A call that nothing interrupts is a run of [ensureRollover]: the code
    between the requests is the same, request by request. *)
Lemma runAlone_ensureRollover env now s :
  runAlone (ensureRolloverAsync env now) s = snd <$> ensureRollover env now s.
Proof.
  unfold runAlone at 1. unfold ensureRolloverAsync, ensureRollover, bind, gets.
  destruct (Meta.lastAssignmentRun (meta s)) as [prev|].
  - destruct (bool_decide (prev <> _)).
    + rewrite runAlone_unfold, runAlone_upsert. unfold thenRun, upsertDaySummary.
      enter_segment.
      rewrite runAlone_assignDaily. unfold thenRun, modifyMeta, modify.
      destruct (assignDailyQuests env _ _) as [[[] s2]|]; [|reflexivity].
      rewrite runAlone_upsert. unfold thenRun, upsertDaySummary.
      enter_segment. cbn [meta set_daySummaries].
      destruct (bool_decide (_ <> _)).
      * rewrite runAlone_unfold, runAlone_assignWeekly. unfold thenRun, bind.
        destruct (assignWeeklyQuests env _ _) as [[[] s4]|]; reflexivity.
      * reflexivity.
    + reflexivity.
  - rewrite runAlone_unfold, runAlone_assignDaily. unfold thenRun.
    destruct (assignDailyQuests env _ s) as [[[] s1]|]; [|reflexivity].
    rewrite runAlone_assignWeekly. unfold thenRun.
    destruct (assignWeeklyQuests env _ s1) as [[[] s2]|]; reflexivity.
Qed.

(** C1 fails for calls that overlap.  A call of [ensureRollover()] on a new
    day writes [meta.lastAssignmentRun] only after its last request: up to
    its first [await] it leaves the state as it is, so that a second call
    started meanwhile (the interval of the midnight watcher and the
    [visibilitychange] listener both call it) finds the day of the
    previous run, not the same-day state.  On the day after the Thursday of
    [overlapState] a call alone raises the streak from 2 to 3 and assigns
    three daily quests, and a call after it changes neither; two calls that
    overlap raise the streak to 4 and assign six daily quests, in each of
    the 70 orders in which their four requests each can complete. *)
Theorem overlapping_rollovers_repeat_the_update :
  (forall env now s prev,
      Meta.lastAssignmentRun (meta s) = Some prev ->
      prev <> Clock.todayStr (utcOffset env) now ->
      exists rest, ensureRolloverAsync env now s = Next s (Await rest))
  /\ let env := zoneEnv 0 in
     let call := ensureRolloverAsync env Clock.msPerDay in
     let call' := ensureRolloverAsync env (Clock.msPerDay + 1000) in
     (exists s1 s2,
         runAlone call overlapState = Some s1
         /\ runAlone call' s1 = Some s2
         /\ Meta.lastAssignmentRun (meta s1) = Some 1
         /\ Meta.streak (meta s1) = 3%N
         /\ length (assignedQuests s1) = 3%nat
         /\ meta s2 = meta s1
         /\ assignedQuests s2 = assignedQuests s1)
     /\ (exists s2,
            runOverlapping [true; false; true; false; true; false; true; false]
              call call' overlapState = Some s2
            /\ Meta.lastAssignmentRun (meta s2) = Some 1
            /\ Meta.streak (meta s2) = 4%N
            /\ length (assignedQuests s2) = 6%nat
            /\ Forall (dailyQuestFor 1) (assignedQuests s2))
     /\ length (interleavings 4 4) = 70%nat
     /\ forallb
          (fun turns =>
             match runOverlapping turns call call' overlapState with
             | Some s2 => (Meta.streak (meta s2) =? 4)%N
                          && (length (assignedQuests s2) =? 6)%nat
             | None => false
             end)
          (interleavings 4 4) = true.
Proof.
  split.
  - intros env now s prev Hlast Hne. unfold ensureRolloverAsync.
    rewrite Hlast, bool_decide_true by assumption.
    unfold upsertDaySummaryAsync, awaitDb. eexists. reflexivity.
  - cbv zeta. split; [|split; [|split]].
    + eexists. eexists. split; [vm_compute; reflexivity|].
      split; [vm_compute; reflexivity|]. repeat split.
    + eexists. split; [vm_compute; reflexivity|].
      split; [reflexivity|]. split; [reflexivity|]. split; [reflexivity|].
      repeat constructor.
    + vm_compute. reflexivity.
    + vm_compute. reflexivity.
Qed.

(** C9.  [meta.streak <= meta.bestStreak] holds for the default lifecycle
    record and is preserved by every run of [ensureRollover]: first run,
    same day, and day changed with the streak incremented or reset. *)
Theorem streak_never_exceeds_best :
  (Meta.streak DefaultMeta <= Meta.bestStreak DefaultMeta)%N
  /\ forall env s now,
       randomSource env ->
       Z.of_nat (length (questLibrary s)) < arrayLimit ->
       (Meta.streak (meta s) <= Meta.bestStreak (meta s))%N ->
       exists s',
         ensureRollover env now s = Some (tt, s')
         /\ (Meta.streak (meta s') <= Meta.bestStreak (meta s'))%N.
Proof.
  split; [reflexivity|].
  intros env s now Hsrc Hlen Hinv.
  pose proof (randomSource_shuffles env s Hsrc Hlen) as Hok.
  destruct (ensureRollover_total env now s Hok)
    as (m & created & s' & Hrun & (sums & rc & uc & Hs') & _ & Hm).
  exists s'. split; [exact Hrun|]. rewrite Hs'. simpl. rewrite Hm.
  destruct (Meta.lastAssignmentRun (meta s)) as [prev|]; [|exact Hinv].
  destruct (bool_decide _); [|exact Hinv].
  destruct (dayChangedMeta_streak env s prev (Clock.todayStr (utcOffset env) now))
    as [-> ->].
  now apply updateStreak_invariant.
Qed.

(** A day-changed run that raises the streak from 2 to 3, below the best
    streak 5. *)
Lemma streak_never_exceeds_best_witness :
  exists s',
    ensureRollover (zoneEnv 0) Clock.msPerDay (thursdayState "binary" 1 1)
    = Some (tt, s')
    /\ (Meta.streak (meta s') <= Meta.bestStreak (meta s'))%N.
Proof.
  refine (proj2 streak_never_exceeds_best (zoneEnv 0)
            (thursdayState "binary" 1 1) Clock.msPerDay
            (zoneEnv_randomSource 0) _ _).
  - vm_compute. reflexivity.
  - vm_compute. discriminate.
Defined.

(** C2, as the code has it.  A day-changed run of [ensureRollover] succeeds
    and applies one streak update, for the previous day
    [prev = lastAssignmentRun]: if the summary recomputed for [prev] has
    [goalMet] and [allScheduledHabitsComplete(prev)] holds, [streak] grows by
    exactly 1 and [bestStreak] becomes the larger of its old value and the
    new streak; otherwise [streak] becomes 0 and [bestStreak] stays.  In
    particular, at or east of UTC, the streak is reset when the goal was met
    but a habit scheduled for [prev], binary or with a target that is not
    negative, has its log at count 0. *)
Theorem day_change_updates_streak : streakUpdateLaw eastOfUTC zeroIsIncomplete.
Proof.
  intros env s now prev Hsrc Hlen Hlast Hne.
  pose proof (randomSource_shuffles env s Hsrc Hlen) as Hok.
  destruct (ensureRollover_day_changed env now s prev Hlast Hne Hok)
    as (created & s' & Hrun & (sums & rc & uc & Hs')).
  exists s'. split; [exact Hrun|]. rewrite Hs'. cbv zeta. cbn [meta].
  destruct (dayChangedMeta_streak env s prev (Clock.todayStr (utcOffset env) now))
    as [-> ->].
  split; [|split].
  - intros ->. apply updateStreak_true.
  - intros ->. split; reflexivity.
  - intros h log Hz Hg Hh Hs He Hf Hc.
    rewrite <- (weekdayOf_civil _ prev Hz) in Hs.
    rewrite (zero_count_incomplete env s prev h log Hh Hs He Hf Hc).
    rewrite andb_false_r. reflexivity.
Qed.

(** The goal (100) is met by a task worth 200, the binary habit of the
    previous day was left at count 0: the streak 2 falls to 0. *)
Lemma day_change_updates_streak_witness :
  exists s',
    ensureRollover (zoneEnv 0) Clock.msPerDay (thursdayState "binary" 1 0)
    = Some (tt, s')
    /\ Meta.streak (meta s') = 0%N
    /\ Meta.bestStreak (meta s') = 5%N.
Proof.
  destruct (day_change_updates_streak (zoneEnv 0) (thursdayState "binary" 1 0)
              Clock.msPerDay 0 (zoneEnv_randomSource 0))
    as (s' & Hrun & _ & Hreset & _).
  - vm_compute. reflexivity.
  - reflexivity.
  - vm_compute. discriminate.
  - exists s'. split; [exact Hrun|]. apply Hreset. vm_compute. reflexivity.
Defined.

(** C2 as the specification states it fails: a counter habit stored with
    target -1 and logged at count 0 passes the check, since
    [0 < (-1 || 1)] is false; with the goal met the streak grows from 2 to 3
    instead of being reset. *)
Lemma day_change_streak_not_as_claimed : ~ streakUpdateLaw anyZone anyHabit.
Proof.
  intros Hlaw.
  destruct (Hlaw (zoneEnv 0) (thursdayState "counter" (-1) 0) Clock.msPerDay 0
              (zoneEnv_randomSource 0))
    as (s' & Hrun & _ & _ & Hreset).
  - vm_compute. reflexivity.
  - reflexivity.
  - vm_compute. discriminate.
  - vm_compute in Hrun. inversion Hrun; subst s'; clear Hrun.
    assert (Hin : thursdayHabit "counter" (-1)
                  ∈ habits (thursdayState "counter" (-1) 0)) by left.
    specialize (Hreset (thursdayHabit "counter" (-1)) (thursdayLog 0)
                  I eq_refl Hin eq_refl I eq_refl eq_refl).
    vm_compute in Hreset. discriminate.
Qed.

(** Neither amendment of C2 can be dropped: west of UTC a binary habit
    scheduled on the weekday of [prev] and left at count 0 is not looked at
    and the streak grows, and the zone alone does not repair the negative
    target. *)
Lemma day_change_streak_needs_both :
  ~ streakUpdateLaw anyZone zeroIsIncomplete
  /\ ~ streakUpdateLaw eastOfUTC anyHabit.
Proof.
  split; intros Hlaw.
  - destruct (Hlaw (zoneEnv (-5 * hourMs)) (thursdayState "binary" 1 0)
                (2 * Clock.msPerDay) 0 (zoneEnv_randomSource _))
      as (s' & Hrun & _ & _ & Hreset).
    + vm_compute. reflexivity.
    + reflexivity.
    + vm_compute. discriminate.
    + vm_compute in Hrun. inversion Hrun; subst s'; clear Hrun.
      assert (Hin : thursdayHabit "binary" 1
                    ∈ habits (thursdayState "binary" 1 0)) by left.
      specialize (Hreset (thursdayHabit "binary" 1) (thursdayLog 0)
                    I eq_refl Hin eq_refl (or_introl eq_refl) eq_refl eq_refl).
      vm_compute in Hreset. discriminate.
  - assert (Hz : eastOfUTC (utcOffset (zoneEnv 0)))
      by (unfold eastOfUTC, Clock.msPerDay; simpl; lia).
    destruct (Hlaw (zoneEnv 0) (thursdayState "counter" (-1) 0) Clock.msPerDay 0
                (zoneEnv_randomSource 0))
      as (s' & Hrun & _ & _ & Hreset).
    + vm_compute. reflexivity.
    + reflexivity.
    + vm_compute. discriminate.
    + vm_compute in Hrun. inversion Hrun; subst s'; clear Hrun.
      assert (Hin : thursdayHabit "counter" (-1)
                    ∈ habits (thursdayState "counter" (-1) 0)) by left.
      specialize (Hreset (thursdayHabit "counter" (-1)) (thursdayLog 0)
                    Hz eq_refl Hin eq_refl I eq_refl eq_refl).
      vm_compute in Hreset. discriminate.
Qed.

(** * Proofs: utilities, handlers and views *)

(** ** Days, windows and weeks *)

Lemma todayStr_spec tz t d :
  Clock.todayStr tz t = d
  <-> d * Clock.msPerDay <= t + tz < (d + 1) * Clock.msPerDay.
Proof.
  unfold Clock.todayStr, Clock.msPerDay. split.
  - intros <-. pose proof (Z.div_mod (t + tz) 86400000 ltac:(lia)).
    pose proof (Z.mod_pos_bound (t + tz) 86400000 ltac:(lia)). lia.
  - intros H. symmetry. apply Z.div_unique with (r := t + tz - d * 86400000); lia.
Qed.

Lemma inDay_spec env d comp :
  inDay env d comp = true <-> Clock.todayStr (utcOffset env) comp = d.
Proof.
  rewrite todayStr_spec. unfold inDay, Clock.dateEnd, Clock.dateStart, Clock.msPerDay.
  rewrite andb_true_iff, !Z.leb_le. lia.
Qed.

Lemma todayStr_parseDateOnly tz d :
  - Clock.msPerDay <= tz < Clock.msPerDay ->
  Clock.todayStr tz (Clock.parseDateOnly d) = if 0 <=? tz then d else d - 1.
Proof.
  intros Htz. apply todayStr_spec. unfold Clock.parseDateOnly, Clock.msPerDay in *.
  destruct (Z.leb_spec 0 tz); lia.
Qed.

Lemma todayStr_dateStart tz d : Clock.todayStr tz (Clock.dateStart tz d) = d.
Proof.
  apply todayStr_spec. unfold Clock.dateStart, Clock.msPerDay. lia.
Qed.

(** X1.  The window of [computeDayTotals]: a completion instant lies between
    [dateStr + 'T00:00:00'] and [dateStr + 'T23:59:59.999'] exactly when
    [todayStr] of that instant is [dateStr], in every time zone. *)
Theorem completion_counts_on_its_local_day :
  forall env d comp,
    inDay env d comp = true <-> Clock.todayStr (utcOffset env) comp = d.
Proof. exact inDay_spec. Qed.

(** X2.  A date key read back with [new Date(dateStr)], which is UTC midnight:
    at or east of UTC, [todayStr(dateStr)] is [dateStr] again and
    [isSameDay(comp, dateStr)] agrees with the window of [computeDayTotals];
    west of UTC both answer for the day before [dateStr]. *)
Theorem date_key_read_back_by_zone :
  forall env d comp,
    (0 <= utcOffset env < Clock.msPerDay ->
     Clock.todayStr (utcOffset env) (Clock.parseDateOnly d) = d
     /\ isSameDay env comp (Clock.parseDateOnly d) = inDay env d comp)
    /\ (- Clock.msPerDay <= utcOffset env < 0 ->
        Clock.todayStr (utcOffset env) (Clock.parseDateOnly d) = d - 1
        /\ isSameDay env comp (Clock.parseDateOnly d) = inDay env (d - 1) comp).
Proof.
  intros env d comp.
  assert (Hsame : forall d', Clock.todayStr (utcOffset env) (Clock.parseDateOnly d) = d' ->
                    isSameDay env comp (Clock.parseDateOnly d) = inDay env d' comp).
  { intros d' Hd. unfold isSameDay. rewrite Hd.
    destruct (inDay env d' comp) eqn:Hin.
    - apply inDay_spec in Hin. now apply bool_decide_eq_true.
    - apply bool_decide_eq_false. intros H. apply inDay_spec in H. congruence. }
  split; intros Htz.
  - assert (H := todayStr_parseDateOnly (utcOffset env) d ltac:(unfold Clock.msPerDay in *; lia)).
    destruct (Z.leb_spec 0 (utcOffset env)); [|lia]. split; [exact H|now apply Hsame].
  - assert (H := todayStr_parseDateOnly (utcOffset env) d ltac:(unfold Clock.msPerDay in *; lia)).
    destruct (Z.leb_spec 0 (utcOffset env)); [lia|]. split; [exact H|now apply Hsame].
Qed.

Lemma date_key_read_back_by_zone_witness :
  Clock.todayStr 0 (Clock.parseDateOnly 0) = 0
  /\ Clock.todayStr (- 5 * hourMs) (Clock.parseDateOnly 0) = -1.
Proof.
  split.
  - refine (proj1 (proj1 (date_key_read_back_by_zone (zoneEnv 0) 0 hourMs) _)).
    vm_compute. split; [discriminate|reflexivity].
  - refine (proj1 (proj2 (date_key_read_back_by_zone
                            (zoneEnv (- 5 * hourMs)) 0 hourMs) _)).
    vm_compute. split; [discriminate|reflexivity].
Defined.

Lemma civilWeekday_of_index d k name :
  (d + 4) mod 7 = k -> Clock.weekdays !! Z.to_nat k = Some name ->
  Clock.civilWeekday d = name.
Proof. intros Hk Hn. unfold Clock.civilWeekday. now rewrite Hk, Hn. Qed.

Lemma startOfWeek_spec tz date ws :
  let w := Clock.startOfWeek tz date ws in
  w <= Clock.todayStr tz date < w + 7
  /\ (w + 4) mod 7 = (if String.eqb ws "Mon" then 1 else 0).
Proof.
  unfold Clock.startOfWeek, Clock.getDay. cbv zeta.
  set (t := Clock.todayStr tz date).
  pose proof (Z.mod_pos_bound (t + 4) 7 ltac:(lia)) as Hb.
  pose proof (Z.div_mod (t + 4) 7 ltac:(lia)) as Hdm.
  set (r := (t + 4) mod 7) in *. set (q := (t + 4) / 7) in *.
  destruct (String.eqb ws "Mon").
  - destruct (Z.eqb_spec r 0) as [H0|H0].
    + split; [lia|]. symmetry. apply Z.mod_unique with (q := q - 1); lia.
    + split; [lia|]. symmetry. apply Z.mod_unique with (q := q); lia.
  - split; [lia|]. symmetry. apply Z.mod_unique with (q := q); lia.
Qed.

Lemma week_start_unique w w' t k :
  w <= t < w + 7 -> w' <= t < w' + 7 ->
  (w + 4) mod 7 = k -> (w' + 4) mod 7 = k -> w = w'.
Proof.
  intros Hw Hw' Hk Hk'.
  pose proof (Z.div_mod (w + 4) 7 ltac:(lia)).
  pose proof (Z.div_mod (w' + 4) 7 ltac:(lia)).
  pose proof (Z.mod_pos_bound (w + 4) 7 ltac:(lia)).
  lia.
Qed.

(** X3.  [startOfWeek(date, weekStart)] is the first day of the week of [date]:
    it is the local day of [date] or one of the six days before it, it is a
    Monday when [weekStart] is 'Mon' and a Sunday otherwise, and every
    instant of the seven days that start with it has the same
    [startOfWeek]. *)
Theorem startOfWeek_is_the_week_start :
  forall tz date ws,
    let w := Clock.startOfWeek tz date ws in
    w <= Clock.todayStr tz date < w + 7
    /\ Clock.civilWeekday w = (if String.eqb ws "Mon" then "Mon" else "Sun")%string
    /\ (forall date', w <= Clock.todayStr tz date' < w + 7 ->
                      Clock.startOfWeek tz date' ws = w).
Proof.
  intros tz date ws w.
  destruct (startOfWeek_spec tz date ws) as [Hr Hm]. fold w in Hr, Hm.
  split; [exact Hr|]. split.
  - destruct (String.eqb ws "Mon").
    + now apply (civilWeekday_of_index w 1).
    + now apply (civilWeekday_of_index w 0).
  - intros date' Hd.
    destruct (startOfWeek_spec tz date' ws) as [Hr' Hm'].
    apply (week_start_unique _ _ (Clock.todayStr tz date') _ Hr' Hd Hm' Hm).
Qed.

Lemma startOfWeek_is_the_week_start_witness :
  Clock.startOfWeek 0 (exampleNow + Clock.msPerDay) "Mon"
  = Clock.startOfWeek 0 exampleNow "Mon".
Proof.
  refine (proj2 (proj2 (startOfWeek_is_the_week_start 0 exampleNow "Mon")) _ _).
  vm_compute. split; [discriminate|reflexivity].
Defined.

(** ** The total as a sum *)

Lemma sumZ_perm l1 l2 : l1 ≡ₚ l2 -> sumZ l1 = sumZ l2.
Proof. unfold sumZ. induction 1; simpl; lia. Qed.

Section FoldSum.
Context {B : Type} (f : Z -> B -> Z).
Hypothesis f_shift : forall t k y, f (t + k) y = f t y + k.

Lemma foldl_sumZ (l : list B) (a : Z) : foldl f a l = a + sumZ (f 0 <$> l).
Proof.
  revert a. induction l as [|y l IH]; intros a.
  - cbn. lia.
  - rewrite fmap_cons. cbn [foldl]. rewrite IH.
    replace (f a y) with (f 0 y + a) by (rewrite <- f_shift; f_equal; lia).
    change (sumZ (f 0 y :: (f 0 <$> l))) with (f 0 y + sumZ (f 0 <$> l)). lia.
Qed.
End FoldSum.

Lemma exactTotal_sum env s d :
  exactTotal env s d
  = sumZ (taskStepZ env d 0 <$> tasks s)
    + sumZ (habitStepZ s (Clock.weekdayOf (utcOffset env) d) 0 <$> logsOf s d)
    + sumZ (eventStepZ env d 0 <$> events s)
    + sumZ (questStepZ env s d 0 <$> assignedQuests s).
Proof.
  rewrite exactTotal_unfold.
  rewrite (foldl_sumZ _ (questStepZ_shift env s d)).
  rewrite (foldl_sumZ _ (eventStepZ_shift env d)).
  rewrite (foldl_sumZ _ (habitStepZ_shift s _)).
  rewrite (foldl_sumZ _ (taskStepZ_shift env d)). lia.
Qed.

Lemma exactTotal_credits env s d :
  exactTotal env s d = sumZ (dayCredits env s d).
Proof. rewrite exactTotal_sum. unfold dayCredits. rewrite !sumZ_app. lia. Qed.

Lemma dayCredits_perm env s s' d :
  habits s' = habits s ->
  questLibrary s' = questLibrary s ->
  tasks s' ≡ₚ tasks s ->
  habitLogs s' ≡ₚ habitLogs s ->
  events s' ≡ₚ events s ->
  assignedQuests s' ≡ₚ assignedQuests s ->
  dayCredits env s' d ≡ₚ dayCredits env s d.
Proof.
  intros Hh Hq Ht Hl He Ha. unfold dayCredits.
  assert (Hhs : forall w (l : list HabitLog.t),
             habitStepZ s' w 0 <$> l = habitStepZ s w 0 <$> l).
  { intros w l. apply list_fmap_ext. intros _ x _.
    unfold habitStepZ, findHabit. now rewrite Hh. }
  assert (Hqs : forall l : list AssignedQuest.t,
             questStepZ env s' d 0 <$> l = questStepZ env s d 0 <$> l).
  { intros l. apply list_fmap_ext. intros _ x _.
    unfold questStepZ, findQuest. now rewrite Hq. }
  rewrite Hhs, Hqs.
  assert (Hlogs : logsOf s' d ≡ₚ logsOf s d) by (unfold logsOf; now rewrite Hl).
  repeat apply Permutation_app; now apply fmap_Permutation.
Qed.

(** X4.  On a day whose points stay below 2^53, the summary does not depend
    on the order in which tasks, habit logs, events and assigned quests are
    stored: [computeDayTotals] gives the same summary when these arrays are
    permuted (settings, habits and quest library being the same). *)
Theorem day_total_ignores_storage_order :
  forall env s s' d,
    settings s' = settings s ->
    habits s' = habits s ->
    questLibrary s' = questLibrary s ->
    tasks s' ≡ₚ tasks s ->
    habitLogs s' ≡ₚ habitLogs s ->
    events s' ≡ₚ events s ->
    assignedQuests s' ≡ₚ assignedQuests s ->
    exactDay env s d ->
    computeDayTotals env s' d = computeDayTotals env s d.
Proof.
  intros env s s' d Hst Hh Hq Ht Hl He Ha Hex.
  pose proof (dayCredits_perm env s s' d Hh Hq Ht Hl He Ha) as Hp.
  assert (Hex' : exactDay env s' d).
  { unfold exactDay, absTotal in *.
    now rewrite (sumZ_perm _ _ (fmap_Permutation Z.abs _ _ Hp)). }
  apply computeDayTotals_ext; [exact Hst|].
  rewrite (dayTotal_exact _ _ _ Hex), (dayTotal_exact _ _ _ Hex').
  rewrite !exactTotal_credits. now apply sumZ_perm.
Qed.

Lemma day_total_ignores_storage_order_witness :
  computeDayTotals (zoneEnv 0)
    (doneTasksState (doneTask "t3" 50) (doneTask "t2" 30) (doneTask "t1" 20)) 0
  = computeDayTotals (zoneEnv 0)
      (doneTasksState (doneTask "t1" 20) (doneTask "t2" 30) (doneTask "t3" 50)) 0
  /\ DaySummary.totalPoints
       (computeDayTotals (zoneEnv 0)
          (doneTasksState (doneTask "t1" 20) (doneTask "t2" 30)
             (doneTask "t3" 50)) 0) = 100.
Proof.
  split; [|vm_compute; reflexivity].
  apply day_total_ignores_storage_order; try reflexivity.
  exact (Permutation_rev
           [doneTask "t3" 50; doneTask "t2" 30; doneTask "t1" 20]).
Defined.

(** From 2^53 on the order matters: after a task worth 2^53 two tasks worth
    1 are each rounded away, before it they count. *)
Lemma day_total_depends_on_order_from_2_53 :
  dayTotal (zoneEnv 0)
    (doneTasksState (doneTask "t1" (2 ^ 53)) (doneTask "t2" 1) (doneTask "t3" 1)) 0
  = 2 ^ 53
  /\ dayTotal (zoneEnv 0)
       (doneTasksState (doneTask "t2" 1) (doneTask "t3" 1)
          (doneTask "t1" (2 ^ 53))) 0
     = 2 ^ 53 + 2.
Proof. split; vm_compute; reflexivity. Qed.

(** ** What a rollover leaves behind *)

(** Quests that are not completed add nothing to any total. *)
Lemma questStep_open env s d a aq :
  AssignedQuest.completedAt aq = None -> questStep env s d a aq = a.
Proof. intros H. unfold questStep. now rewrite H. Qed.

Lemma foldl_questStep_open env s d a extra :
  Forall (fun aq => AssignedQuest.completedAt aq = None) extra ->
  foldl (questStep env s d) a extra = a.
Proof.
  intros H. revert a. induction H as [|aq extra Haq _ IH]; intros a; simpl;
    [reflexivity|]. now rewrite questStep_open.
Qed.

(** The total reads the tasks, habits, logs, events, library and quests,
    and nothing else; quests that are not completed do not count. *)
Lemma dayTotal_frame env s s' d extra :
  tasks s' = tasks s -> habits s' = habits s -> habitLogs s' = habitLogs s ->
  events s' = events s -> questLibrary s' = questLibrary s ->
  assignedQuests s' = assignedQuests s ++ extra ->
  Forall (fun aq => AssignedQuest.completedAt aq = None) extra ->
  dayTotal env s' d = dayTotal env s d.
Proof.
  intros Ht Hh Hl He Hq Ha Hx. rewrite !dayTotal_unfold.
  destruct s, s'. simpl in *. subst.
  rewrite foldl_app, foldl_questStep_open by assumption. reflexivity.
Qed.

Lemma computeDayTotals_frame env s s' d extra :
  settings s' = settings s ->
  tasks s' = tasks s -> habits s' = habits s -> habitLogs s' = habitLogs s ->
  events s' = events s -> questLibrary s' = questLibrary s ->
  assignedQuests s' = assignedQuests s ++ extra ->
  Forall (fun aq => AssignedQuest.completedAt aq = None) extra ->
  computeDayTotals env s' d = computeDayTotals env s d.
Proof.
  intros Hs Ht Hh Hl He Hq Ha Hx. apply computeDayTotals_ext; [exact Hs|].
  now apply (dayTotal_frame env s s' d extra).
Qed.

Lemma drawnFrom_elem pool chosen q :
  drawnFrom pool chosen -> q ∈ chosen -> q ∈ pool.
Proof.
  intros [rest Hp] Hq. rewrite <- Hp. apply elem_of_app. now left.
Qed.

Lemma mkDaily_new env s today u chosen :
  drawnFrom (activePool s) chosen ->
  Forall (fun aq => newQuest s aq /\ dailyQuestFor today aq)
    (imap (mkDaily env today u) chosen).
Proof.
  intros Hd. apply Forall_forall. intros aq Hin.
  apply elem_of_lookup_imap in Hin as (i & q & -> & Hq).
  split; [split; [reflexivity|]|repeat split].
  exists q. split; [|reflexivity].
  apply (drawnFrom_elem _ chosen); [assumption|]. eapply list_elem_of_lookup_2, Hq.
Qed.

Lemma mkWeekly_new env s week f u chosen :
  drawnFrom (activePool s) chosen ->
  Forall (fun aq => newQuest s aq /\ weeklyQuestFor week f aq)
    (imap (mkWeekly env week f u) chosen).
Proof.
  intros Hd. apply Forall_forall. intros aq Hin.
  apply elem_of_lookup_imap in Hin as (i & q & -> & Hq).
  split; [split; [reflexivity|]|repeat split].
  exists q. split; [|reflexivity].
  apply (drawnFrom_elem _ chosen); [assumption|]. eapply list_elem_of_lookup_2, Hq.
Qed.

Lemma newQuest_open s l :
  Forall (fun aq => newQuest s aq) l ->
  Forall (fun aq => AssignedQuest.completedAt aq = None) l.
Proof. intros H. eapply Forall_impl; [exact H|]. now intros aq [Hc _]. Qed.

Lemma Forall_fst {A} (P Q : A -> Prop) l :
  Forall (fun x => P x /\ Q x) l -> Forall P l.
Proof. intros H. eapply Forall_impl; [exact H|]. now intros x [Hp _]. Qed.

Ltac state_fields :=
  cbn [settings meta tasks habits habitLogs events questLibrary assignedQuests
       daySummaries randomCalls uidCalls set_meta set_daySummaries
       set_randomCalls set_uidCalls set_assignedQuests].

(** The state a run of [ensureRollover] produces. *)
Lemma ensureRollover_effect env now s :
  randomOk env (Z.of_nat (length (activePool s))) ->
  let today := Clock.todayStr (utcOffset env) now in
  exists dailies weeklies rc uc,
    ensureRollover env now s
    = Some (tt, mkAppState (settings s) (rolloverMeta env s today) (tasks s)
                  (habits s) (habitLogs s) (events s) (questLibrary s)
                  (assignedQuests s ++ dailies ++ weeklies)
                  (rolloverSummaries env s today) rc uc)
    /\ Forall (fun aq => newQuest s aq /\ dailyQuestFor today aq) dailies
    /\ Forall (fun aq => newQuest s aq
                         /\ weeklyQuestFor (weekOfKey env s today)
                              (Settings.toNumber (Settings.weeklyFactor (settings s)))
                              aq) weeklies
    /\ Z.of_nat (length dailies)
       = (if bool_decide (Meta.lastAssignmentRun (meta s) = Some today) then 0
          else Z.min (Z.of_N (Settings.dailyQuestCount (settings s)))
                     (Z.of_nat (length (activePool s))))
    /\ (weeklies <> [] -> weekDue env s today).
Proof.
  intros Hok today. unfold rolloverMeta, rolloverSummaries, weekDue.
  destruct (Meta.lastAssignmentRun (meta s)) as [prev|] eqn:Hlast.
  - destruct (decide (prev = today)) as [->|Hne].
    + rewrite bool_decide_false by (intros H; now apply H).
      rewrite bool_decide_true by reflexivity.
      exists [], [], (randomCalls s), (uidCalls s).
      rewrite (ensureRollover_same_day env now s Hlast). fold today.
      rewrite !app_nil_r. split; [destruct s; reflexivity|].
      split; [constructor|]. split; [constructor|]. split; [reflexivity|].
      intros Hw; now contradiction Hw.
    + rewrite bool_decide_true by assumption.
      rewrite bool_decide_false by congruence.
      unfold ensureRollover, bind, gets. rewrite Hlast. fold today.
      rewrite bool_decide_true by assumption.
      unfold upsertDaySummary at 1. unfold modifyMeta, modify.
      match goal with |- context [assignDailyQuests env today ?st] =>
        destruct (assignDailyQuests_spec env today st Hok)
          as (ch1 & s1 & Hrun1 & Hd1 & Hl1 & (rc1 & uc1 & ->));
        rewrite Hrun1; clear Hrun1 end.
      unfold upsertDaySummary, ret. state_fields.
      change (allScheduledHabitsComplete env
                (set_daySummaries
                   (storeSummary (computeDayTotals env s prev) (daySummaries s)) s) prev)
        with (allScheduledHabitsComplete env s prev).
      unfold dayChangedMeta.
      set (m1 := updateStreak _ (meta s)).
      match goal with |- context [storeSummary (computeDayTotals env ?st today)] =>
        rewrite (computeDayTotals_frame env s st today
                   (imap (mkDaily env today (uidCalls s)) ch1));
          [|reflexivity..|] end.
      2:{ eapply newQuest_open, Forall_fst, mkDaily_new, Hd1. }
      cbv zeta. change (Clock.weekOf (utcOffset env) (Clock.parseDateOnly today)
                          (Settings.weekStart (settings s)))
        with (weekOfKey env s today).
      change (Clock.weekOf (utcOffset env) (Clock.parseDateOnly prev)
                (Settings.weekStart (settings s)))
        with (weekOfKey env s prev).
      assert (Hlw : Meta.lastWeekStart m1 = Meta.lastWeekStart (meta s)).
      { unfold m1, updateStreak. now destruct (_ && _). }
      destruct (bool_decide (weekOfKey env s today <> _)) eqn:Hweek.
      * match goal with |- context [assignWeeklyQuests env ?ws ?st] =>
          destruct (assignWeeklyQuests_spec env ws st Hok)
            as (ch2 & s2 & Hrun2 & Hd2 & _ & (rc2 & uc2 & ->));
          rewrite Hrun2; clear Hrun2 end.
        state_fields.
        eexists _, _, _, _. split; [rewrite <- app_assoc; reflexivity|].
        split; [now apply mkDaily_new|]. split; [now apply mkWeekly_new|].
        split; [rewrite length_imap; simpl in Hl1; exact Hl1|].
        intros _. split; [assumption|].
        apply bool_decide_eq_true in Hweek. now rewrite <- Hlw.
      * exists (imap (mkDaily env today (uidCalls s)) ch1), [], rc1, uc1.
        rewrite app_nil_r. split; [reflexivity|].
        split; [now apply mkDaily_new|]. split; [constructor|].
        split; [rewrite length_imap; simpl in Hl1; exact Hl1|].
        intros Hw; now contradiction Hw.
  - rewrite bool_decide_false by discriminate.
    unfold ensureRollover, bind, gets. rewrite Hlast. fold today.
    destruct (assignDailyQuests_spec env today s Hok)
      as (ch1 & s1 & Hrun1 & Hd1 & Hl1 & (rc1 & uc1 & ->)).
    rewrite Hrun1.
    match goal with |- context [assignWeeklyQuests env ?ws ?st] =>
      destruct (assignWeeklyQuests_spec env ws st Hok)
        as (ch2 & s2 & Hrun2 & Hd2 & _ & (rc2 & uc2 & ->)) end.
    rewrite Hrun2. unfold modifyMeta, modify, upsertDaySummary, ret. state_fields.
    match goal with |- context [storeSummary (computeDayTotals env ?st today)] =>
      rewrite (computeDayTotals_frame env s st today
                 (imap (mkDaily env today (uidCalls s)) ch1
                  ++ imap (mkWeekly env (weekOfKey env s today)
                             (Settings.toNumber (Settings.weeklyFactor (settings s)))
                             uc1) ch2));
        [|reflexivity..| |] end.
    2:{ state_fields. now rewrite <- app_assoc. }
    2:{ apply Forall_app. split.
        - eapply newQuest_open, Forall_fst, mkDaily_new, Hd1.
        - eapply newQuest_open, Forall_fst, mkWeekly_new, Hd2. }
    eexists _, _, _, _. split; [rewrite <- app_assoc; reflexivity|].
    split; [now apply mkDaily_new|]. split; [now apply mkWeekly_new|].
    split; [rewrite length_imap; exact Hl1|]. intros _. exact I.
Qed.

Lemma computeDayTotals_date env s d : DaySummary.date (computeDayTotals env s d) = d.
Proof. reflexivity. Qed.

Lemma cached_after_store s sums d sum :
  daySummaries s = storeSummary sum sums -> DaySummary.date sum = d ->
  cachedSummary s d = Some sum.
Proof.
  intros Hs <-. unfold cachedSummary. rewrite Hs. apply storeSummary_lookup.
Qed.

(** [weekOf] depends on the local day of its instant only, so that
    [weekOf(new Date(today))] is the week of [today] at or east of UTC and
    the week of the day before west of UTC. *)
Lemma weekOf_same_day tz a b ws :
  Clock.todayStr tz a = Clock.todayStr tz b ->
  Clock.weekOf tz a ws = Clock.weekOf tz b ws.
Proof.
  intros H. unfold Clock.weekOf, Clock.startOfWeek, Clock.getDay.
  now rewrite H.
Qed.

Lemma weekOfKey_east env s d :
  0 <= utcOffset env < Clock.msPerDay -> weekOfKey env s d = weekOfDay env s d.
Proof.
  intros Hz. apply weekOf_same_day.
  rewrite todayStr_dateStart, todayStr_parseDateOnly by lia.
  destruct (Z.leb_spec 0 (utcOffset env)); [reflexivity|lia].
Qed.

Lemma weekOfKey_west env s d :
  - Clock.msPerDay <= utcOffset env < 0 ->
  weekOfKey env s d = weekOfDay env s (d - 1).
Proof.
  intros Hz. apply weekOf_same_day.
  rewrite todayStr_dateStart, todayStr_parseDateOnly by lia.
  destruct (Z.leb_spec 0 (utcOffset env)); [lia|reflexivity].
Qed.



(** X6.  After [ensureRollover] the cached summary of today, and that of the
    day of the previous run, are the summaries [computeDayTotals] gives on
    the resulting state; the cached summary of every other day is left as
    it was. *)
Theorem rollover_leaves_fresh_summaries :
  forall env s now,
    randomSource env ->
    Z.of_nat (length (questLibrary s)) < arrayLimit ->
    let today := Clock.todayStr (utcOffset env) now in
    exists s',
      ensureRollover env now s = Some (tt, s')
      /\ cachedSummary s' today = Some (computeDayTotals env s' today)
      /\ (forall prev, Meta.lastAssignmentRun (meta s) = Some prev ->
                       cachedSummary s' prev = Some (computeDayTotals env s' prev))
      /\ (forall d, d <> today -> Meta.lastAssignmentRun (meta s) <> Some d ->
                    cachedSummary s' d = cachedSummary s d).
Proof.
  intros env s now Hsrc Hlen today.
  pose proof (randomSource_shuffles env s Hsrc Hlen) as Hok.
  destruct (ensureRollover_effect env now s Hok)
    as (D & W & rc & uc & Hrun & HD & HW & _ & _).
  fold today in Hrun, HD, HW.
  eexists. split; [exact Hrun|].
  match goal with |- context [cachedSummary ?st today] => set (s' := st) end.
  assert (Hcdt : forall d, computeDayTotals env s' d = computeDayTotals env s d).
  { intros d. apply (computeDayTotals_frame env s s' d (D ++ W)); try reflexivity.
    apply Forall_app. split; eapply newQuest_open, Forall_fst; eassumption. }
  assert (Htoday : cachedSummary s' today = Some (computeDayTotals env s' today)).
  { rewrite Hcdt. unfold cachedSummary, s'. cbn [daySummaries].
    apply (storeSummary_lookup (computeDayTotals env s today)). }
  split; [exact Htoday|]. split.
  - intros prev Hlast. destruct (decide (prev = today)) as [->|Hne]; [exact Htoday|].
    rewrite Hcdt. unfold cachedSummary, s'. cbn [daySummaries].
    unfold rolloverSummaries. rewrite Hlast, bool_decide_true by assumption.
    rewrite storeSummary_other by (rewrite computeDayTotals_date; assumption).
    apply (storeSummary_lookup (computeDayTotals env s prev)).
  - intros d Hd Hlast. unfold cachedSummary, s'. cbn [daySummaries].
    unfold rolloverSummaries.
    rewrite storeSummary_other by (rewrite computeDayTotals_date; assumption).
    destruct (Meta.lastAssignmentRun (meta s)) as [prev|]; [|reflexivity].
    destruct (bool_decide (prev <> today)); [|reflexivity].
    rewrite storeSummary_other; [reflexivity|].
    rewrite computeDayTotals_date. congruence.
Qed.

Lemma rollover_leaves_fresh_summaries_witness :
  exists s',
    ensureRollover (zoneEnv 0) Clock.msPerDay (thursdayState "binary" 1 1)
    = Some (tt, s')
    /\ cachedSummary s' 1 = Some (computeDayTotals (zoneEnv 0) s' 1)
    /\ cachedSummary s' 0 = Some (computeDayTotals (zoneEnv 0) s' 0).
Proof.
  destruct (rollover_leaves_fresh_summaries (zoneEnv 0)
              (thursdayState "binary" 1 1) Clock.msPerDay
              (zoneEnv_randomSource 0))
    as (s' & Hrun & Htoday & Hprev & _).
  - vm_compute. reflexivity.
  - exists s'. split; [exact Hrun|]. split; [exact Htoday|].
    apply Hprev. reflexivity.
Defined.

(** X7.  In a time zone at or east of UTC, a call of [ensureRollover] that
    no other call overlaps leaves [meta.lastAssignmentRun] at today and, if
    [meta.lastWeekStart] was the week of the previous run's day, also
    [meta.lastWeekStart] at the week of today; when today lies in the week
    of the previous run's day, only daily quests are assigned. *)
Theorem week_start_stays_in_sync :
  forall env s now,
    randomSource env ->
    Z.of_nat (length (questLibrary s)) < arrayLimit ->
    0 <= utcOffset env < Clock.msPerDay ->
    weekInSync env s ->
    let today := Clock.todayStr (utcOffset env) now in
    exists created s',
      ensureRollover env now s = Some (tt, s')
      /\ assignedQuests s' = assignedQuests s ++ created
      /\ Meta.lastAssignmentRun (meta s') = Some today
      /\ Meta.lastWeekStart (meta s') = Some (weekOfDay env s' today)
      /\ weekInSync env s'
      /\ (forall prev, Meta.lastAssignmentRun (meta s) = Some prev ->
                       weekOfDay env s today = weekOfDay env s prev ->
                       Forall (dailyQuestFor today) created).
Proof.
  intros env s now Hsrc Hlen Hz Hsync' today.
  assert (Hkey : forall d, weekOfKey env s d = weekOfDay env s d)
    by (intros d; now apply weekOfKey_east).
  assert (Hsync : forall d, Meta.lastAssignmentRun (meta s) = Some d ->
                            Meta.lastWeekStart (meta s) = Some (weekOfKey env s d)).
  { intros d Hd. rewrite Hkey. now apply Hsync'. }
  pose proof (randomSource_shuffles env s Hsrc Hlen) as Hok.
  destruct (ensureRollover_effect env now s Hok)
    as (D & W & rc & uc & Hrun & HD & HW & _ & HWdue).
  fold today in Hrun, HD, HW, HWdue.
  exists (D ++ W). eexists. split; [exact Hrun|]. split; [reflexivity|].
  cbn [meta].
  match goal with |- context [weekInSync env ?st] => set (s' := st) end.
  change (weekOfDay env s' today) with (weekOfDay env s today).
  assert (Hm : Meta.lastAssignmentRun (rolloverMeta env s today) = Some today
               /\ Meta.lastWeekStart (rolloverMeta env s today)
                  = Some (weekOfKey env s today)).
  { unfold rolloverMeta.
    destruct (Meta.lastAssignmentRun (meta s)) as [prev|] eqn:Hlast.
    - destruct (decide (prev = today)) as [->|Hne].
      + rewrite bool_decide_false by (intros H; now apply H).
        split; [assumption|now apply Hsync].
      + rewrite bool_decide_true by assumption.
        unfold dayChangedMeta. cbv zeta.
        set (m1 := updateStreak _ (meta s)).
        assert (Hlw : Meta.lastWeekStart m1 = Some (weekOfKey env s prev)).
        { unfold m1, updateStreak. destruct (_ && _); cbn; now apply Hsync. }
        rewrite Hlw. fold (weekOfKey env s today).
        destruct (decide (weekOfKey env s today = weekOfKey env s prev)) as [He|He].
        * rewrite bool_decide_false by (intros H; now apply H).
          split; [reflexivity|]. cbn. congruence.
        * rewrite bool_decide_true by assumption. split; reflexivity.
    - split; reflexivity. }
  destruct Hm as [Hrunday Hweek]. rewrite Hkey in Hweek.
  split; [exact Hrunday|]. split; [exact Hweek|]. split.
  - intros d Hd. unfold s' in Hd |- *. cbn [meta] in Hd |- *.
    rewrite Hrunday in Hd. inversion Hd; subst d. exact Hweek.
  - intros prev Hlast Hsame. rewrite <- !Hkey in Hsame.
    assert (HWnil : W = []).
    { destruct W as [|w W]; [reflexivity|exfalso].
      assert (Hdue : weekDue env s today) by (apply HWdue; discriminate).
      unfold weekDue in Hdue. rewrite Hlast in Hdue. destruct Hdue as [_ Hdue].
      rewrite (Hsync prev Hlast) in Hdue. congruence. }
    subst W. rewrite app_nil_r.
    eapply Forall_impl; [exact HD|]. now intros aq [_ Hd].
Qed.

Lemma week_start_stays_in_sync_witness :
  exists s',
    ensureRollover (zoneEnv 0) Clock.msPerDay (thursdayState "binary" 1 1)
    = Some (tt, s')
    /\ Meta.lastAssignmentRun (meta s') = Some 1
    /\ Meta.lastWeekStart (meta s') = Some (weekOfDay (zoneEnv 0) s' 1)
    /\ weekInSync (zoneEnv 0) s'.
Proof.
  destruct (week_start_stays_in_sync (zoneEnv 0)
              (thursdayState "binary" 1 1) Clock.msPerDay
              (zoneEnv_randomSource 0))
    as (created & s' & Hrun & _ & Hlast & Hweek & Hsync & _).
  - vm_compute. reflexivity.
  - vm_compute. split; [discriminate|reflexivity].
  - intros d Hd. injection Hd as <-. reflexivity.
  - exists s'. split; [exact Hrun|]. split; [exact Hlast|].
    split; [exact Hweek|exact Hsync].
Defined.

(** West of UTC the week recorded is the one of the day before: five hours
    west, a run on Monday 5 January 1970 leaves [meta.lastWeekStart] at
    Monday 29 December 1969. *)
Lemma week_start_lags_west_of_utc :
  let env := zoneEnv (- 5 * hourMs) in
  let now := 4 * Clock.msPerDay + 12 * hourMs in
  exists s',
    ensureRollover env now (thursdayState "binary" 1 1) = Some (tt, s')
    /\ Clock.todayStr (utcOffset env) now = 4
    /\ Meta.lastWeekStart (meta s') = Some (-3)
    /\ weekOfDay env s' 4 = 4.
Proof.
  cbv zeta. eexists. split; [vm_compute; reflexivity|].
  split; [vm_compute; reflexivity|]. split; vm_compute; reflexivity.
Qed.

(** X8.  When the application was not opened for some days, the streak does
    not depend on how many: two runs of [ensureRollover] from the same
    state, on any two days other than the day of the previous run, leave
    the same streak, the same best streak and the same summary of the
    previous run's day.  Only that day is evaluated; the days in between
    neither reset nor extend the streak. *)
Theorem missed_days_do_not_touch_the_streak :
  forall env s now1 now2 prev,
    randomSource env ->
    Z.of_nat (length (questLibrary s)) < arrayLimit ->
    Meta.lastAssignmentRun (meta s) = Some prev ->
    prev <> Clock.todayStr (utcOffset env) now1 ->
    prev <> Clock.todayStr (utcOffset env) now2 ->
    exists s1 s2,
      ensureRollover env now1 s = Some (tt, s1)
      /\ ensureRollover env now2 s = Some (tt, s2)
      /\ Meta.streak (meta s1) = Meta.streak (meta s2)
      /\ Meta.bestStreak (meta s1) = Meta.bestStreak (meta s2)
      /\ cachedSummary s1 prev = cachedSummary s2 prev.
Proof.
  intros env s now1 now2 prev Hsrc Hlen Hlast Hne1 Hne2.
  pose proof (randomSource_shuffles env s Hsrc Hlen) as Hok.
  destruct (ensureRollover_effect env now1 s Hok)
    as (D1 & W1 & rc1 & uc1 & Hrun1 & _).
  destruct (ensureRollover_effect env now2 s Hok)
    as (D2 & W2 & rc2 & uc2 & Hrun2 & _).
  eexists _, _. split; [exact Hrun1|]. split; [exact Hrun2|].
  cbn [meta]. unfold rolloverMeta. rewrite Hlast, !bool_decide_true by assumption.
  destruct (dayChangedMeta_streak env s prev (Clock.todayStr (utcOffset env) now1))
    as [-> ->].
  destruct (dayChangedMeta_streak env s prev (Clock.todayStr (utcOffset env) now2))
    as [-> ->].
  split; [reflexivity|]. split; [reflexivity|].
  unfold cachedSummary. cbn [daySummaries]. unfold rolloverSummaries.
  rewrite Hlast, !bool_decide_true by assumption.
  rewrite (storeSummary_other (computeDayTotals env s (Clock.todayStr (utcOffset env) now1)))
    by (rewrite computeDayTotals_date; assumption).
  rewrite (storeSummary_other (computeDayTotals env s (Clock.todayStr (utcOffset env) now2)))
    by (rewrite computeDayTotals_date; assumption).
  reflexivity.
Qed.

Lemma missed_days_do_not_touch_the_streak_witness :
  exists s1 s2,
    ensureRollover (zoneEnv 0) Clock.msPerDay (thursdayState "binary" 1 1)
    = Some (tt, s1)
    /\ ensureRollover (zoneEnv 0) (30 * Clock.msPerDay)
         (thursdayState "binary" 1 1) = Some (tt, s2)
    /\ Meta.streak (meta s1) = Meta.streak (meta s2)
    /\ Meta.bestStreak (meta s1) = Meta.bestStreak (meta s2).
Proof.
  destruct (missed_days_do_not_touch_the_streak (zoneEnv 0)
              (thursdayState "binary" 1 1) Clock.msPerDay
              (30 * Clock.msPerDay) 0 (zoneEnv_randomSource 0))
    as (s1 & s2 & H1 & H2 & Hs & Hb & _).
  - vm_compute. reflexivity.
  - reflexivity.
  - vm_compute. discriminate.
  - vm_compute. discriminate.
  - exists s1, s2. repeat split; assumption.
Defined.

(** X9.  A tick of the midnight watcher does what [ensureRollover] does: if
    the day does not change between the two clock reads, the callback of
    [tickMidnightWatcher] and [ensureRollover] leave the same state,
    whether or not a rollover is due. *)
Theorem midnight_tick_is_a_rollover :
  forall env clock s,
    Clock.todayStr (utcOffset env) (clock 0%nat)
    = Clock.todayStr (utcOffset env) (clock 1%nat) ->
    midnightTick env clock s = ensureRollover env (clock 1%nat) s.
Proof.
  intros env clock s Hday. unfold midnightTick, bind, gets.
  destruct (decide (Meta.lastAssignmentRun (meta s)
                    = Some (Clock.todayStr (utcOffset env) (clock 0%nat)))) as [Hl|Hl].
  - rewrite bool_decide_false by (intros H; now apply H).
    rewrite Hday in Hl |- *. now rewrite (ensureRollover_same_day env _ s Hl).
  - rewrite bool_decide_true by congruence. reflexivity.
Qed.

Lemma midnight_tick_is_a_rollover_witness :
  midnightTick (zoneEnv 0) noonClock busyState
  = ensureRollover (zoneEnv 0) (noonClock 1) busyState.
Proof.
  apply midnight_tick_is_a_rollover. vm_compute. reflexivity.
Defined.

(** ** Click handlers *)

(** The entry a [find] returns splits the array around its position. *)
Lemma list_find_split {A} (P : A -> Prop) `{!forall x, Decision (P x)}
    (l : list A) (i : nat) (x : A) :
  list_find P l = Some (i, x) ->
  exists l1 l2, l = l1 ++ x :: l2 /\ length l1 = i /\ P x
                /\ (forall y, <[i := y]> l = l1 ++ y :: l2).
Proof.
  intros Hf. apply list_find_Some in Hf as (Hi & Hx & _).
  exists (take i l), (drop (S i) l).
  assert (Hlen : length (take i l) = i).
  { rewrite length_take. apply lookup_lt_Some in Hi. lia. }
  split; [now rewrite take_drop_middle|]. split; [exact Hlen|]. split; [exact Hx|].
  intros y. rewrite <- (take_drop_middle l i x Hi) at 1.
  rewrite <- Hlen at 1. rewrite insert_app_r_alt by lia.
  now rewrite Nat.sub_diag.
Qed.

Lemma dayTotal_set_daySummaries env s sums d :
  dayTotal env (set_daySummaries sums s) d = dayTotal env s d.
Proof. reflexivity. Qed.

Lemma computeDayTotals_set_daySummaries env s sums d :
  computeDayTotals env (set_daySummaries sums s) d = computeDayTotals env s d.
Proof. reflexivity. Qed.

(** After [upsertDaySummary(d)] the cached summary of [d] is the one a
    fresh computation gives, and the other cached summaries are as before. *)
Lemma upsert_fresh env s d :
  let s' := set_daySummaries
              (storeSummary (computeDayTotals env s d) (daySummaries s)) s in
  cachedSummary s' d = Some (computeDayTotals env s' d)
  /\ forall d', d' <> d -> cachedSummary s' d' = cachedSummary s d'.
Proof.
  cbv zeta. split.
  - apply (storeSummary_lookup (computeDayTotals env s d)).
  - intros d' Hd. unfold cachedSummary. cbn [daySummaries set_daySummaries].
    now rewrite storeSummary_other.
Qed.

Lemma taskStepZ_credit env d a t :
  taskStepZ env d a t
  = a + match Task.completedAt t with
        | Some comp => onDayOf env comp d (taskCredit t comp)
        | None => 0
        end.
Proof.
  unfold taskStepZ, onDayOf, taskCredit.
  destruct (Task.completedAt t) as [comp|]; [|lia].
  destruct (inDay env d comp) eqn:Hin.
  - apply inDay_spec in Hin. rewrite bool_decide_true by assumption.
    destruct (Task.dueDate t); [destruct (_ <=? _)|]; lia.
  - rewrite bool_decide_false; [lia|]. intros H. apply inDay_spec in H. congruence.
Qed.

(** X10.  [toggleTask] on a stored task flips [completedAt] of the first task
    with that id and recomputes today's cached summary, leaving the other
    cached days.  Completing an open task adds its credit (its points, or 0
    once the due date has passed) to the total of the local day of the
    click and to no other day; undoing a completed task takes its credit
    from the total of the day it was completed on, which need not be
    today.  Both on a day whose points, with the task completed, stay
    below 2^53, where [total += pts] is exact. *)
Theorem toggling_a_task_moves_its_points :
  forall env clock id s i t,
    list_find (fun x => Task.id x = id) (tasks s) = Some (i, t) ->
    let today := Clock.todayStr (utcOffset env) (clock 1%nat) in
    let t' := Task.mk (Task.id t) (Task.points t) (Task.dueDate t)
                (toggled (Task.completedAt t) (clock 0%nat)) in
    exists s',
      toggleTask env clock id s = Some (tt, s')
      /\ tasks s' = <[i := t']> (tasks s)
      /\ cachedSummary s' today = Some (computeDayTotals env s' today)
      /\ (forall d, d <> today -> cachedSummary s' d = cachedSummary s d)
      /\ (Task.completedAt t = None ->
          forall d, exactDay env s' d ->
                    dayTotal env s' d
                    = dayTotal env s d
                      + onDayOf env (clock 0%nat) d (taskCredit t (clock 0%nat)))
      /\ (forall comp, Task.completedAt t = Some comp ->
          forall d, exactDay env s d ->
                    dayTotal env s' d
                    = dayTotal env s d - onDayOf env comp d (taskCredit t comp)).
Proof.
  intros env clock id s i t Hf today t'.
  unfold toggleTask, bind, gets. rewrite Hf. fold t'.
  unfold modify, upsertDaySummary, ret. fold today.
  eexists. split; [reflexivity|].
  set (s1 := set_tasks (<[i := t']> (tasks s)) s).
  split; [reflexivity|].
  destruct (upsert_fresh env s1 today) as [Hfresh Hother].
  split; [exact Hfresh|]. split; [exact Hother|].
  destruct (list_find_split _ _ _ _ Hf) as (l1 & l2 & Hl & _ & _ & Hins).
  assert (Hs1 : tasks s1 = l1 ++ t' :: l2) by (unfold s1; simpl; apply Hins).
  assert (Hd : forall d c c',
             (forall a, taskStepZ env d a t = a + c) ->
             (forall a, taskStepZ env d a t' = a + c') ->
             exactTotal env s1 d = exactTotal env s d - c + c'
             /\ absTotal env s1 d = absTotal env s d - Z.abs c + Z.abs c').
  { intros d c c' Hc Hc'. split.
    - rewrite (exactTotal_task env s d l1 t l2 c Hl Hc).
      rewrite (exactTotal_task env s1 d l1 t' l2 c' Hs1 Hc').
      change (exactTotal env (set_tasks (l1 ++ l2) s1) d)
        with (exactTotal env (set_tasks (l1 ++ l2) s) d). lia.
    - rewrite (absTotal_task env s d l1 t l2 Hl).
      rewrite (absTotal_task env s1 d l1 t' l2 Hs1).
      change (absTotal env (set_tasks (l1 ++ l2) s1) d)
        with (absTotal env (set_tasks (l1 ++ l2) s) d).
      rewrite (Hc 0), (Hc' 0). cbn [Z.add]. lia. }
  split.
  - intros Hnone d Hex.
    change (exactDay env s1 d) in Hex. rewrite dayTotal_set_daySummaries.
    destruct (Hd d 0 (onDayOf env (clock 0%nat) d (taskCredit t (clock 0%nat))))
      as [Htot Habs].
    + intros a. rewrite taskStepZ_credit, Hnone. reflexivity.
    + intros a. rewrite taskStepZ_credit. unfold t'. rewrite Hnone. reflexivity.
    + assert (Hex0 : exactDay env s d) by (unfold exactDay in *; lia).
      rewrite (dayTotal_exact _ _ _ Hex), (dayTotal_exact _ _ _ Hex0). lia.
  - intros comp Hsome d Hex. rewrite dayTotal_set_daySummaries.
    destruct (Hd d (onDayOf env comp d (taskCredit t comp)) 0) as [Htot Habs].
    + intros a. rewrite taskStepZ_credit, Hsome. reflexivity.
    + intros a. rewrite taskStepZ_credit. unfold t'. rewrite Hsome. simpl. lia.
    + assert (Hex1 : exactDay env s1 d) by (unfold exactDay in *; lia).
      rewrite (dayTotal_exact _ _ _ Hex), (dayTotal_exact _ _ _ Hex1). lia.
Qed.

Lemma toggling_a_task_moves_its_points_witness :
  exists s',
    toggleTask (zoneEnv 0) noonClock "t1" busyState = Some (tt, s')
    /\ dayTotal (zoneEnv 0) s' 0 = dayTotal (zoneEnv 0) busyState 0 + 20
    /\ cachedSummary s' 0 = Some (computeDayTotals (zoneEnv 0) s' 0).
Proof.
  destruct (toggling_a_task_moves_its_points (zoneEnv 0) noonClock "t1"
              busyState 0%nat (Task.mk "t1" 20 None None) eq_refl)
    as (s' & Hrun & Htasks & Hfresh & _ & Hdone & _).
  exists s'. split; [exact Hrun|]. split; [|exact Hfresh].
  apply (Hdone eq_refl 0).
  injection Hrun as <-. vm_compute. reflexivity.
Defined.

Lemma insert_back {A} (l : list A) (i : nat) (x y : A) :
  l !! i = Some x -> <[i := x]> (<[i := y]> l) = l.
Proof. intros Hi. rewrite list_insert_insert_eq. now apply list_insert_id. Qed.

Lemma state_eta s :
  s = mkAppState (settings s) (meta s) (tasks s) (habits s) (habitLogs s)
        (events s) (questLibrary s) (assignedQuests s) (daySummaries s)
        (randomCalls s) (uidCalls s).
Proof. now destruct s. Qed.

(** X11.  Marking an open task, an open event that gives points, or an open
    assigned quest as done and then undoing it restores the stored state:
    after the two toggles everything but the cached summaries is as
    before. *)
Theorem marking_done_then_undoing_restores :
  forall env clock clock' id s,
    (forall i t,
        list_find (fun x => Task.id x = id) (tasks s) = Some (i, t) ->
        Task.completedAt t = None ->
        exists s1 s2,
          toggleTask env clock id s = Some (tt, s1)
          /\ toggleTask env clock' id s1 = Some (tt, s2)
          /\ s2 = set_daySummaries (daySummaries s2) s)
    /\ (forall i ev,
           list_find (fun x => Event.id x = id) (events s) = Some (i, ev) ->
           Event.pointsEnabled ev = true ->
           Event.completedAt ev = None ->
           exists s1 s2,
             toggleEvent env clock id s = Some (tt, s1)
             /\ toggleEvent env clock' id s1 = Some (tt, s2)
             /\ s2 = set_daySummaries (daySummaries s2) s)
    /\ (forall i a,
           list_find (fun x => AssignedQuest.id x = id) (assignedQuests s)
           = Some (i, a) ->
           AssignedQuest.completedAt a = None ->
           exists s1 s2,
             toggleAssignedQuest env clock id s = Some (tt, s1)
             /\ toggleAssignedQuest env clock' id s1 = Some (tt, s2)
             /\ s2 = set_daySummaries (daySummaries s2) s).
Proof.
  intros env clock clock' id s. split; [|split].
  - intros i t Hf Hnone.
    unfold toggleTask at 1. unfold bind, gets. rewrite Hf.
    unfold modify, upsertDaySummary, ret.
    eexists. eexists. split; [reflexivity|].
    unfold toggleTask, bind, gets. cbn [tasks set_tasks set_daySummaries].
    rewrite (list_find_insert_same _ _ _ _ _ Hf) by (apply list_find_Some in Hf; tauto).
    unfold modify, upsertDaySummary, ret. split; [reflexivity|].
    cbn [settings meta tasks habits habitLogs events questLibrary assignedQuests
         daySummaries randomCalls uidCalls set_tasks set_daySummaries
         Task.id Task.points Task.dueDate Task.completedAt].
    rewrite Hnone. cbn [toggled].
    apply list_find_Some in Hf as (Hi & _ & _).
    replace (Task.mk (Task.id t) (Task.points t) (Task.dueDate t) None) with t
      by (destruct t; simpl in *; congruence).
    rewrite (insert_back _ _ _ _ Hi). reflexivity.
  - intros i ev Hf Hpe Hnone.
    destruct ev as [eid pe pts comp]. cbn in Hpe, Hnone. subst pe comp.
    unfold toggleEvent at 1. unfold bind, gets. rewrite Hf. cbn [negb Event.pointsEnabled].
    unfold modify, upsertDaySummary, ret.
    eexists. eexists. split; [reflexivity|].
    unfold toggleEvent, bind, gets. cbn [events set_events set_daySummaries].
    rewrite (list_find_insert_same _ _ _ _ _ Hf) by (apply list_find_Some in Hf; tauto).
    cbn [negb Event.pointsEnabled].
    unfold modify, upsertDaySummary, ret. split; [reflexivity|].
    cbn [settings meta tasks habits habitLogs events questLibrary assignedQuests
         daySummaries randomCalls uidCalls set_events set_daySummaries
         Event.id Event.pointsEnabled Event.points Event.completedAt toggled].
    apply list_find_Some in Hf as (Hi & _ & _).
    rewrite (insert_back _ _ _ _ Hi). reflexivity.
  - intros i a Hf Hnone.
    unfold toggleAssignedQuest at 1. unfold bind, gets. rewrite Hf.
    unfold modify, upsertDaySummary, ret.
    eexists. eexists. split; [reflexivity|].
    unfold toggleAssignedQuest, bind, gets.
    cbn [assignedQuests set_assignedQuests set_daySummaries].
    rewrite (list_find_insert_same _ _ _ _ _ Hf) by (apply list_find_Some in Hf; tauto).
    unfold modify, upsertDaySummary, ret. split; [reflexivity|].
    cbn [settings meta tasks habits habitLogs events questLibrary assignedQuests
         daySummaries randomCalls uidCalls set_assignedQuests set_daySummaries
         AssignedQuest.id AssignedQuest.libraryId AssignedQuest.type
         AssignedQuest.date AssignedQuest.weekOf AssignedQuest.multiplier
         AssignedQuest.completedAt].
    rewrite Hnone. cbn [toggled].
    apply list_find_Some in Hf as (Hi & _ & _).
    replace (AssignedQuest.mk (AssignedQuest.id a) (AssignedQuest.libraryId a)
               (AssignedQuest.type a) (AssignedQuest.date a) (AssignedQuest.weekOf a)
               (AssignedQuest.multiplier a) None)
      with a by (destruct a; simpl in *; congruence).
    rewrite (insert_back _ _ _ _ Hi). reflexivity.
Qed.

Lemma marking_done_then_undoing_restores_witness :
  exists s1 s2,
    toggleTask (zoneEnv 0) noonClock "t2" busyState = Some (tt, s1)
    /\ toggleTask (zoneEnv 0) noonClock "t2" s1 = Some (tt, s2)
    /\ tasks s2 = tasks busyState.
Proof.
  destruct (proj1 (marking_done_then_undoing_restores (zoneEnv 0) noonClock
                     noonClock "t2" busyState)
              1%nat (Task.mk "t2" 30 (Some (18 * hourMs)) None)
              eq_refl eq_refl)
    as (s1 & s2 & H1 & H2 & Heq).
  exists s1, s2. split; [exact H1|]. split; [exact H2|].
  rewrite Heq. reflexivity.
Defined.

(** *** Habit logs *)

Lemma findLog_unfold logs h d :
  findLog logs h d
  = snd <$> list_find (fun l => HabitLog.habitId l = h /\ HabitLog.date l = d) logs.
Proof. reflexivity. Qed.

(** What [getOrCreateHabitLog] returns: the position of the first log of
    the habit and date, in an array that holds one. *)
Lemma getOrCreateHabitLog_spec habitId d s :
  exists i lg l1 l2 s',
    getOrCreateHabitLog habitId d s = Some (i, s')
    /\ s' = set_habitLogs (l1 ++ lg :: l2) s
    /\ length l1 = i
    /\ HabitLog.habitId lg = habitId /\ HabitLog.date lg = d
    /\ Forall (fun l => ~ (HabitLog.habitId l = habitId /\ HabitLog.date l = d)) l1
    /\ (habitLogs s = l1 ++ lg :: l2
        \/ (findLog (habitLogs s) habitId d = None
            /\ habitLogs s = l1 /\ l2 = [] /\ lg = newHabitLog habitId d)).
Proof.
  unfold getOrCreateHabitLog.
  destruct (list_find _ (habitLogs s)) as [[i lg]|] eqn:Hf.
  - destruct (list_find_split _ _ _ _ Hf) as (l1 & l2 & Hl & Hlen & [Hh Hd] & _).
    exists i, lg, l1, l2, s. split; [reflexivity|].
    split; [rewrite <- Hl; apply state_eta|].
    repeat (split; [assumption|]). split; [|now left].
    apply list_find_Some in Hf as (_ & _ & Hmin).
    apply Forall_forall. intros x Hx.
    apply list_elem_of_lookup_1 in Hx as [j Hj].
    apply (Hmin j x).
    + rewrite Hl. rewrite lookup_app_l; [assumption|]. now apply lookup_lt_Some in Hj.
    + apply lookup_lt_Some in Hj. lia.
  - exists (length (habitLogs s)), (newHabitLog habitId d), (habitLogs s), [].
    eexists. split; [reflexivity|]. split; [reflexivity|].
    split; [reflexivity|]. split; [reflexivity|]. split; [reflexivity|].
    split; [now apply list_find_None in Hf|]. right.
    split; [unfold findLog; now rewrite Hf|]. repeat split.
Qed.

Lemma list_find_first {A} (P : A -> Prop) `{!forall x, Decision (P x)}
    (l1 l2 : list A) (x : A) :
  Forall (fun y => ~ P y) l1 -> P x ->
  list_find P (l1 ++ x :: l2) = Some (length l1, x).
Proof.
  intros Hl1 Hx. induction Hl1 as [|y l1 Hy _ IH]; simpl.
  - now rewrite decide_True.
  - rewrite decide_False by assumption. now rewrite IH.
Qed.

Lemma list_find_middle_other {A} (P : A -> Prop) `{!forall x, Decision (P x)}
    (l1 l2 : list A) (x y : A) :
  ~ P x -> ~ P y -> 
  snd <$> list_find P (l1 ++ x :: l2) = snd <$> list_find P (l1 ++ y :: l2).
Proof.
  intros Hx Hy. induction l1 as [|z l1 IH]; simpl.
  - rewrite !decide_False by assumption.
    destruct (list_find P l2) as [[j w]|]; reflexivity.
  - destruct (decide (P z)); [reflexivity|].
    destruct (list_find P (l1 ++ x :: l2)) as [[j w]|],
             (list_find P (l1 ++ y :: l2)) as [[j' w']|]; simpl in *; congruence.
Qed.

Lemma list_find_dropped {A} (P : A -> Prop) `{!forall x, Decision (P x)}
    (l1 l2 : list A) (x : A) :
  ~ P x -> 
  snd <$> list_find P (l1 ++ x :: l2) = snd <$> list_find P (l1 ++ l2).
Proof.
  intros Hx. induction l1 as [|z l1 IH]; simpl.
  - rewrite !decide_False by assumption.
    destruct (list_find P l2) as [[j w]|]; reflexivity.
  - destruct (decide (P z)); [reflexivity|].
    destruct (list_find P (l1 ++ x :: l2)) as [[j w]|],
             (list_find P (l1 ++ l2)) as [[j' w']|]; simpl in *; congruence.
Qed.


Lemma refreshed_fresh env d s :
  cachedSummary (refreshed env d s) d = Some (computeDayTotals env (refreshed env d s) d)
  /\ (forall d', d' <> d -> cachedSummary (refreshed env d s) d' = cachedSummary s d')
  /\ (summaryDatesUnique s -> summaryDatesUnique (refreshed env d s)).
Proof.
  destruct (upsert_fresh env s d) as [H1 H2]. split; [exact H1|]. split; [exact H2|].
  apply storeSummary_dates.
Qed.

Lemma habitStepZ_from_0 s w a lg : habitStepZ s w a lg = a + habitStepZ s w 0 lg.
Proof.
  replace a with (0 + a) at 1 by lia. rewrite habitStepZ_shift. lia.
Qed.

(** Replacing one log by another of the same date moves the total of that
    date by the difference of their credits; a log that is new counts as a
    replacement of nothing. *)
Lemma exactTotal_log_update env s l1 lg lg' l2 d :
  HabitLog.date lg' = HabitLog.date lg ->
  (habitLogs s = l1 ++ lg :: l2
   \/ (habitLogs s = l1 /\ l2 = [] /\ logCredit env s d lg = 0)) ->
  exactTotal env (set_habitLogs (l1 ++ lg' :: l2) s) d
  = exactTotal env s d
    + (if bool_decide (HabitLog.date lg = d)
       then logCredit env s d lg' - logCredit env s d lg else 0).
Proof.
  intros Hdate Hold. unfold logCredit.
  set (s1 := set_habitLogs (l1 ++ lg' :: l2) s).
  assert (Hbase : forall l, exactTotal env (set_habitLogs l s1) d
                            = exactTotal env (set_habitLogs l s) d) by reflexivity.
  assert (Hs : exactTotal env s d
               = exactTotal env (set_habitLogs (l1 ++ l2) s) d
                 + (if bool_decide (HabitLog.date lg = d)
                    then habitStepZ s (Clock.weekdayOf (utcOffset env) d) 0 lg else 0)).
  { destruct Hold as [Hl|(Hl & -> & Hz)].
    - destruct (decide (HabitLog.date lg = d)) as [Hd|Hd].
      + rewrite bool_decide_true by assumption.
        apply (exactTotal_log env s d l1 lg l2 _ Hl Hd).
        intros a. apply habitStepZ_from_0.
      + rewrite bool_decide_false by assumption.
        rewrite (exactTotal_log_other env s d l1 lg l2 Hl Hd). lia.
    - unfold logCredit in Hz. rewrite Hz, app_nil_r, <- Hl.
      destruct (bool_decide _); rewrite Z.add_0_r; reflexivity. }
  rewrite Hs.
  destruct (decide (HabitLog.date lg = d)) as [Hd|Hd].
  - rewrite bool_decide_true by assumption.
    rewrite (exactTotal_log env s1 d l1 lg' l2
               (habitStepZ s (Clock.weekdayOf (utcOffset env) d) 0 lg'));
      [rewrite Hbase; lia|reflexivity|congruence|].
    intros a. apply (habitStepZ_from_0 s).
  - rewrite bool_decide_false by assumption.
    rewrite (exactTotal_log_other env s1 d l1 lg' l2); [rewrite Hbase; lia|reflexivity|congruence].
Qed.

Lemma alter_middle {A} (f : A -> A) (l1 l2 : list A) (x : A) :
  alter f (length l1) (l1 ++ x :: l2) = l1 ++ f x :: l2.
Proof. rewrite alter_app_r_alt by lia. now rewrite Nat.sub_diag. Qed.

Lemma logKeys_update f l1 lg l2 :
  HabitLog.habitId (f lg) = HabitLog.habitId lg ->
  HabitLog.date (f lg) = HabitLog.date lg ->
  (fun l => (HabitLog.habitId l, HabitLog.date l)) <$> (l1 ++ f lg :: l2)
  = (fun l => (HabitLog.habitId l, HabitLog.date l)) <$> (l1 ++ lg :: l2).
Proof. intros Hh Hd. rewrite !fmap_app, !fmap_cons, Hh, Hd. reflexivity. Qed.

(** The common part of the three habit handlers: find or create the log
    of today, assign to its fields, refresh the summary. *)
Lemma log_update_run env id today today2 f s :
  (forall lg, HabitLog.habitId (f lg) = HabitLog.habitId lg
              /\ HabitLog.date (f lg) = HabitLog.date lg) ->
  let lg := logBefore s id today in
  exists l1 l2,
    (let* i := getOrCreateHabitLog id today in
     updateLog i f ;;
     let* _ := upsertDaySummary env today2 in
     ret tt) s
    = Some (tt, refreshed env today2 (set_habitLogs (l1 ++ f lg :: l2) s))
    /\ HabitLog.habitId lg = id /\ HabitLog.date lg = today
    /\ findLog (l1 ++ f lg :: l2) id today = Some (f lg)
    /\ (forall h' d', (h', d') <> (id, today) ->
                      findLog (l1 ++ f lg :: l2) h' d' = findLog (habitLogs s) h' d')
    /\ (habitLogs s = l1 ++ lg :: l2
        \/ (habitLogs s = l1 /\ l2 = [] /\ lg = newHabitLog id today))
    /\ (logKeysUnique s ->
        NoDup ((fun l => (HabitLog.habitId l, HabitLog.date l))
                 <$> (l1 ++ f lg :: l2))).
Proof.
  intros Hf lg0.
  destruct (getOrCreateHabitLog_spec id today s)
    as (i & lg & l1 & l2 & s' & Hrun & -> & Hlen & Hh & Hd & Hl1 & Hold).
  assert (Hfind : findLog (l1 ++ lg :: l2) id today = Some lg).
  { unfold findLog. rewrite list_find_first; [reflexivity|assumption|now split]. }
  assert (Hlg : lg0 = lg).
  { unfold lg0, logBefore. destruct Hold as [Hl|(Hnone & _ & _ & Hnew)].
    - now rewrite Hl, Hfind.
    - rewrite Hnone. symmetry. exact Hnew. }
  rewrite Hlg. clear lg0 Hlg.
  exists l1, l2. unfold bind. rewrite Hrun.
  unfold updateLog, modify, upsertDaySummary, ret. cbn [habitLogs set_habitLogs].
  rewrite <- Hlen, alter_middle.
  destruct (Hf lg) as [Hfh Hfd].
  split; [reflexivity|]. split; [exact Hh|]. split; [exact Hd|].
  split.
  { unfold findLog. rewrite list_find_first; [reflexivity|assumption|].
    split; congruence. }
  split.
  { intros h' d' Hne.
    assert (Hn : ~ (HabitLog.habitId lg = h' /\ HabitLog.date lg = d')).
    { intros [<- <-]. apply Hne. congruence. }
    assert (Hn' : ~ (HabitLog.habitId (f lg) = h' /\ HabitLog.date (f lg) = d')).
    { rewrite Hfh, Hfd. exact Hn. }
    unfold findLog.
    destruct Hold as [->|(_ & -> & -> & _)].
    - now apply list_find_middle_other.
    - rewrite (list_find_dropped _ _ [] (f lg) Hn'). now rewrite app_nil_r. }
  split.
  { destruct Hold as [Hl|(_ & Hl & Hl2 & Hnew)]; [now left|right].
    repeat split; assumption. }
  intros Hnd. rewrite logKeys_update by assumption.
  unfold logKeysUnique in Hnd.
  destruct Hold as [<-|(Hnone & <- & -> & _)]; [exact Hnd|].
  rewrite fmap_app. apply NoDup_app. split; [exact Hnd|].
  split; [|apply NoDup_singleton].
  intros k Hk Hk'. apply list_elem_of_singleton in Hk'. subst k.
  apply list_elem_of_fmap in Hk as (x & Hkey & Hin).
  rewrite Forall_forall in Hl1. apply (Hl1 x Hin).
  cbn in Hkey. inversion Hkey. now split.
Qed.

Lemma logCredit_binary env s d lg h :
  findHabit s (HabitLog.habitId lg) = Some h ->
  Habit.type h = "binary"%string ->
  logCredit env s d lg
  = if scheduledOn (Clock.weekdayOf (utcOffset env) d) h
    then (if 1 <=? HabitLog.count lg then JS.or_else (Habit.points h) 0 else 0)
    else 0.
Proof.
  intros Hf Ht. unfold logCredit, habitStepZ. rewrite Hf, Ht.
  destruct (scheduledOn _ h); reflexivity.
Qed.

Lemma dayTotal_refreshed env d s d' :
  dayTotal env (refreshed env d s) d' = dayTotal env s d'.
Proof. reflexivity. Qed.

Lemma exactTotal_refreshed env d s d' :
  exactTotal env (refreshed env d s) d' = exactTotal env s d'.
Proof. reflexivity. Qed.



(** ** Binary64 facts behind the credit of a counter habit *)

(** A double divided by itself is 1. *)
Lemma div_self (s : bool) (m : positive) (e : Z) :
  SFdiv 53 1024 (S754_finite s m e) (S754_finite s m e)
  = S754_finite false 4503599627370496 (-52).
Proof.
  cbn [SFdiv]. unfold SFdiv_core_binary. cbv zeta.
  rewrite !Z.sub_diag.
  change (Z.min (fexp 53 1024 0) 0) with (-53).
  change (0 - -53) with 53.
  rewrite Z.shiftl_mul_pow2 by lia.
  pose proof (Z_div_mod (Z.pos m * 2 ^ 53) (Z.pos m) ltac:(lia)) as Hdm.
  destruct (Z.div_eucl (Z.pos m * 2 ^ 53) (Z.pos m)) as [q r].
  destruct Hdm as [Heq Hr].
  assert (Hq : q = 2 ^ 53).
  { set (K := 2 ^ 53) in *. clearbody K.
    assert (Hz : Z.pos m * (K - q) = r) by lia.
    assert (K - q = 0); [|lia].
    destruct (Z.lt_trichotomy (K - q) 0) as [Hlt|[H0|Hgt]]; [|exact H0|]; nia. }
  assert (Hr0 : r = 0) by (subst q; lia).
  subst q r.
  assert (Hloc : new_location (Z.pos m) 0 = loc_Exact).
  { unfold new_location. destruct (Z.even (Z.pos m)); reflexivity. }
  rewrite Hloc. destruct s; vm_compute; reflexivity.
Qed.

(** Multiplying by 1 returns the double. *)
Lemma mul_one_l (s : bool) (m : positive) (e : Z) :
  Z.pos (digits2_pos m) = 53 -> -1074 <= e <= 971 ->
  SFmul 53 1024 (S754_finite false 4503599627370496 (-52)) (S754_finite s m e)
  = S754_finite s m e.
Proof.
  intros Hd He. cbn [SFmul xorb]. unfold binary_round_aux.
  set (M := (4503599627370496 * m)%positive).
  pose proof (digits2_pos_bounds m) as Hm. rewrite Hd in Hm.
  pose proof (digits2_pos_bounds M) as HM.
  assert (HMv : Z.pos M = Z.pos m * 2 ^ 52).
  { unfold M. rewrite Pos2Z.inj_mul. change (2 ^ 52) with 4503599627370496. lia. }
  set (D := Z.pos (digits2_pos M)) in *.
  assert (HD : D = 105).
  { assert (H52 : 0 < 2 ^ 52) by (apply Z.pow_pos_nonneg; lia).
    assert (Hlo : 2 ^ (D - 1) < 2 ^ 105).
    { apply Z.le_lt_trans with (Z.pos M); [lia|]. rewrite HMv.
      change (2 ^ 105) with (2 ^ 53 * 2 ^ 52).
      apply Z.mul_lt_mono_pos_r; lia. }
    assert (Hhi : 2 ^ 104 < 2 ^ D).
    { apply Z.le_lt_trans with (Z.pos M); [|lia]. rewrite HMv.
      change (2 ^ 104) with (2 ^ (53 - 1) * 2 ^ 52).
      apply Z.mul_le_mono_nonneg_r; lia. }
    assert (HDpos : 0 < D) by (unfold D; lia).
    apply Z.pow_lt_mono_r_iff in Hlo; [|lia|lia].
    apply Z.pow_lt_mono_r_iff in Hhi; lia. }
  unfold shr_fexp at 1. cbn [Zdigits2 shr_record_of_loc]. fold D. rewrite HD.
  unfold fexp, emin.
  replace (Z.max (105 + (-52 + e) - 53) (3 - 1024 - 53) - (-52 + e)) with 52 by lia.
  destruct (shr_pos_spec (Z.pos M) (-52 + e) 52 ltac:(lia)) as (mrs & Hshr & Hq & Hr).
  rewrite Hshr.
  assert (Hm1 : shr_m mrs = Z.pos m).
  { rewrite Hq, HMv. apply Z.div_mul. lia. }
  assert (Hround : round_nearest_even (shr_m mrs) (loc_of_shr_record mrs) = Z.pos m).
  { destruct (round_nearest_even_cases mrs) as [->|[_ Hrt]]; [exact Hm1|exfalso].
    specialize (Hr Hrt). rewrite HMv, Z.mod_mul in Hr by lia.
    assert (0 < 2 ^ 52) by (apply Z.pow_pos_nonneg; lia). lia. }
  rewrite Hround.
  unfold shr_fexp. cbn [Zdigits2 shr_record_of_loc]. rewrite Hd.
  unfold fexp, emin.
  replace (-52 + e + 52) with e by lia.
  replace (Z.max (53 + e - 53) (3 - 1024 - 53) - e) with 0 by lia.
  cbn [shr shr_m].
  destruct (Z.leb_spec e (1024 - 53)); [reflexivity|lia].
Qed.

(** A count at or above the target earns the full points of the habit. *)
Lemma counterPoints_full count target points :
  0 < JS.or_else target 1 < 2 ^ 53 ->
  JS.or_else target 1 <= count ->
  - 2 ^ 53 < points < 2 ^ 53 ->
  counterPoints count target points = points.
Proof.
  intros HT Hc Hp. unfold counterPoints.
  set (T := JS.or_else target 1) in *.
  assert (Hcount : JS.clamp (JS.or_else count 0) 0 T = T).
  { rewrite or_else_0. unfold JS.clamp. lia. }
  rewrite Hcount, or_else_0.
  destruct (ofZ_cases T ltac:(lia)) as [[HT0 _]|(mT & eT & HofT & _ & _ & _)]; [lia|].
  rewrite HofT. unfold JS.div, JS.prec, JS.emax. rewrite div_self.
  destruct (ofZ_cases points Hp) as [[-> Hof]|(m & e & Hof & Hd & He & Hm)].
  - rewrite Hof. reflexivity.
  - rewrite Hof. unfold JS.mul, JS.prec, JS.emax.
    rewrite mul_one_l by (assumption || lia).
    rewrite (floor_exact _ m e (Z.abs points)) by (lia || assumption).
    destruct (Z.ltb_spec points 0); lia.
Qed.

(** A count of 0 or less earns nothing. *)
Lemma counterPoints_none count target points :
  count <= 0 -> counterPoints count target points = 0.
Proof.
  intros Hc. unfold counterPoints.
  assert (Hz : JS.clamp (JS.or_else count 0) 0 (JS.or_else target 1) = 0).
  { rewrite or_else_0. unfold JS.clamp. lia. }
  rewrite Hz. change (JS.ofZ 0) with (S754_zero false).
  unfold JS.div, JS.mul.
  destruct (JS.ofZ (JS.or_else target 1)) as [s|s| |s m e]; cbn [SFdiv];
    destruct (JS.ofZ (JS.or_else points 0)) as [s'|s'| |s' m' e'];
    reflexivity.
Qed.

Lemma shr_record_of_loc_m m l : shr_m (shr_record_of_loc m l) = m.
Proof. destruct l as [|[| |]]; reflexivity. Qed.

Lemma shr_spec (mrs0 : shr_record) (E n : Z) :
  0 <= shr_m mrs0 -> 0 <= n ->
  exists mrs, shr mrs0 E n = (mrs, E + n) /\ shr_m mrs = shr_m mrs0 / 2 ^ n.
Proof.
  intros Hm Hn. destruct n as [|p|p]; [| |lia].
  - exists mrs0. cbn [shr]. rewrite Z.add_0_r, Z.div_1_r. auto.
  - eexists. cbn [shr]. split; [reflexivity|].
    rewrite iter_pos_nat, <- (positive_nat_Z p).
    destruct mrs0 as [M r s]. now apply iter_shr_1_m.
Qed.

(** Rounding a quotient that lies below [1 - 2^-53] gives a double that
    does not exceed [1 - 2^-53], the largest one below 1. *)
Lemma binary_round_aux_below_one (q : positive) (E : Z) (loc : location) :
  53 <= Z.pos (digits2_pos q) -> -1074 <= E < 0 ->
  Z.pos q * 2 ^ 53 < (2 ^ 53 - 1) * 2 ^ (- E) ->
  binary_round_aux 53 1024 false (Z.pos q) E loc = S754_zero false
  \/ exists m e,
       binary_round_aux 53 1024 false (Z.pos q) E loc = S754_finite false m e
       /\ e < 0 /\ Z.pos m * 2 ^ 53 <= (2 ^ 53 - 1) * 2 ^ (- e).
Proof.
  intros HD HE Hq.
  remember (binary_round_aux 53 1024 false (Z.pos q) E loc) as R eqn:HR.
  unfold binary_round_aux in HR.
  pose proof (digits2_pos_bounds q) as Hb.
  set (D := Z.pos (digits2_pos q)) in *.
  set (sh := D - 53).
  assert (Hsh : 0 <= sh) by (unfold sh; lia).
  unfold shr_fexp at 1 in HR. cbn [Zdigits2] in HR. fold D in HR.
  unfold fexp, emin in HR.
  replace (Z.max (D + E - 53) (3 - 1024 - 53) - E) with sh in HR by (unfold sh; lia).
  destruct (shr_spec (shr_record_of_loc (Z.pos q) loc) E sh) as (mrs & Hshr & Hm0);
    [rewrite shr_record_of_loc_m; lia|exact Hsh|].
  rewrite Hshr in HR. clear Hshr.
  rewrite shr_record_of_loc_m in Hm0.
  set (m0 := shr_m mrs) in *.
  assert (H53 : 2 ^ 53 = 9007199254740992) by (vm_compute; reflexivity).
  assert (HS : 0 < 2 ^ sh) by (apply Z.pow_pos_nonneg; lia).
  assert (Hq52 : 2 ^ 52 * 2 ^ sh <= Z.pos q).
  { rewrite <- Z.pow_add_r by lia. replace (52 + sh) with (D - 1) by (unfold sh; lia). lia. }
  assert (Hm052 : 2 ^ 52 <= m0).
  { rewrite Hm0. apply Z.div_le_lower_bound; lia. }
  assert (Hh : 0 <= - E - sh - 53).
  { assert (Hlt : 2 ^ (52 + sh) < 2 ^ (- E)).
    { rewrite Z.pow_add_r by lia.
      assert (HEp : 0 < 2 ^ (- E)) by (apply Z.pow_pos_nonneg; lia).
      rewrite H53 in Hq. clear - Hq Hq52 HEp. nia. }
    apply Z.pow_lt_mono_r_iff in Hlt; lia. }
  set (h := - E - sh - 53) in *.
  assert (HH : 0 < 2 ^ h) by (apply Z.pow_pos_nonneg; lia).
  assert (HEh : 2 ^ (- E) = 2 ^ 53 * (2 ^ h * 2 ^ sh)).
  { rewrite <- !Z.pow_add_r by lia. f_equal. unfold h. lia. }
  assert (Hm0lt : m0 < (2 ^ 53 - 1) * 2 ^ h).
  { rewrite Hm0. apply Z.div_lt_upper_bound; [lia|].
    rewrite HEh, H53 in Hq. rewrite H53.
    set (a := 2 ^ h) in *. set (b := 2 ^ sh) in *.
    clear - Hq HH HS. nia. }
  set (m1 := round_nearest_even m0 (loc_of_shr_record mrs)) in *.
  assert (Hm1 : m0 <= m1 <= m0 + 1).
  { unfold m1, m0. destruct (round_nearest_even_cases mrs) as [->|[-> _]]; lia. }
  set (E1 := E + sh) in *.
  assert (HE1 : 2 ^ (- E1) = 2 ^ 53 * 2 ^ h).
  { rewrite <- Z.pow_add_r by lia. f_equal. unfold E1, h. lia. }
  destruct (shr_fexp_exact m1 E1 ltac:(lia)) as (mrs2 & q2 & Hshr2 & Hq2 & Hm3).
  rewrite Hshr2 in HR. clear Hshr2.
  assert (HQ : 0 < 2 ^ q2) by (apply Z.pow_pos_nonneg; lia).
  destruct (shr_m mrs2) as [|m3|m3] eqn:Hm.
  - now left.
  - right.
    assert (Hmul : Z.pos m3 * 2 ^ q2 <= m1).
    { rewrite Hm3, Z.mul_comm. apply Z.mul_div_le. lia. }
    assert (Hneg : E1 + q2 < 0).
    { destruct (Z.lt_ge_cases (E1 + q2) 0) as [|Hge]; [assumption|exfalso].
      assert (Hpow : 2 ^ (- E1) <= 2 ^ q2) by (apply Z.pow_le_mono_r; lia).
      rewrite HE1, H53 in Hpow. rewrite H53 in Hm0lt.
      set (a := 2 ^ h) in *. set (b := 2 ^ q2) in *.
      clear - Hpow Hmul Hm1 Hm0lt HH HQ. nia. }
    destruct (Z.leb_spec (E1 + q2) (1024 - 53)); [|lia].
    exists m3, (E1 + q2). split; [exact HR|]. split; [exact Hneg|].
    assert (Hpow : 2 ^ (- E1) = 2 ^ (- (E1 + q2)) * 2 ^ q2).
    { rewrite <- Z.pow_add_r by lia. f_equal. lia. }
    assert (HF : 0 < 2 ^ (- (E1 + q2))) by (apply Z.pow_pos_nonneg; lia).
    rewrite HE1 in Hpow. rewrite H53 in *.
    set (a := 2 ^ h) in *. set (b := 2 ^ q2) in *.
    set (F := 2 ^ (- (E1 + q2))) in *.
    assert (Hb1 : Z.pos m3 * b * 9007199254740992
                  <= (9007199254740992 - 1) * (F * b)).
    { clear - Hpow Hmul Hm1 Hm0lt HH HQ HF. nia. }
    clear - Hb1 HQ. nia.
  - exfalso. assert (0 <= m1 / 2 ^ q2) by (apply Z.div_pos; lia). lia.
Qed.

(** A count below the target divided by the target is a double below 1. *)
Lemma div_below_one (c T : Z) :
  0 < c < T -> T < 2 ^ 53 ->
  JS.div (JS.ofZ c) (JS.ofZ T) = S754_zero false
  \/ exists m e,
       JS.div (JS.ofZ c) (JS.ofZ T) = S754_finite false m e
       /\ e < 0 /\ Z.pos m * 2 ^ 53 <= (2 ^ 53 - 1) * 2 ^ (- e).
Proof.
  intros Hc HT.
  destruct (ofZ_cases c ltac:(lia)) as [[Hc0 _]|(mc & ec & Hofc & Hdc & Hec & Hmc)]; [lia|].
  destruct (ofZ_cases T ltac:(lia)) as [[HT0 _]|(mT & eT & HofT & HdT & HeT & HmT)]; [lia|].
  destruct (Z.ltb_spec c 0); [lia|]. destruct (Z.ltb_spec T 0); [lia|].
  rewrite Z.abs_eq in Hmc, HmT by lia.
  unfold JS.div, JS.prec, JS.emax. rewrite Hofc, HofT. cbn [SFdiv xorb].
  unfold SFdiv_core_binary. cbn [Zdigits2]. rewrite Hdc, HdT.
  unfold fexp, emin. cbv zeta.
  replace (Z.min (Z.max (53 + ec - (53 + eT) - 53) (3 - 1024 - 53)) (ec - eT))
    with (ec - eT - 53) by lia.
  replace (ec - eT - (ec - eT - 53)) with 53 by lia.
  rewrite Z.shiftl_mul_pow2 by lia.
  pose proof (Z_div_mod (Z.pos mc * 2 ^ 53) (Z.pos mT) ltac:(lia)) as Hdm.
  destruct (Z.div_eucl (Z.pos mc * 2 ^ 53) (Z.pos mT)) as [q r].
  destruct Hdm as [Heq Hr].
  pose proof (digits2_pos_bounds mc) as Hbc. rewrite Hdc in Hbc.
  pose proof (digits2_pos_bounds mT) as HbT. rewrite HdT in HbT.
  assert (H53 : 2 ^ 53 = 9007199254740992) by (vm_compute; reflexivity).
  assert (H52 : 2 ^ (53 - 1) = 4503599627370496) by (vm_compute; reflexivity).
  assert (Hq52 : 4503599627370496 <= q).
  { rewrite H53, H52 in *. clear - Heq Hr Hbc HbT. nia. }
  destruct q as [|qp|qp]; try lia.
  set (A := 2 ^ (- ec)) in *. set (B := 2 ^ (- eT)) in *.
  assert (HA : 0 < A) by (apply Z.pow_pos_nonneg; lia).
  assert (HB : 0 < B) by (apply Z.pow_pos_nonneg; lia).
  assert (HEAB : 2 ^ (- (ec - eT - 53)) * B = 2 ^ 53 * A).
  { unfold A, B. rewrite <- !Z.pow_add_r by lia. f_equal. lia. }
  apply binary_round_aux_below_one.
  - pose proof (digits2_pos_bounds qp) as Hbq.
    set (D := Z.pos (digits2_pos qp)) in *.
    assert (Hpow : 2 ^ 52 < 2 ^ D).
    { change (2 ^ 52) with 4503599627370496. lia. }
    apply Z.pow_lt_mono_r_iff in Hpow; [lia|lia|unfold D; lia].
  - lia.
  - set (P := 2 ^ (- (ec - eT - 53))) in *.
    assert (HP : 0 < P) by (apply Z.pow_pos_nonneg; lia).
    rewrite H53 in *.
    assert (Hcore : Z.pos qp * B < (9007199254740992 - 1) * A).
    { assert (H1 : Z.pos qp * (T * B) <= c * A * 9007199254740992) by (clear - Heq Hr Hmc HmT; nia).
      assert (H2 : c * 9007199254740992 < (9007199254740992 - 1) * T) by (clear - Hc HT; nia).
      assert (H3 : Z.pos qp * B * T < (9007199254740992 - 1) * A * T).
      { clear - H1 H2 HA HB Hc. nia. }
      clear - H3 Hc. nia. }
    assert (Hfin : Z.pos qp * 9007199254740992 * B < (9007199254740992 - 1) * P * B).
    { clear - Hcore HEAB HA HB HP. nia. }
    clear - Hfin HB. nia.
Qed.

(** A double that does not exceed [1 - 2^-53], times an integer [n], has a
    floor below [n]. *)
Lemma floor_times_below (m : positive) (e n : Z) :
  e < 0 -> Z.pos m * 2 ^ 53 <= (2 ^ 53 - 1) * 2 ^ (- e) ->
  0 < n < 2 ^ 53 ->
  0 <= JS.floor (JS.mul (S754_finite false m e) (JS.ofZ n)) < n.
Proof.
  intros He Hgap Hn.
  destruct (ofZ_small n Hn) as (mn & en & -> & Hen & Hmn).
  unfold JS.mul, SFmul, JS.prec, JS.emax. cbn [xorb].
  assert (H53 : 2 ^ 53 = 9007199254740992) by (vm_compute; reflexivity).
  assert (HKL : 2 ^ (- (e + en)) = 2 ^ (- e) * 2 ^ (- en)).
  { rewrite <- Z.pow_add_r by lia. f_equal. lia. }
  assert (HK : 0 < 2 ^ (- e)) by (apply Z.pow_pos_nonneg; lia).
  assert (HL : 0 < 2 ^ (- en)) by (apply Z.pow_pos_nonneg; lia).
  apply binary_round_aux_below; [lia|exact Hn| |].
  - rewrite Pos2Z.inj_mul, HKL, Hmn. rewrite H53 in Hgap.
    set (K := 2 ^ (- e)) in *. set (L := 2 ^ (- en)) in *.
    clear - Hgap HK HL Hn. nia.
  - rewrite Pos2Z.inj_mul, HKL, Hmn, H53. rewrite H53 in Hgap.
    set (K := 2 ^ (- e)) in *. set (L := 2 ^ (- en)) in *.
    clear - Hgap HK HL Hn. nia.
Qed.

(** A count below the target earns less than the points of the habit. *)
Lemma counterPoints_partial count target points :
  0 < count < JS.or_else target 1 -> JS.or_else target 1 < 2 ^ 53 ->
  0 < points < 2 ^ 53 ->
  0 <= counterPoints count target points < points.
Proof.
  intros Hc HT Hp. unfold counterPoints.
  set (T := JS.or_else target 1) in *.
  assert (Hcount : JS.clamp (JS.or_else count 0) 0 T = count).
  { rewrite or_else_0. unfold JS.clamp. lia. }
  rewrite Hcount, or_else_0.
  destruct (div_below_one count T Hc HT) as [->|(m & e & -> & He & Hgap)].
  - destruct (ofZ_small points Hp) as (mp & ep & -> & _ & _).
    cbn. lia.
  - now apply floor_times_below.
Qed.

(** X14.  The credit [Math.floor(Math.min(1, clamp(count, 0, T) / T) * points)]
    of a counter habit with positive points, [T = (target || 1)] positive
    (both below 2^53): 0 for a count of 0 or less, at least 0 and strictly
    less than [points] for a count below [T], and [points] from [T] on;
    the full points are earned exactly when the count reaches [T]. *)
Theorem counter_credit_is_full_exactly_at_target :
  forall count target points,
    let T := JS.or_else target 1 in
    0 < T < 2 ^ 53 ->
    0 < points < 2 ^ 53 ->
    (count <= 0 -> counterPoints count target points = 0)
    /\ (0 < count < T -> 0 <= counterPoints count target points < points)
    /\ (T <= count -> counterPoints count target points = points)
    /\ (counterPoints count target points = points <-> T <= count).
Proof.
  intros count target points T HT Hp.
  assert (H0 : count <= 0 -> counterPoints count target points = 0)
    by apply counterPoints_none.
  assert (H1 : 0 < count < T -> 0 <= counterPoints count target points < points).
  { intros Hc. apply counterPoints_partial; fold T; lia. }
  assert (H2 : T <= count -> counterPoints count target points = points).
  { intros Hc. apply counterPoints_full; fold T; lia. }
  split; [exact H0|]. split; [exact H1|]. split; [exact H2|].
  split; [|exact H2]. intros Heq.
  destruct (Z.le_gt_cases T count) as [|Hlt]; [assumption|exfalso].
  destruct (Z.le_gt_cases count 0) as [Hle|Hgt].
  - rewrite (H0 Hle) in Heq. lia.
  - specialize (H1 ltac:(lia)). lia.
Qed.

Lemma counter_credit_is_full_exactly_at_target_witness :
  0 <= counterPoints 1 3 10 < 10 /\ counterPoints 3 3 10 = 10.
Proof.
  split.
  - refine (proj1 (proj2 (counter_credit_is_full_exactly_at_target 1 3 10 _ _)) _);
      vm_compute; split; reflexivity.
  - refine (proj1 (proj2 (proj2
              (counter_credit_is_full_exactly_at_target 3 3 10 _ _))) _);
      vm_compute; try (split; reflexivity); discriminate.
Defined.

Lemma logCredit_counter env s d lg h :
  findHabit s (HabitLog.habitId lg) = Some h ->
  Habit.type h = "counter"%string ->
  logCredit env s d lg
  = if scheduledOn (Clock.weekdayOf (utcOffset env) d) h
    then counterPoints (HabitLog.count lg) (Habit.target h) (Habit.points h)
    else 0.
Proof.
  intros Hf Ht. unfold logCredit, habitStepZ. rewrite Hf, Ht.
  destruct (scheduledOn _ h); reflexivity.
Qed.

Lemma findHabit_id s id h : findHabit s id = Some h -> Habit.id h = id /\ h ∈ habits s.
Proof.
  unfold findHabit. destruct (list_find _ (habits s)) as [[i x]|] eqn:Hf; [|discriminate].
  intros H. inversion H; subst x. apply list_find_Some in Hf as (Hi & Hid & _).
  split; [exact Hid|]. eapply list_elem_of_lookup_2, Hi.
Qed.

(** The effect on the totals of a handler that rewrites the count of
    today's log of a counter habit. *)
Lemma counter_update_total env s h id today l1 l2 f d :
  findHabit s id = Some h ->
  Habit.type h = "counter"%string ->
  let lg := logBefore s id today in
  HabitLog.habitId lg = id -> HabitLog.date lg = today ->
  HabitLog.habitId (f lg) = id -> HabitLog.date (f lg) = today ->
  (habitLogs s = l1 ++ lg :: l2
   \/ (habitLogs s = l1 /\ l2 = [] /\ lg = newHabitLog id today)) ->
  exactTotal env (set_habitLogs (l1 ++ f lg :: l2) s) d
  = exactTotal env s d
    + (if bool_decide (today = d)
          && scheduledOn (Clock.weekdayOf (utcOffset env) d) h
       then counterPoints (HabitLog.count (f lg)) (Habit.target h) (Habit.points h)
            - counterPoints (HabitLog.count lg) (Habit.target h) (Habit.points h)
       else 0).
Proof.
  intros Hh Ht lg Hlh Hld Hfh Hfd Hold.
  assert (Hcr : forall x, HabitLog.habitId x = id ->
             logCredit env s d x
             = if scheduledOn (Clock.weekdayOf (utcOffset env) d) h
               then counterPoints (HabitLog.count x) (Habit.target h) (Habit.points h)
               else 0).
  { intros x Hx. apply logCredit_counter; [now rewrite Hx|assumption]. }
  rewrite (exactTotal_log_update env s l1 lg (f lg) l2 d); [|congruence|].
  - rewrite Hld, !Hcr by assumption.
    destruct (bool_decide (today = d)); cbn [andb]; [|lia].
    destruct (scheduledOn _ h); lia.
  - destruct Hold as [Hl|(Hl & Hl2 & Hnew)]; [now left|right].
    split; [assumption|]. split; [assumption|].
    rewrite Hcr by assumption. rewrite Hnew. cbn [HabitLog.count newHabitLog].
    rewrite counterPoints_none by lia. now destruct (scheduledOn _ h).
Qed.





(** *** Deleting *)

Lemma sumZ_filter {A} (P : A -> Prop) `{!forall x, Decision (P x)}
    (f : A -> Z) (l : list A) :
  sumZ (f <$> l)
  = sumZ (f <$> filter P l) + sumZ (f <$> filter (fun x => ~ P x) l).
Proof.
  rewrite <- sumZ_app, <- fmap_app.
  apply sumZ_perm, fmap_Permutation. symmetry. apply filter_app_complement.
Qed.

Lemma sumZ_ext {A} (f g : A -> Z) (l : list A) :
  (forall x, x ∈ l -> f x = g x) -> sumZ (f <$> l) = sumZ (g <$> l).
Proof.
  intros H. f_equal. apply list_fmap_ext. intros i x Hx. apply H.
  eapply list_elem_of_lookup_2, Hx.
Qed.

Section FindFilter.
Context {A : Type} (key : A -> string).

Lemma list_find_filter_other (l : list A) (k k0 : string) :
  k <> k0 ->
  snd <$> list_find (fun x => key x = k) (filter (fun x => key x <> k0) l)
  = snd <$> list_find (fun x => key x = k) l.
Proof.
  intros Hk. induction l as [|y l IH]; [reflexivity|].
  rewrite filter_cons. destruct (decide (key y <> k0)) as [Hy|Hy].
  - simpl. destruct (decide (key y = k)); [reflexivity|].
    destruct (list_find _ (filter _ l)) as [[i x]|],
             (list_find _ l) as [[j z]|]; simpl in *; congruence.
  - simpl. rewrite decide_False.
    + rewrite IH. now destruct (list_find _ l) as [[j z]|].
    + intros Hy'. apply Hy. congruence.
Qed.

Lemma list_find_filter_same (l : list A) (k0 : string) :
  list_find (fun x => key x = k0) (filter (fun x => key x <> k0) l) = None.
Proof.
  apply list_find_None, Forall_forall. intros x Hx.
  now apply list_elem_of_filter in Hx as [Hx _].
Qed.

(** [if (rm.length) l = l.filter(x => x.key !== k)]: when nothing is to be
    removed the filter would change nothing. *)
Lemma filter_nothing_to_remove {B} (g : A -> B) (l : list A) (k0 : string) :
  length (g <$> filter (fun x => key x = k0) l) = 0%nat ->
  filter (fun x => key x <> k0) l = l.
Proof.
  rewrite length_fmap. intros Hlen. apply nil_length_inv in Hlen.
  induction l as [|y l IH]; [reflexivity|].
  rewrite filter_cons in Hlen. rewrite filter_cons.
  destruct (decide (key y = k0)) as [Hy|Hy]; [discriminate|].
  rewrite decide_True by assumption. now rewrite IH.
Qed.
End FindFilter.

Lemma deleteHabit_run id s :
  deleteHabit id s
  = Some (tt, set_habitLogs (filter (fun l => HabitLog.habitId l <> id) (habitLogs s))
                (set_habits (filter (fun x => Habit.id x <> id) (habits s)) s)).
Proof.
  unfold deleteHabit, bind, modify, gets, ret. cbn [habitLogs set_habits].
  destruct (Nat.eqb_spec
              (length (HabitLog.id <$>
                         filter (fun l => HabitLog.habitId l = id) (habitLogs s))) 0)
    as [Hz|Hz]; [|reflexivity].
  rewrite (filter_nothing_to_remove HabitLog.habitId HabitLog.id _ _ Hz).
  now destruct s.
Qed.

Lemma deleteQuestLib_run id s :
  deleteQuestLib id s
  = Some (tt, set_assignedQuests
                (filter (fun a => AssignedQuest.libraryId a <> id) (assignedQuests s))
                (set_questLibrary
                   (filter (fun x => QuestLibrary.id x <> id) (questLibrary s)) s)).
Proof.
  unfold deleteQuestLib, bind, modify, gets, ret. cbn [assignedQuests set_questLibrary].
  destruct (Nat.eqb_spec
              (length (AssignedQuest.id <$>
                         filter (fun a => AssignedQuest.libraryId a = id)
                           (assignedQuests s))) 0)
    as [Hz|Hz]; [|reflexivity].
  rewrite (filter_nothing_to_remove AssignedQuest.libraryId AssignedQuest.id _ _ Hz).
  now destruct s.
Qed.

(** The credits of a day, summed through any function [phi]: with the
    identity this is the exact total, with the absolute value the bound
    that keeps the day exact. *)
Lemma credits_unfold (phi : Z -> Z) env s d :
  sumZ (phi <$> dayCredits env s d)
  = sumZ ((fun t => phi (taskStepZ env d 0 t)) <$> tasks s)
    + sumZ ((fun lg => phi (logCredit env s d lg)) <$> logsOf s d)
    + sumZ ((fun ev => phi (eventStepZ env d 0 ev)) <$> events s)
    + sumZ ((fun aq => phi (questStepZ env s d 0 aq)) <$> assignedQuests s).
Proof.
  unfold dayCredits, logCredit.
  rewrite !fmap_app, !sumZ_app, <- !list_fmap_compose. unfold compose. lia.
Qed.

Lemma sumZ_fmap_id (l : list Z) : sumZ ((fun x => x) <$> l) = sumZ l.
Proof.
  induction l as [|x l IH]; [reflexivity|].
  now rewrite fmap_cons, !sumZ_cons, IH.
Qed.

Lemma credits_deleteHabit (phi : Z -> Z) env id s d :
  let s' := set_habitLogs
              (filter (fun l => HabitLog.habitId l <> id) (habitLogs s))
              (set_habits (filter (fun x => Habit.id x <> id) (habits s)) s) in
  sumZ (phi <$> dayCredits env s' d)
  = sumZ (phi <$> dayCredits env s d)
    - sumZ ((fun l => phi (logCredit env s d l))
              <$> filter (fun l => HabitLog.habitId l = id) (logsOf s d)).
Proof.
  intros s'. rewrite !credits_unfold.
  assert (Hoth : forall id', id' <> id -> findHabit s' id' = findHabit s id').
  { intros id' Hne. unfold findHabit, s'. cbn [habits set_habitLogs set_habits].
    now apply (list_find_filter_other Habit.id). }
  change (tasks s') with (tasks s). change (events s') with (events s).
  change (assignedQuests s') with (assignedQuests s).
  change (questStepZ env s' d 0) with (questStepZ env s d 0).
  rewrite (sumZ_filter (fun l => HabitLog.habitId l = id)
             (fun l => phi (logCredit env s d l)) (logsOf s d)).
  assert (Hlogs : logsOf s' d
                  = filter (fun l => ~ HabitLog.habitId l = id) (logsOf s d)).
  { unfold logsOf, s'. cbn [habitLogs set_habitLogs].
    rewrite !list_filter_filter. apply list_filter_iff. intros x. tauto. }
  rewrite Hlogs.
  rewrite (sumZ_ext (fun l => phi (logCredit env s' d l))
             (fun l => phi (logCredit env s d l))); [lia|].
  intros x Hx. apply list_elem_of_filter in Hx as [Hx _].
  unfold logCredit, habitStepZ. now rewrite Hoth.
Qed.

Lemma credits_deleteQuestLib (phi : Z -> Z) env id s d :
  let s' := set_assignedQuests
              (filter (fun a => AssignedQuest.libraryId a <> id)
                 (assignedQuests s))
              (set_questLibrary
                 (filter (fun x => QuestLibrary.id x <> id) (questLibrary s)) s) in
  sumZ (phi <$> dayCredits env s' d)
  = sumZ (phi <$> dayCredits env s d)
    - sumZ ((fun a => phi (questStepZ env s d 0 a))
              <$> filter (fun a => AssignedQuest.libraryId a = id)
                    (assignedQuests s)).
Proof.
  intros s'. rewrite !credits_unfold.
  assert (Hoth : forall id', id' <> id -> findQuest s' id' = findQuest s id').
  { intros id' Hne. unfold findQuest, s'.
    cbn [questLibrary set_assignedQuests set_questLibrary].
    now apply (list_find_filter_other QuestLibrary.id). }
  change (tasks s') with (tasks s). change (events s') with (events s).
  change (logsOf s' d) with (logsOf s d).
  change (logCredit env s' d) with (logCredit env s d).
  rewrite (sumZ_filter (fun a => AssignedQuest.libraryId a = id)
             (fun a => phi (questStepZ env s d 0 a)) (assignedQuests s)).
  change (assignedQuests s')
    with (filter (fun a => AssignedQuest.libraryId a <> id) (assignedQuests s)).
  rewrite (sumZ_ext (fun a => phi (questStepZ env s' d 0 a))
             (fun a => phi (questStepZ env s d 0 a))); [lia|].
  intros x Hx. apply list_elem_of_filter in Hx as [Hx _].
  unfold questStepZ. now rewrite Hoth.
Qed.

Lemma credits_deleteTask (phi : Z -> Z) env id s d :
  sumZ (phi <$> dayCredits env
                  (set_tasks (filter (fun x => Task.id x <> id) (tasks s)) s) d)
  = sumZ (phi <$> dayCredits env s d)
    - sumZ ((fun t => phi (taskStepZ env d 0 t))
              <$> filter (fun x => Task.id x = id) (tasks s)).
Proof.
  rewrite !credits_unfold.
  rewrite (sumZ_filter (fun x => Task.id x = id)
             (fun t => phi (taskStepZ env d 0 t)) (tasks s)).
  cbn [tasks set_tasks events assignedQuests].
  change (logsOf (set_tasks _ s) d) with (logsOf s d).
  change (logCredit env (set_tasks _ s) d) with (logCredit env s d).
  change (questStepZ env (set_tasks _ s) d 0) with (questStepZ env s d 0).
  lia.
Qed.

Lemma credits_deleteEvent (phi : Z -> Z) env id s d :
  sumZ (phi <$> dayCredits env
                  (set_events (filter (fun x => Event.id x <> id) (events s)) s) d)
  = sumZ (phi <$> dayCredits env s d)
    - sumZ ((fun ev => phi (eventStepZ env d 0 ev))
              <$> filter (fun x => Event.id x = id) (events s)).
Proof.
  rewrite !credits_unfold.
  rewrite (sumZ_filter (fun x => Event.id x = id)
             (fun ev => phi (eventStepZ env d 0 ev)) (events s)).
  cbn [tasks set_events events assignedQuests].
  change (logsOf (set_events _ s) d) with (logsOf s d).
  change (logCredit env (set_events _ s) d) with (logCredit env s d).
  change (questStepZ env (set_events _ s) d 0) with (questStepZ env s d 0).
  lia.
Qed.

(** What a deletion does to the total of a day that is exact: it stays
    exact, and drops by the credits removed. *)
Lemma total_after_removal env s s' d (removed : list Z) :
  (forall phi : Z -> Z,
      sumZ (phi <$> dayCredits env s' d)
      = sumZ (phi <$> dayCredits env s d) - sumZ (phi <$> removed)) ->
  exactDay env s d ->
  exactDay env s' d /\ dayTotal env s' d = dayTotal env s d - sumZ removed.
Proof.
  intros Hphi Hex.
  assert (Hex' : exactDay env s' d).
  { unfold exactDay, absTotal in *. rewrite (Hphi Z.abs).
    assert (0 <= sumZ (Z.abs <$> removed)); [|lia].
    clear. induction removed as [|x l IH]; [reflexivity|].
    rewrite fmap_cons, sumZ_cons. lia. }
  split; [exact Hex'|].
  rewrite (dayTotal_exact _ _ _ Hex), (dayTotal_exact _ _ _ Hex').
  rewrite !exactTotal_credits.
  pose proof (Hphi (fun x => x)) as H. rewrite !sumZ_fmap_id in H. exact H.
Qed.

(** X17.  [deleteHabit] removes every habit with the id together with every log
    of that habit id, [deleteQuestLib] every library entry with the id
    together with every assigned quest that refers to it; other habits and
    entries are found as before.  On a day whose points stay below 2^53,
    where [total += pts] is exact, the total drops by what the removed
    logs or quests earned on it and the day stays such a day, but no
    cached summary is recomputed. *)
Theorem deleting_a_habit_or_quest_removes_its_credits :
  forall env id s d,
    (exists s',
        deleteHabit id s = Some (tt, s')
        /\ s' = set_habitLogs
                  (filter (fun l => HabitLog.habitId l <> id) (habitLogs s))
                  (set_habits (filter (fun x => Habit.id x <> id) (habits s)) s)
        /\ findHabit s' id = None
        /\ (forall d', findLog (habitLogs s') id d' = None)
        /\ (forall id', id' <> id -> findHabit s' id' = findHabit s id')
        /\ (exactDay env s d ->
            exactDay env s' d
            /\ dayTotal env s' d
               = dayTotal env s d
                 - sumZ (logCredit env s d
                           <$> filter (fun l => HabitLog.habitId l = id)
                                 (logsOf s d)))
        /\ cachedSummary s' d = cachedSummary s d)
    /\ (exists s',
           deleteQuestLib id s = Some (tt, s')
           /\ s' = set_assignedQuests
                     (filter (fun a => AssignedQuest.libraryId a <> id)
                        (assignedQuests s))
                     (set_questLibrary
                        (filter (fun x => QuestLibrary.id x <> id) (questLibrary s)) s)
           /\ findQuest s' id = None
           /\ (forall aq, aq ∈ assignedQuests s' -> AssignedQuest.libraryId aq <> id)
           /\ (forall id', id' <> id -> findQuest s' id' = findQuest s id')
           /\ (exactDay env s d ->
               exactDay env s' d
               /\ dayTotal env s' d
                  = dayTotal env s d
                    - sumZ (questStepZ env s d 0
                              <$> filter (fun a => AssignedQuest.libraryId a = id)
                                    (assignedQuests s)))
           /\ cachedSummary s' d = cachedSummary s d).
Proof.
  intros env id s d. split.
  - eexists. split; [apply deleteHabit_run|]. split; [reflexivity|].
    set (s' := set_habitLogs _ _).
    assert (Hsame : findHabit s' id = None).
    { unfold findHabit, s'. cbn [habits set_habitLogs set_habits].
      now rewrite (list_find_filter_same Habit.id). }
    assert (Hoth : forall id', id' <> id -> findHabit s' id' = findHabit s id').
    { intros id' Hne. unfold findHabit, s'. cbn [habits set_habitLogs set_habits].
      now apply (list_find_filter_other Habit.id). }
    split; [exact Hsame|]. split.
    { intros d'. unfold findLog, s'. cbn [habitLogs set_habitLogs].
      replace (list_find _ _) with (@None (nat * HabitLog.t)); [reflexivity|].
      symmetry. apply list_find_None, Forall_forall. intros x Hx [Hh _].
      now apply list_elem_of_filter in Hx as [Hx _]. }
    split; [exact Hoth|]. split; [|reflexivity].
    apply total_after_removal. intros phi.
    rewrite <- list_fmap_compose. apply (credits_deleteHabit phi env id s d).
  - eexists. split; [apply deleteQuestLib_run|]. split; [reflexivity|].
    set (s' := set_assignedQuests _ _).
    assert (Hoth : forall id', id' <> id -> findQuest s' id' = findQuest s id').
    { intros id' Hne. unfold findQuest, s'. cbn [questLibrary set_assignedQuests set_questLibrary].
      now apply (list_find_filter_other QuestLibrary.id). }
    split.
    { unfold findQuest, s'. cbn [questLibrary set_assignedQuests set_questLibrary].
      now rewrite (list_find_filter_same QuestLibrary.id). }
    split.
    { intros aq Haq. unfold s' in Haq. cbn [assignedQuests set_assignedQuests] in Haq.
      now apply list_elem_of_filter in Haq as [Haq _]. }
    split; [exact Hoth|]. split; [|reflexivity].
    apply total_after_removal. intros phi.
    rewrite <- list_fmap_compose. apply (credits_deleteQuestLib phi env id s d).
Qed.

Lemma deleting_a_habit_or_quest_removes_its_credits_witness :
  exists s',
    deleteHabit "h1" busyState = Some (tt, s')
    /\ dayTotal (zoneEnv 0) busyState 0 = 3
    /\ dayTotal (zoneEnv 0) s' 0 = 0.
Proof.
  destruct (deleting_a_habit_or_quest_removes_its_credits (zoneEnv 0) "h1"
              busyState 0) as [(s' & Hrun & _ & _ & _ & _ & Htot & _) _].
  exists s'. split; [exact Hrun|]. split; [vm_compute; reflexivity|].
  destruct Htot as [_ ->]; vm_compute; reflexivity.
Defined.

(** X18.  [deleteTask] and [deleteEvent] remove every task or event with the
    id and nothing else; on a day whose points stay below 2^53, where
    [total += pts] is exact, the total drops by what the removed entries
    earned on it and the day stays such a day, but no cached summary is
    recomputed. *)
Theorem deleting_a_task_or_event_removes_its_credits :
  forall env id s d,
    (exists s',
        deleteTask id s = Some (tt, s')
        /\ s' = set_tasks (filter (fun x => Task.id x <> id) (tasks s)) s
        /\ (exactDay env s d ->
            exactDay env s' d
            /\ dayTotal env s' d
               = dayTotal env s d
                 - sumZ (taskStepZ env d 0
                           <$> filter (fun x => Task.id x = id) (tasks s)))
        /\ cachedSummary s' d = cachedSummary s d)
    /\ (exists s',
           deleteEvent id s = Some (tt, s')
           /\ s' = set_events (filter (fun x => Event.id x <> id) (events s)) s
           /\ (exactDay env s d ->
               exactDay env s' d
               /\ dayTotal env s' d
                  = dayTotal env s d
                    - sumZ (eventStepZ env d 0
                              <$> filter (fun x => Event.id x = id) (events s)))
           /\ cachedSummary s' d = cachedSummary s d).
Proof.
  intros env id s d. split.
  - eexists. split; [reflexivity|]. split; [reflexivity|]. split; [|reflexivity].
    apply total_after_removal. intros phi.
    rewrite <- list_fmap_compose. apply (credits_deleteTask phi env id s d).
  - eexists. split; [reflexivity|]. split; [reflexivity|]. split; [|reflexivity].
    apply total_after_removal. intros phi.
    rewrite <- list_fmap_compose. apply (credits_deleteEvent phi env id s d).
Qed.

Lemma deleting_a_task_or_event_removes_its_credits_witness :
  exists s',
    deleteTask "t1" (thursdayState "binary" 1 1) = Some (tt, s')
    /\ dayTotal (zoneEnv 0) (thursdayState "binary" 1 1) 0 = 210
    /\ dayTotal (zoneEnv 0) s' 0 = 10.
Proof.
  destruct (deleting_a_task_or_event_removes_its_credits (zoneEnv 0) "t1"
              (thursdayState "binary" 1 1) 0) as [(s' & Hrun & _ & Htot & _) _].
  exists s'. split; [exact Hrun|]. split; [vm_compute; reflexivity|].
  destruct Htot as [_ ->]; vm_compute; reflexivity.
Defined.

(** ** Invariants of the stored state *)

Lemma keepsWellFormed_refl s : keepsWellFormed s s.
Proof. repeat split; auto. Qed.

Lemma keepsWellFormed_trans s1 s2 s3 :
  keepsWellFormed s1 s2 -> keepsWellFormed s2 s3 -> keepsWellFormed s1 s3.
Proof. intros (A1 & B1 & C1 & D1) (A2 & B2 & C2 & D2). repeat split; auto. Qed.

Lemma keepsWellFormed_refreshed env d s : keepsWellFormed s (refreshed env d s).
Proof.
  split; [exact (fun H => H)|]. split; [exact (fun H => H)|].
  split; [exact (fun H => H)|]. apply storeSummary_dates.
Qed.

(** Replacing a stored entry by one that refers to the same library entry,
    or changing lists the references do not read. *)
Lemma keepsWellFormed_quests s l :
  (forall aq, aq ∈ l ->
     exists aq0, aq0 ∈ assignedQuests s
                 /\ AssignedQuest.libraryId aq = AssignedQuest.libraryId aq0) ->
  keepsWellFormed s (set_assignedQuests l s).
Proof.
  intros Hl. split; [exact (fun H => H)|]. split; [|split; exact (fun H => H)].
  intros Hq aq Haq. destruct (Hl aq Haq) as (aq0 & Hin & Heq).
  rewrite Heq. apply (Hq aq0 Hin).
Qed.

Lemma keepsWellFormed_logs s l :
  (logsReferToHabits s ->
   forall lg, lg ∈ l -> is_Some (findHabit s (HabitLog.habitId lg))) ->
  (logKeysUnique s ->
   NoDup ((fun x => (HabitLog.habitId x, HabitLog.date x)) <$> l)) ->
  keepsWellFormed s (set_habitLogs l s).
Proof.
  intros Hl Hu. split; [exact Hl|]. split; [exact (fun H => H)|].
  split; [exact Hu|exact (fun H => H)].
Qed.

Lemma toggleTask_keeps env clock id s :
  exists s', toggleTask env clock id s = Some (tt, s') /\ keepsWellFormed s s'.
Proof.
  unfold toggleTask, bind, gets.
  destruct (list_find _ (tasks s)) as [[i t]|].
  - eexists. split; [reflexivity|].
    eapply keepsWellFormed_trans; [|apply keepsWellFormed_refreshed].
    repeat split; exact (fun H => H).
  - exists s. split; [reflexivity|apply keepsWellFormed_refl].
Qed.

Lemma toggleEvent_keeps env clock id s :
  exists s', toggleEvent env clock id s = Some (tt, s') /\ keepsWellFormed s s'.
Proof.
  unfold toggleEvent, bind, gets.
  destruct (list_find _ (events s)) as [[i ev]|].
  - destruct (negb (Event.pointsEnabled ev)).
    + exists s. split; [reflexivity|apply keepsWellFormed_refl].
    + eexists. split; [reflexivity|].
      eapply keepsWellFormed_trans; [|apply keepsWellFormed_refreshed].
      repeat split; exact (fun H => H).
  - exists s. split; [reflexivity|apply keepsWellFormed_refl].
Qed.

Lemma toggleAssignedQuest_keeps env clock id s :
  exists s', toggleAssignedQuest env clock id s = Some (tt, s')
             /\ keepsWellFormed s s'.
Proof.
  unfold toggleAssignedQuest, bind, gets.
  destruct (list_find _ (assignedQuests s)) as [[i a]|] eqn:Hf.
  - eexists. split; [reflexivity|].
    eapply keepsWellFormed_trans; [|apply keepsWellFormed_refreshed].
    apply keepsWellFormed_quests. intros aq Haq.
    apply list_find_Some in Hf as (Hi & _ & _).
    apply list_elem_of_lookup_1 in Haq as [j Hj].
    destruct (decide (i = j)) as [->|Hne].
    + rewrite list_lookup_insert_eq in Hj by (now apply lookup_lt_Some in Hi).
      inversion Hj; subst aq. exists a. split; [|reflexivity].
      eapply list_elem_of_lookup_2, Hi.
    + rewrite list_lookup_insert_ne in Hj by assumption.
      exists aq. split; [|reflexivity]. eapply list_elem_of_lookup_2, Hj.
  - exists s. split; [reflexivity|apply keepsWellFormed_refl].
Qed.

Lemma deleteHabit_keeps id s :
  exists s', deleteHabit id s = Some (tt, s') /\ keepsWellFormed s s'.
Proof.
  eexists. split; [apply deleteHabit_run|].
  set (s' := set_habitLogs _ _).
  split; [|split; [exact (fun H => H)|split; [|exact (fun H => H)]]].
  - intros Hl lg Hlg. unfold s' in Hlg. cbn [habitLogs set_habitLogs] in Hlg.
    apply list_elem_of_filter in Hlg as [Hne Hin].
    unfold findHabit, s'. cbn [habits set_habitLogs set_habits].
    rewrite (list_find_filter_other Habit.id) by assumption. apply (Hl lg Hin).
  - unfold logKeysUnique, s'. cbn [habitLogs set_habitLogs]. intros Hnd.
    refine (sublist_NoDup _ _ Hnd _). apply fmap_sublist, sublist_filter.
Qed.

Lemma deleteQuestLib_keeps id s :
  exists s', deleteQuestLib id s = Some (tt, s') /\ keepsWellFormed s s'.
Proof.
  eexists. split; [apply deleteQuestLib_run|].
  set (s' := set_assignedQuests _ _).
  split; [exact (fun H => H)|split; [|split; exact (fun H => H)]].
  intros Hq aq Haq. unfold s' in Haq. cbn [assignedQuests set_assignedQuests] in Haq.
  apply list_elem_of_filter in Haq as [Hne Hin].
  unfold findQuest, s'. cbn [questLibrary set_assignedQuests set_questLibrary].
  rewrite (list_find_filter_other QuestLibrary.id) by assumption. apply (Hq aq Hin).
Qed.

(** The logs after a handler has found or created today's log and
    assigned to it. *)
Lemma keepsWellFormed_log_update s id h l1 lg lg' l2 :
  findHabit s id = Some h ->
  HabitLog.habitId lg' = id ->
  (habitLogs s = l1 ++ lg :: l2 \/ (habitLogs s = l1 /\ l2 = [])) ->
  (logKeysUnique s ->
   NoDup ((fun x => (HabitLog.habitId x, HabitLog.date x)) <$> (l1 ++ lg' :: l2))) ->
  keepsWellFormed s (set_habitLogs (l1 ++ lg' :: l2) s).
Proof.
  intros Hh Hid Hold Hnd. apply keepsWellFormed_logs; [|exact Hnd].
  intros Hrefs x Hx.
  assert (Hcases : x = lg' \/ x ∈ habitLogs s).
  { apply elem_of_app in Hx as [Hx|Hx].
    - right. destruct Hold as [->|[-> _]]; [apply elem_of_app|]; auto.
    - apply elem_of_cons in Hx as [->|Hx]; [now left|right].
      destruct Hold as [->|[_ ->]]; [|inversion Hx].
      apply elem_of_app. right. now right. }
  destruct Hcases as [->|Hin]; [|now apply Hrefs].
  rewrite Hid, Hh. now eexists.
Qed.

Lemma getOrCreateHabitLog_keeps id h today s :
  findHabit s id = Some h ->
  exists i s', getOrCreateHabitLog id today s = Some (i, s')
               /\ keepsWellFormed s s'.
Proof.
  intros Hh.
  destruct (getOrCreateHabitLog_spec id today s)
    as (i & lg & l1 & l2 & s' & Hrun & -> & _ & Hlh & Hld & Hl1 & Hold).
  exists i. eexists. split; [exact Hrun|].
  apply (keepsWellFormed_log_update s id h l1 lg lg l2 Hh Hlh).
  - destruct Hold as [Hl|(_ & Hl & Hl2 & _)]; [now left|now right].
  - unfold logKeysUnique. intros Hnd.
    destruct Hold as [<-|(_ & <- & -> & _)]; [exact Hnd|].
    rewrite fmap_app. apply NoDup_app. split; [exact Hnd|].
    split; [|apply NoDup_singleton].
    intros k Hk Hk'. apply list_elem_of_singleton in Hk'. subst k.
    apply list_elem_of_fmap in Hk as (x & Hkey & Hin).
    rewrite Forall_forall in Hl1. apply (Hl1 x Hin).
    cbn in Hkey. inversion Hkey. split; congruence.
Qed.

Lemma log_update_keeps env id h today today2 f s :
  findHabit s id = Some h ->
  (forall lg, HabitLog.habitId (f lg) = HabitLog.habitId lg
              /\ HabitLog.date (f lg) = HabitLog.date lg) ->
  exists s',
    (let* i := getOrCreateHabitLog id today in
     updateLog i f ;;
     let* _ := upsertDaySummary env today2 in
     ret tt) s = Some (tt, s')
    /\ keepsWellFormed s s'.
Proof.
  intros Hh Hf.
  destruct (log_update_run env id today today2 f s Hf)
    as (l1 & l2 & Hrun & Hlh & Hld & _ & _ & Hold & Hnd).
  eexists. split; [exact Hrun|].
  eapply keepsWellFormed_trans; [|apply keepsWellFormed_refreshed].
  apply (keepsWellFormed_log_update s id h l1 (logBefore s id today)).
  - exact Hh.
  - destruct (Hf (logBefore s id today)) as [-> _]. exact Hlh.
  - destruct Hold as [Hl|(Hl & Hl2 & _)]; [now left|now right].
  - exact Hnd.
Qed.

Lemma toggleHabitBinary_keeps env clock id s :
  exists s', toggleHabitBinary env clock id s = Some (tt, s')
             /\ keepsWellFormed s s'.
Proof.
  unfold toggleHabitBinary. unfold bind at 1. unfold gets.
  destruct (findHabit s id) as [h|] eqn:Hh;
    [|exists s; split; [reflexivity|apply keepsWellFormed_refl]].
  destruct (negb (String.eqb (Habit.type h) "binary")).
  - destruct (getOrCreateHabitLog_keeps id h
                (Clock.todayStr (utcOffset env) (clock 0%nat)) s Hh)
      as (i & s' & Hrun & Hk).
    exists s'. unfold bind. rewrite Hrun. split; [reflexivity|exact Hk].
  - apply (log_update_keeps env id h); [exact Hh|]. intros lg. split; reflexivity.
Qed.

Lemma stepHabitCounter_keeps env clock id delta s :
  exists s', stepHabitCounter env clock id delta s = Some (tt, s')
             /\ keepsWellFormed s s'.
Proof.
  unfold stepHabitCounter. unfold bind at 1. unfold gets.
  destruct (findHabit s id) as [h|] eqn:Hh;
    [|exists s; split; [reflexivity|apply keepsWellFormed_refl]].
  destruct (negb (String.eqb (Habit.type h) "counter"));
    [exists s; split; [reflexivity|apply keepsWellFormed_refl]|].
  apply (log_update_keeps env id h); [exact Hh|]. intros lg. split; reflexivity.
Qed.

Lemma completeHabitCounter_keeps env clock id s :
  exists s', completeHabitCounter env clock id s = Some (tt, s')
             /\ keepsWellFormed s s'.
Proof.
  unfold completeHabitCounter. unfold bind at 1. unfold gets.
  destruct (findHabit s id) as [h|] eqn:Hh;
    [|exists s; split; [reflexivity|apply keepsWellFormed_refl]].
  destruct (negb (String.eqb (Habit.type h) "counter"));
    [exists s; split; [reflexivity|apply keepsWellFormed_refl]|].
  apply (log_update_keeps env id h); [exact Hh|]. intros lg. split; reflexivity.
Qed.

Lemma ensureRollover_keeps env now s :
  randomOk env (Z.of_nat (length (activePool s))) ->
  exists s', ensureRollover env now s = Some (tt, s') /\ keepsWellFormed s s'.
Proof.
  intros Hok.
  destruct (ensureRollover_effect env now s Hok)
    as (D & W & rc & uc & Hrun & HD & HW & _ & _).
  eexists. split; [exact Hrun|].
  split; [exact (fun H => H)|]. split; [|split; [exact (fun H => H)|]].
  - intros Hq aq Haq. cbn [assignedQuests] in Haq.
    assert (Hnew : forall x, newQuest s x ->
                     is_Some (findQuest s (AssignedQuest.libraryId x))).
    { intros x (_ & q & Hin & ->). unfold activePool in Hin.
      apply list_elem_of_filter in Hin as [_ Hin].
      unfold findQuest. apply fmap_is_Some.
      apply (list_find_elem_of _ _ q); [exact Hin|reflexivity]. }
    apply elem_of_app in Haq as [Haq|Haq]; [now apply Hq|].
    apply Hnew. apply elem_of_app in Haq as [Haq|Haq].
    + rewrite Forall_forall in HD. now destruct (HD aq Haq).
    + rewrite Forall_forall in HW. now destruct (HW aq Haq).
  - unfold summaryDatesUnique. cbn [daySummaries]. unfold rolloverSummaries.
    intros Hnd. apply storeSummary_dates.
    destruct (Meta.lastAssignmentRun (meta s)); [|exact Hnd].
    destruct (bool_decide _); [|exact Hnd]. now apply storeSummary_dates.
Qed.



(** ** Date keys as text *)

Lemma holdsOn_spec fuel lo hi f :
  holdsOn fuel lo hi f = true -> forall k, lo <= k < hi -> f k = true.
Proof.
  revert lo hi. induction fuel as [|fuel IH]; intros lo hi H k Hk; simpl in H.
  - destruct (Z.leb_spec hi lo) as [Hle|Hlt]; [lia|].
    destruct (Z.leb_spec hi (lo + 1)) as [Hle1|Hlt1]; [|discriminate].
    now replace k with lo by lia.
  - destruct (Z.leb_spec hi lo) as [Hle|Hlt]; [lia|].
    destruct (Z.leb_spec hi (lo + 1)) as [Hle1|Hlt1];
      [now replace k with lo by lia|].
    apply andb_prop in H as [Hleft Hright].
    destruct (Z.lt_ge_cases k ((lo + hi) / 2)) as [Hk1|Hk2].
    + apply (IH _ _ Hleft). lia.
    + apply (IH _ _ Hright). lia.
Qed.

Lemma era_day_round_trip doe :
  0 <= doe < 146097 ->
  let '(yoe, month, date) := Text.civilOfEraDay doe in
  0 <= yoe < 400 /\ 0 <= month <= 11 /\ 1 <= date <= 31
  /\ eraDayOfCivil yoe month date = doe.
Proof.
  intros Hd.
  assert (Hall : holdsOn 18 0 146097
                   (fun doe =>
                      let '(yoe, month, date) := Text.civilOfEraDay doe in
                      (0 <=? yoe) && (yoe <? 400) && (0 <=? month) && (month <=? 11)
                      && (1 <=? date) && (date <=? 31)
                      && (eraDayOfCivil yoe month date =? doe)) = true)
    by (vm_compute; reflexivity).
  pose proof (holdsOn_spec _ _ _ _ Hall doe Hd) as H. cbv beta in H.
  destruct (Text.civilOfEraDay doe) as [[yoe month] date].
  rewrite !andb_true_iff, !Z.leb_le, !Z.ltb_lt, Z.eqb_eq in H. lia.
Qed.

Lemma civil_round_trip day :
  let '(year, month, date) := Text.civil day in
  0 <= month <= 11 /\ 1 <= date <= 31 /\ dayOfCivil year month date = day.
Proof.
  unfold Text.civil.
  pose proof (Z.mod_pos_bound (day + 719468) 146097 ltac:(lia)) as Hdoe.
  pose proof (Z.div_mod (day + 719468) 146097 ltac:(lia)) as Hdm.
  pose proof (era_day_round_trip _ Hdoe) as H.
  destruct (Text.civilOfEraDay ((day + 719468) mod 146097)) as [[yoe month] date].
  destruct H as (Hy & Hm & Hd & Hback).
  split; [exact Hm|]. split; [exact Hd|].
  unfold dayOfCivil. set (era := (day + 719468) / 146097) in *.
  assert (Hy' : (if month <=? 1
                 then yoe + era * 400 + (if month <=? 1 then 1 else 0) - 1
                 else yoe + era * 400 + (if month <=? 1 then 1 else 0))
                = yoe + era * 400).
  { destruct (month <=? 1); lia. }
  rewrite Hy'. rewrite Z.div_add, Z.div_small, Z_mod_plus_full, Z.mod_small by lia.
  rewrite Hback. lia.
Qed.

Lemma civil_inj a b : Text.civil a = Text.civil b -> a = b.
Proof.
  intros Heq. pose proof (civil_round_trip a) as Ha.
  pose proof (civil_round_trip b) as Hb. rewrite Heq in Ha.
  destruct (Text.civil b) as [[y m] d]. destruct Ha as (_ & _ & <-).
  now destruct Hb as (_ & _ & <-).
Qed.

Lemma string_length_append (s1 s2 : string) :
  String.length (s1 +:+ s2) = (String.length s1 + String.length s2)%nat.
Proof. induction s1 as [|c s1 IH]; simpl; [reflexivity|now rewrite IH]. Qed.

Lemma string_append_cons c s t : String c s +:+ t = String c (s +:+ t).
Proof. reflexivity. Qed.

Lemma string_append_nil t : "" +:+ t = t.
Proof. reflexivity. Qed.

(** Two texts that end in parts of the same length and are equal have
    equal parts. *)
Lemma string_append_inj (s1 t1 s2 t2 : string) :
  s1 +:+ t1 = s2 +:+ t2 -> String.length t1 = String.length t2 ->
  s1 = s2 /\ t1 = t2.
Proof.
  revert s2. induction s1 as [|c s1 IH]; intros [|c2 s2] Heq Hlen;
    rewrite ?string_append_cons, ?string_append_nil in Heq.
  - now split.
  - exfalso. rewrite Heq in Hlen. simpl in Hlen.
    rewrite string_length_append in Hlen. lia.
  - exfalso. rewrite <- Heq in Hlen. simpl in Hlen.
    rewrite string_length_append in Hlen. lia.
  - inversion Heq as [[Hc Hrest]]. subst c2.
    destruct (IH s2 Hrest Hlen) as [-> ->]. now split.
Qed.

Lemma ofInt_inj a b : Text.ofInt a = Text.ofInt b -> a = b.
Proof.
  unfold Text.ofInt. intros Heq.
  assert (Hnn : forall z, Z.to_int z <> Decimal.Pos Decimal.Nil
                          /\ Z.to_int z <> Decimal.Neg Decimal.Nil).
  { intros [|p|p]; split; try discriminate; simpl; intros H; inversion H;
      now apply (Unsigned.to_uint_nonnil p). }
  apply DecimalZ.to_int_inj.
  assert (Hs : NilZero.int_of_string (NilZero.string_of_int (Z.to_int a))
               = NilZero.int_of_string (NilZero.string_of_int (Z.to_int b)))
    by now rewrite Heq.
  rewrite !NilZero.isi in Hs by apply Hnn. now inversion Hs.
Qed.

(** [pad2] writes the numbers from 0 to 99 with two digits, and the number
    can be read back. *)
Lemma pad2_two_digits n :
  0 <= n < 100 ->
  String.length (Text.pad2 n) = 2%nat
  /\ (Z.of_int <$> NilZero.int_of_string (Text.pad2 n)) = Some n.
Proof.
  intros Hn.
  assert (Hall : holdsOn 7 0 100
                   (fun n =>
                      (String.length (Text.pad2 n) =? 2)%nat
                      && match NilZero.int_of_string (Text.pad2 n) with
                         | Some d => Z.of_int d =? n
                         | None => false
                         end) = true)
    by (vm_compute; reflexivity).
  pose proof (holdsOn_spec _ _ _ _ Hall n Hn) as H. cbv beta in H.
  apply andb_prop in H as [Hlen Hdec]. apply Nat.eqb_eq in Hlen.
  split; [exact Hlen|].
  destruct (NilZero.int_of_string (Text.pad2 n)) as [d|]; [|discriminate].
  apply Z.eqb_eq in Hdec. simpl. now rewrite Hdec.
Qed.

Lemma pad2_inj a b :
  0 <= a < 100 -> 0 <= b < 100 -> Text.pad2 a = Text.pad2 b -> a = b.
Proof.
  intros Ha Hb Heq.
  destruct (pad2_two_digits a Ha) as [_ Hda].
  destruct (pad2_two_digits b Hb) as [_ Hdb].
  rewrite Heq, Hdb in Hda. now inversion Hda.
Qed.

Lemma todayStr_text tz t :
  Text.todayStr tz t
  = let '(year, month, date) := Text.civil (Clock.todayStr tz t) in
    (Text.ofInt year +:+ "-" +:+ Text.pad2 (month + 1) +:+ "-" +:+ Text.pad2 date)%string.
Proof.
  unfold Text.todayStr, Text.getFullYear, Text.getMonth, Text.getDate.
  now destruct (Text.civil (Clock.todayStr tz t)) as [[y m] d].
Qed.

(** X20.  The text [todayStr] builds,
    [getFullYear()-pad2(getMonth()+1)-pad2(getDate())]: two instants get the
    same text exactly when they fall on the same local day, the text is
    that of the local day alone, and month and day of the month are always
    written with two characters. *)
Theorem date_keys_are_equal_for_equal_days_only :
  forall tz a b,
    (Text.todayStr tz a = Text.todayStr tz b
     <-> Clock.todayStr tz a = Clock.todayStr tz b)
    /\ Text.todayStr tz a = Text.dateKey (Clock.todayStr tz a)
    /\ String.length (Text.pad2 (Text.getMonth tz a + 1)) = 2%nat
    /\ String.length (Text.pad2 (Text.getDate tz a)) = 2%nat.
Proof.
  intros tz a b.
  pose proof (civil_round_trip (Clock.todayStr tz a)) as Ha.
  pose proof (civil_round_trip (Clock.todayStr tz b)) as Hb.
  split; [|split; [|split]].
  - split; [|intros Heq; rewrite !todayStr_text; now rewrite Heq].
    rewrite !todayStr_text. intros Heq. apply civil_inj.
    destruct (Text.civil (Clock.todayStr tz a)) as [[y1 m1] d1].
    destruct (Text.civil (Clock.todayStr tz b)) as [[y2 m2] d2].
    destruct Ha as (Hm1 & Hd1 & _). destruct Hb as (Hm2 & Hd2 & _).
    destruct (pad2_two_digits (m1 + 1) ltac:(lia)) as [Lm1 _].
    destruct (pad2_two_digits (m2 + 1) ltac:(lia)) as [Lm2 _].
    destruct (pad2_two_digits d1 ltac:(lia)) as [Ld1 _].
    destruct (pad2_two_digits d2 ltac:(lia)) as [Ld2 _].
    apply string_append_inj in Heq as [Hy Hrest].
    2:{ rewrite !string_length_append. simpl. lia. }
    rewrite !string_append_cons, !string_append_nil in Hrest.
    inversion Hrest as [Hrest'].
    apply string_append_inj in Hrest' as [Hm Hrest''].
    2:{ simpl. lia. }
    inversion Hrest'' as [Hd].
    apply ofInt_inj in Hy. apply pad2_inj in Hm; [|lia..]. apply pad2_inj in Hd; [|lia..].
    f_equal; [f_equal|]; lia.
  - unfold Text.dateKey. rewrite !todayStr_text.
    unfold Clock.todayStr at 2, Clock.parseDateOnly, Clock.msPerDay.
    now rewrite Z.add_0_r, Z.div_mul by lia.
  - unfold Text.getMonth. destruct (Text.civil (Clock.todayStr tz a)) as [[y m] d].
    destruct Ha as (Hm & _). apply pad2_two_digits. simpl. lia.
  - unfold Text.getDate. destruct (Text.civil (Clock.todayStr tz a)) as [[y m] d].
    destruct Ha as (_ & Hd & _). apply pad2_two_digits. simpl. lia.
Qed.

(** The epoch, a day before it, and the leap days of 2000 and 2024. *)
Example dateKey_examples :
  Text.dateKey 0 = "1970-01-01"%string
  /\ Text.dateKey (-1) = "1969-12-31"%string
  /\ Text.dateKey 11016 = "2000-02-29"%string
  /\ Text.dateKey 19782 = "2024-02-29"%string
  /\ Text.dateKey 19783 = "2024-03-01"%string
  /\ Text.todayStr (- 5 * hourMs) exampleNow = "2022-01-07"%string.
Proof. repeat split; vm_compute; reflexivity. Qed.

(** ** The task lists of the Today view *)

Lemma todayStr_mono tz a b :
  a <= b -> Clock.todayStr tz a <= Clock.todayStr tz b.
Proof.
  intros H. unfold Clock.todayStr, Clock.msPerDay.
  apply Z.div_le_mono; lia.
Qed.

Lemma taskSections_elem env clock s t :
  let v := taskSections env clock s in
  (t ∈ overdue v <->
     t ∈ tasks s /\ Task.completedAt t = None
     /\ exists due, Task.dueDate t = Some due /\ due < clock 1%nat)
  /\ (t ∈ dueToday v <->
     t ∈ tasks s /\ Task.completedAt t = None
     /\ exists due, Task.dueDate t = Some due
        /\ Clock.todayStr (utcOffset env) due
           = Clock.todayStr (utcOffset env) (clock 0%nat))
  /\ (t ∈ noDue v <->
     t ∈ tasks s /\ Task.completedAt t = None /\ Task.dueDate t = None)
  /\ (t ∈ future v <->
     t ∈ tasks s /\ Task.completedAt t = None
     /\ exists due, Task.dueDate t = Some due /\ clock 1%nat < due).
Proof.
  cbn. rewrite !list_elem_of_filter. unfold notCompleted.
  destruct (Task.dueDate t) as [due|], (Task.completedAt t) as [c|];
    rewrite ?andb_true_iff, ?Z.ltb_lt, ?bool_decide_eq_true;
    repeat split; intros; destruct_and?;
      repeat match goal with
      | H : exists _, _ |- _ => destruct H as (? & ? & ?)
      end; simplify_eq; eauto; try discriminate.
Qed.

(** X21.  The four lists of [renderSectionTasks] ('Overdue', 'Due Today', 'No
    Due Date', 'Upcoming'), when the day does not change between its two
    clock reads.  A completed task is in none; an open task without due
    date is in 'No Due Date' only; an open task due on an earlier day is in
    'Overdue' only and one due on a later day in 'Upcoming' only; an open
    task due today is in 'Due Today' and also in 'Overdue' once its time
    has passed or in 'Upcoming' before it, never in both. *)
Theorem every_open_task_is_listed env clock s t :
  Clock.todayStr (utcOffset env) (clock 1%nat)
    = Clock.todayStr (utcOffset env) (clock 0%nat) ->
  t ∈ tasks s ->
  let v := taskSections env clock s in
  let today := Clock.todayStr (utcOffset env) (clock 0%nat) in
  match Task.completedAt t, Task.dueDate t with
  | Some _, _ =>
      (t ∉ overdue v) /\ (t ∉ dueToday v) /\ (t ∉ noDue v) /\ (t ∉ future v)
  | None, None =>
      (t ∉ overdue v) /\ (t ∉ dueToday v) /\ t ∈ noDue v /\ (t ∉ future v)
  | None, Some due =>
      (t ∉ noDue v)
      /\ (Clock.todayStr (utcOffset env) due < today ->
          t ∈ overdue v /\ (t ∉ dueToday v) /\ (t ∉ future v))
      /\ (today < Clock.todayStr (utcOffset env) due ->
          (t ∉ overdue v) /\ (t ∉ dueToday v) /\ t ∈ future v)
      /\ (Clock.todayStr (utcOffset env) due = today ->
          t ∈ dueToday v
          /\ (t ∈ overdue v <-> due < clock 1%nat)
          /\ (t ∈ future v <-> clock 1%nat < due)
          /\ ~ (t ∈ overdue v /\ t ∈ future v))
  end.
Proof.
  intros Hday Ht v today.
  destruct (taskSections_elem env clock s t) as (Ho & Hd & Hn & Hf).
  fold v in Ho, Hd, Hn, Hf. fold today in Hd.
  pose proof (todayStr_mono (utcOffset env)) as Hmono.
  fold today in Hday.
  destruct (Task.completedAt t) as [c|] eqn:Hc.
  { rewrite Ho, Hd, Hn, Hf. repeat split; intros (_ & ? & _); discriminate. }
  destruct (Task.dueDate t) as [due|] eqn:Hdue.
  2:{ rewrite Ho, Hd, Hn, Hf.
      repeat split; auto;
        try (intros (_ & _ & (? & ? & _)); discriminate). }
  assert (Hov : t ∈ overdue v <-> due < clock 1%nat).
  { rewrite Ho. split.
    - intros (_ & _ & (x & Hx & Hlt)). now simplify_eq.
    - intros Hlt. eauto. }
  assert (Hfu : t ∈ future v <-> clock 1%nat < due).
  { rewrite Hf. split.
    - intros (_ & _ & (x & Hx & Hlt)). now simplify_eq.
    - intros Hlt. eauto. }
  assert (Hto : t ∈ dueToday v <-> Clock.todayStr (utcOffset env) due = today).
  { rewrite Hd. split.
    - intros (_ & _ & (x & Hx & He)). now simplify_eq.
    - intros He. eauto. }
  split; [rewrite Hn; intros (_ & _ & ?); discriminate|].
  split; [|split].
  - intros Hlt. rewrite Hov, Hto, Hfu.
    assert (due < clock 1%nat).
    { destruct (Z_lt_le_dec due (clock 1%nat)) as [|Hge]; [assumption|].
      apply Hmono in Hge. lia. }
    repeat split; [assumption|lia|lia].
  - intros Hlt. rewrite Hov, Hto, Hfu.
    assert (clock 1%nat < due).
    { destruct (Z_lt_le_dec (clock 1%nat) due) as [|Hge]; [assumption|].
      apply Hmono in Hge. lia. }
    repeat split; [lia|lia|assumption].
  - intros He. split; [now apply Hto|]. split; [exact Hov|].
    split; [exact Hfu|]. rewrite Hov, Hfu. lia.
Qed.

Lemma every_open_task_is_listed_witness :
  let v := taskSections (zoneEnv 0) noonClock busyState in
  let t2 := Task.mk "t2" 30 (Some (18 * hourMs)) None in
  t2 ∈ dueToday v /\ t2 ∈ future v /\ (t2 ∉ overdue v) /\ (t2 ∉ noDue v).
Proof.
  intros v t2.
  assert (Hin : t2 ∈ tasks busyState).
  { cbn. apply list_elem_of_further, list_elem_of_here. }
  destruct (every_open_task_is_listed (zoneEnv 0) noonClock busyState t2
              eq_refl Hin) as (Hn & _ & _ & Htoday).
  destruct (Htoday eq_refl) as (Hd & Ho & Hf & _).
  split; [exact Hd|]. split; [|split; [|exact Hn]].
  - apply Hf. vm_compute. reflexivity.
  - intros H. apply Ho in H. vm_compute in H. discriminate H.
Defined.

(** ** Escaping of titles *)

Lemma chars_append s1 s2 : chars (s1 ++ s2) = chars s1 ++ chars s2.
Proof.
  induction s1 as [|c s1 IH]; [reflexivity|].
  change (String c s1 ++ s2)%string with (String c (s1 ++ s2)).
  cbn. now rewrite IH.
Qed.

Lemma escapeChar_cases c :
  (isSpecial c = false /\ escapeChar c = String c "")
  \/ (c = "&"%char /\ escapeChar c = "&amp;"%string)
  \/ (c = "<"%char /\ escapeChar c = "&lt;"%string)
  \/ (c = ">"%char /\ escapeChar c = "&gt;"%string)
  \/ (c = "034"%char /\ escapeChar c = "&quot;"%string)
  \/ (c = "039"%char /\ escapeChar c = "&#39;"%string).
Proof.
  unfold escapeChar, isSpecial.
  destruct (Ascii.eqb_spec c "&") as [->|]; [right; left; now split|].
  destruct (Ascii.eqb_spec c "<") as [->|];
    [right; right; left; now split|].
  destruct (Ascii.eqb_spec c ">") as [->|];
    [right; right; right; left; now split|].
  destruct (Ascii.eqb_spec c "034") as [->|];
    [right; right; right; right; left; now split|].
  destruct (Ascii.eqb_spec c "039") as [->|];
    [right; right; right; right; right; now split|].
  left. now split.
Qed.

Lemma replaceSpecials_cons c s :
  replaceSpecials (String c s) = (escapeChar c ++ replaceSpecials s)%string.
Proof. reflexivity. Qed.

Lemma replaceSpecials_inj s1 :
  forall s2, replaceSpecials s1 = replaceSpecials s2 -> s1 = s2.
Proof.
  induction s1 as [|c1 s1 IH]; intros [|c2 s2].
  - reflexivity.
  - rewrite replaceSpecials_cons. cbn [replaceSpecials].
    destruct (escapeChar_cases c2) as [(_ & ->)|[(_ & ->)|[(_ & ->)|[(_ & ->)|[(_ & ->)|(_ & ->)]]]]];
      intros H; discriminate H.
  - rewrite replaceSpecials_cons. cbn [replaceSpecials].
    destruct (escapeChar_cases c1) as [(_ & ->)|[(_ & ->)|[(_ & ->)|[(_ & ->)|[(_ & ->)|(_ & ->)]]]]];
      intros H; discriminate H.
  - rewrite !replaceSpecials_cons.
    destruct (escapeChar_cases c1) as [(N1 & ->)|[(-> & ->)|[(-> & ->)|[(-> & ->)|[(-> & ->)|(-> & ->)]]]]];
    destruct (escapeChar_cases c2) as [(N2 & ->)|[(-> & ->)|[(-> & ->)|[(-> & ->)|[(-> & ->)|(-> & ->)]]]]];
      intros H; injection H as H; subst;
      try discriminate;
      try (f_equal; now apply IH).
Qed.

Lemma escapeChar_no_markup c :
  Forall (fun x => isMarkup x = false) (chars (escapeChar c)).
Proof.
  destruct (escapeChar_cases c)
    as [(N & ->)|[(_ & ->)|[(_ & ->)|[(_ & ->)|[(_ & ->)|(_ & ->)]]]]];
    cbn [chars]; repeat constructor.
  unfold isSpecial in N. unfold isMarkup.
  destruct (Ascii.eqb c "&"); [discriminate N|]. exact N.
Qed.

Lemma replaceSpecials_no_markup s :
  Forall (fun x => isMarkup x = false) (chars (replaceSpecials s)).
Proof.
  induction s as [|c s IH]; [constructor|].
  rewrite replaceSpecials_cons, chars_append.
  apply Forall_app. split; [apply escapeChar_no_markup|exact IH].
Qed.

Lemma replaceSpecials_plain s :
  Forall (fun x => isSpecial x = false) (chars s) -> replaceSpecials s = s.
Proof.
  induction s as [|c s IH]; [reflexivity|].
  cbn [chars]. intros H. apply Forall_cons in H as (Hc & Hs).
  rewrite replaceSpecials_cons, (IH Hs).
  destruct (escapeChar_cases c)
    as [(_ & ->)|[(-> & _)|[(-> & _)|[(-> & _)|[(-> & _)|(-> & _)]]]]];
    [reflexivity|discriminate Hc..].
Qed.

(** X22.  [escapeHtml]: the result holds none of the characters less-than,
    greater-than, double quote and single quote; a text without those and
    without ampersand is returned as it is; two different texts are never
    escaped to the same text; [null] and the empty text give the empty
    text. *)
Theorem escaped_text_has_no_markup_and_loses_nothing :
  (forall s, Forall (fun c => isMarkup c = false) (chars (escapeHtml s)))
  /\ (forall s, Forall (fun c => isSpecial c = false) (chars s) ->
                escapeHtml (Some s) = s)
  /\ (forall s1 s2, escapeHtml (Some s1) = escapeHtml (Some s2) -> s1 = s2)
  /\ escapeHtml None = ""%string
  /\ escapeHtml (Some ""%string) = ""%string.
Proof.
  split; [intros s; apply replaceSpecials_no_markup|].
  split; [intros s; apply replaceSpecials_plain|].
  split; [intros s1 s2; apply replaceSpecials_inj|].
  split; reflexivity.
Qed.

Lemma escaped_text_has_no_markup_and_loses_nothing_witness :
  escapeHtml (Some "Buy milk"%string) = "Buy milk"%string.
Proof.
  apply (proj1 (proj2 escaped_text_has_no_markup_and_loses_nothing)).
  repeat constructor.
Defined.

(** ** The list 'Completed Today' *)

Lemma isSameDay_key env d comp :
  - Clock.msPerDay <= utcOffset env < Clock.msPerDay ->
  isSameDay env comp (Clock.parseDateOnly d)
  = inDay env (if 0 <=? utcOffset env then d else d - 1) comp.
Proof.
  intros Htz. unfold isSameDay.
  rewrite (todayStr_parseDateOnly _ _ Htz).
  destruct (inDay env _ comp) eqn:Hin.
  - apply inDay_spec in Hin. now apply bool_decide_eq_true.
  - apply bool_decide_eq_false. intros H. apply inDay_spec in H. congruence.
Qed.

Lemma insertByPts_perm x l : insertByPts x l ≡ₚ x :: l.
Proof.
  induction l as [|y l IH]; [reflexivity|]. cbn.
  destruct (Item.pts x <=? Item.pts y); [|reflexivity].
  rewrite IH. apply perm_swap.
Qed.

Lemma sortByPts_perm l : sortByPts l ≡ₚ l.
Proof.
  unfold sortByPts.
  assert (H : forall acc, foldl (fun sorted x => insertByPts x sorted) acc l ≡ₚ acc ++ l).
  { induction l as [|x l IH]; intros acc; cbn.
    - now rewrite app_nil_r.
    - rewrite IH, insertByPts_perm. cbn. apply Permutation_middle. }
  apply H.
Qed.

Lemma insertByPts_descending x l : descending l -> descending (insertByPts x l).
Proof.
  induction l as [|y l IH]; intros Hl.
  - cbn. split; [constructor|exact I].
  - destruct Hl as (Hy & Hl). cbn.
    destruct (Z.leb_spec (Item.pts x) (Item.pts y)) as [Hle|Hlt].
    + split; [|now apply IH].
      rewrite insertByPts_perm. now constructor.
    + split; [|split; assumption].
      constructor; [lia|].
      eapply Forall_impl; [exact Hy|]. intros z Hz. cbn in Hz. lia.
Qed.

Lemma sortByPts_descending l : descending (sortByPts l).
Proof.
  unfold sortByPts.
  assert (H : forall acc, descending acc ->
                descending (foldl (fun sorted x => insertByPts x sorted) acc l)).
  { induction l as [|x l IH]; intros acc Hacc; cbn; [exact Hacc|].
    apply IH, insertByPts_descending, Hacc. }
  apply H. exact I.
Qed.

Lemma shownPoints_perm l1 l2 : l1 ≡ₚ l2 -> shownPoints l1 = shownPoints l2.
Proof.
  intros H. unfold shownPoints. apply sumZ_perm. now rewrite H.
Qed.

Lemma shownPoints_app l1 l2 : shownPoints (l1 ++ l2) = shownPoints l1 + shownPoints l2.
Proof. unfold shownPoints. now rewrite filter_app, fmap_app, sumZ_app. Qed.

Lemma shownPoints_omap {A} (f : A -> option Item.t) (g : A -> Z) (l : list A) :
  (forall x, x ∈ l ->
     match f x with
     | Some i => if bool_decide (Item.kind i <> "habit"%string) then Item.pts i else 0
     | None => 0
     end = g x) ->
  shownPoints (omap f l) = sumZ (g <$> l).
Proof.
  unfold shownPoints. induction l as [|x l IH]; intros H; [reflexivity|].
  cbn [omap list_omap]. rewrite fmap_cons. cbn [sumZ foldr].
  assert (Hx := H x ltac:(left)).
  assert (Hl : forall y, y ∈ l -> 
                 match f y with
                 | Some i => if bool_decide (Item.kind i <> "habit"%string)
                             then Item.pts i else 0
                 | None => 0
                 end = g y) by (intros y Hy; apply H; now right).
  specialize (IH Hl). fold (sumZ (g <$> l)). rewrite <- IH, <- Hx.
  destruct (f x) as [i|]; [|reflexivity].
  rewrite filter_cons. destruct (decide (Item.kind i <> "habit"%string)) as [Hk|Hk].
  - rewrite bool_decide_eq_true_2 by exact Hk. reflexivity.
  - rewrite bool_decide_eq_false_2 by exact Hk. reflexivity.
Qed.

Lemma sumZ_zero {A} (l : list A) : sumZ ((fun _ => 0) <$> l) = 0.
Proof. induction l as [|x l IH]; [reflexivity|]. rewrite fmap_cons. cbn. exact IH. Qed.

Lemma kind_not_habit :
  bool_decide ("task"%string <> "habit"%string) = true
  /\ bool_decide ("event"%string <> "habit"%string) = true
  /\ bool_decide ("quest"%string <> "habit"%string) = true
  /\ bool_decide ("habit"%string <> "habit"%string) = false.
Proof. repeat split; vm_compute; reflexivity. Qed.

Lemma shown_tasks env today d l :
  (forall comp, isSameDay env comp (Clock.parseDateOnly today) = inDay env d comp) ->
  shownPoints (taskItems env today l) = sumZ (taskStepZ env d 0 <$> l).
Proof.
  intros Hsame. apply shownPoints_omap. intros t _.
  destruct kind_not_habit as (Hk & _).
  unfold taskStepZ, completedOn, isAfter.
  destruct (Task.completedAt t) as [comp|]; [|reflexivity].
  rewrite Hsame. destruct (inDay env d comp); [|reflexivity].
  cbn [Item.kind Item.pts]. rewrite Hk.
  destruct (Task.dueDate t) as [due|]; [|lia].
  destruct (Z.ltb_spec due comp), (Z.leb_spec comp due); lia.
Qed.

Lemma shown_habits s today : shownPoints (habitItems s today) = 0.
Proof.
  unfold habitItems. rewrite <- (sumZ_zero (habits s)).
  apply shownPoints_omap. intros h _.
  destruct kind_not_habit as (_ & _ & _ & Hk).
  destruct (findLog _ _ _) as [log|]; [|reflexivity].
  match goal with |- context [if ?b then Some _ else None] => destruct b end;
    [|reflexivity].
  cbn [Item.kind Item.pts]. now rewrite Hk.
Qed.

Lemma shown_events env today d l :
  (forall comp, isSameDay env comp (Clock.parseDateOnly today) = inDay env d comp) ->
  shownPoints (eventItems env today l) = sumZ (eventStepZ env d 0 <$> l).
Proof.
  intros Hsame. apply shownPoints_omap. intros ev _.
  destruct kind_not_habit as (_ & Hk & _).
  unfold eventStepZ, completedOn.
  destruct (Event.pointsEnabled ev); [|reflexivity]. cbn [andb negb].
  destruct (Event.completedAt ev) as [comp|]; [|reflexivity].
  rewrite Hsame. destruct (inDay env d comp); [|reflexivity].
  cbn [Item.kind Item.pts]. rewrite Hk. lia.
Qed.

Lemma shown_quests env s today d :
  (forall comp, isSameDay env comp (Clock.parseDateOnly today) = inDay env d comp) ->
  shownPoints (questItems env s today)
  = sumZ (questStepZ env s d 0 <$> assignedQuests s).
Proof.
  intros Hsame. apply shownPoints_omap. intros aq _.
  destruct kind_not_habit as (_ & _ & Hk & _).
  unfold questStepZ, completedOn.
  destruct (AssignedQuest.completedAt aq) as [comp|]; [|reflexivity].
  rewrite Hsame. destruct (inDay env d comp); [|reflexivity].
  destruct (findQuest s _) as [lib|]; [|reflexivity].
  cbn [Item.kind Item.pts]. rewrite Hk. lia.
Qed.

(** X23.  The list 'Completed Today' and the engine, in a zone less than a day
    from UTC: the points listed for tasks, events and quests add up to
    the points these add in [computeDayTotals] - on today at or east of
    UTC, on the day before today west of UTC, because [isSameDay] reads the
    date key as UTC midnight.  With the credits of the habit logs they
    make up the total of that day if its points stay below 2^53, where
    [total += pts] is exact.  The list is in descending order of points
    and holds the entries that the four loops push. *)
Theorem completed_today_lists_what_counts :
  forall env clock s,
    - Clock.msPerDay <= utcOffset env < Clock.msPerDay ->
    let today := Clock.todayStr (utcOffset env) (clock 0%nat) in
    let day := if 0 <=? utcOffset env then today else today - 1 in
    let items := completedToday env clock s in
    shownPoints items = countedPoints env s day
    /\ (exactDay env s day ->
        dayTotal env s day
        = shownPoints items + sumZ (logCredit env s day <$> logsOf s day))
    /\ descending items
    /\ items ≡ₚ taskItems env today (tasks s) ++ habitItems s today
                ++ eventItems env today (events s) ++ questItems env s today.
Proof.
  intros env clock s Htz today d items.
  assert (Hshown : shownPoints items = countedPoints env s d).
  { unfold items, completedToday. fold today.
    rewrite (shownPoints_perm _ _ (sortByPts_perm _)).
    rewrite !shownPoints_app, shown_habits.
    assert (Hsame : forall comp,
               isSameDay env comp (Clock.parseDateOnly today) = inDay env d comp)
      by (intros comp; apply isSameDay_key, Htz).
    rewrite (shown_tasks env today d _ Hsame), (shown_events env today d _ Hsame),
      (shown_quests env s today d Hsame).
    unfold countedPoints. lia. }
  split; [exact Hshown|].
  split; [|split; [apply sortByPts_descending|apply sortByPts_perm]].
  intros Hex. rewrite Hshown, (dayTotal_exact _ _ _ Hex), exactTotal_sum.
  unfold countedPoints.
  change (habitStepZ s (Clock.weekdayOf (utcOffset env) d) 0)
    with (logCredit env s d).
  lia.
Qed.

Lemma completed_today_lists_what_counts_witness :
  shownPoints (completedToday (zoneEnv 0) noonClock (thursdayState "binary" 1 1))
  = countedPoints (zoneEnv 0) (thursdayState "binary" 1 1) 0
  /\ shownPoints
       (completedToday (zoneEnv (- 5 * hourMs)) noonClock
          (thursdayState "binary" 1 1))
     = countedPoints (zoneEnv (- 5 * hourMs)) (thursdayState "binary" 1 1) (-1)
  /\ dayTotal (zoneEnv 0) (thursdayState "binary" 1 1) 0
     = shownPoints
         (completedToday (zoneEnv 0) noonClock (thursdayState "binary" 1 1))
       + 10.
Proof.
  split; [|split].
  - refine (proj1 (completed_today_lists_what_counts (zoneEnv 0) noonClock
                     (thursdayState "binary" 1 1) _)).
    vm_compute. split; [discriminate|reflexivity].
  - refine (proj1 (completed_today_lists_what_counts (zoneEnv (- 5 * hourMs))
                     noonClock (thursdayState "binary" 1 1) _)).
    vm_compute. split; [discriminate|reflexivity].
  - refine (proj1 (proj2 (completed_today_lists_what_counts (zoneEnv 0)
                            noonClock (thursdayState "binary" 1 1) _)) _);
      vm_compute; [split; [discriminate|reflexivity]|reflexivity].
Defined.

(** ** The habit section of the Today view *)

Lemma logsShown_same_day env clock s today :
  (forall k, (k <= length (habitLogs s))%nat ->
             Clock.todayStr (utcOffset env) (clock k) = today) ->
  logsShown env clock s = logsOf s today.
Proof.
  intros Hday. unfold logsShown, logsOf.
  assert (H : forall (l : list HabitLog.t) (g : nat -> HabitLog.t -> option HabitLog.t),
             (forall k x, (k < length l)%nat ->
                          g k x = if bool_decide (HabitLog.date x = today)
                                  then Some x else None) ->
             omap id (imap g l) = filter (fun x => HabitLog.date x = today) l).
  { induction l as [|x l IH]; intros g Hg; [reflexivity|].
    rewrite imap_cons. cbn [omap list_omap].
    rewrite Hg by (cbn; lia). rewrite filter_cons.
    rewrite (IH (g ∘ S)) by (intros k y Hk; apply Hg; cbn; lia).
    destruct (decide (HabitLog.date x = today)) as [Hd|Hd].
    - now rewrite bool_decide_eq_true_2.
    - now rewrite bool_decide_eq_false_2. }
  apply H. intros k x Hk. rewrite Hday by lia. reflexivity.
Qed.

Lemma logMapGet_findLog logs habitId d :
  NoDup ((fun l => (HabitLog.habitId l, HabitLog.date l)) <$> logs) ->
  logMapGet (filter (fun x => HabitLog.date x = d) logs) habitId
  = findLog logs habitId d.
Proof.
  unfold logMapGet, findLog. rewrite list_filter_filter.
  induction logs as [|x l IH]; intros Hnd; [reflexivity|].
  rewrite fmap_cons in Hnd. apply NoDup_cons in Hnd as [Hx Hl].
  rewrite filter_cons. cbn [list_find].
  destruct (decide (HabitLog.habitId x = habitId /\ HabitLog.date x = d))
    as [[Hi Hd]|Hn].
  - assert (Hnone : filter (fun y => HabitLog.habitId y = habitId
                                     /\ HabitLog.date y = d) l = []).
    { destruct (filter _ l) as [|y rest] eqn:E; [reflexivity|exfalso].
      assert (Hy : y ∈ filter (fun y => HabitLog.habitId y = habitId
                                        /\ HabitLog.date y = d) l)
        by (rewrite E; left).
      apply list_elem_of_filter in Hy as [[Hyi Hyd] Hy].
      apply Hx, list_elem_of_fmap. exists y. split; [congruence|exact Hy]. }
    rewrite Hnone. reflexivity.
  - rewrite IH by exact Hl.
    destruct (list_find _ l) as [[i y]|]; reflexivity.
Qed.

Lemma logBefore_found s habitId d log :
  findLog (habitLogs s) habitId d = Some log -> logBefore s habitId d = log.
Proof. intros H. unfold logBefore. now rewrite H. Qed.

Lemma logBefore_habitId s habitId d :
  HabitLog.habitId (logBefore s habitId d) = habitId.
Proof.
  unfold logBefore, findLog.
  destruct (list_find _ (habitLogs s)) as [[i log]|] eqn:Hf; [|reflexivity].
  apply list_find_Some in Hf as (_ & [H _] & _). exact H.
Qed.

Lemma local_weekday env now today :
  0 <= utcOffset env < Clock.msPerDay ->
  Clock.todayStr (utcOffset env) now = today ->
  default ""%string
    (Clock.weekdays !! Z.to_nat (Clock.getDay (utcOffset env) now))
  = Clock.weekdayOf (utcOffset env) today.
Proof.
  intros Htz Hday. unfold Clock.weekdayOf, Clock.getDay. rewrite Hday.
  rewrite todayStr_parseDateOnly by (unfold Clock.msPerDay in *; lia).
  destruct (Z.leb_spec 0 (utcOffset env)); [reflexivity|lia].
Qed.

(** X24.  The section 'Habits for <weekday>' and the engine, in a zone at or
    east of UTC, when the clock reads of the section fall on one day and no
    two logs are for the same habit and date.  The habits listed are those
    the engine takes as scheduled today; each row shows the count of the
    habit's log of today (0 without log), its pill is green exactly when
    that count reaches the threshold of the streak evaluator, and for the
    first habit of an id its badge shows the points the log earns in
    [computeDayTotals]; [allScheduledHabitsComplete(today)] is true exactly
    when every row is green and has a stored log. *)
Theorem habit_rows_show_what_the_engine_counts :
  forall env clock s,
    0 <= utcOffset env < Clock.msPerDay ->
    (forall k, (k <= length (habitLogs s))%nat ->
               Clock.todayStr (utcOffset env) (clock k)
               = Clock.todayStr (utcOffset env) (clock 0%nat)) ->
    logKeysUnique s ->
    let today := Clock.todayStr (utcOffset env) (clock 0%nat) in
    let rows := habitRows env clock s in
    HabitRow.habit <$> rows
    = filter (fun h => scheduledOn (Clock.weekdayOf (utcOffset env) today) h = true)
        (habits s)
    /\ Forall (fun r =>
                 let h := HabitRow.habit r in
                 let lg := logBefore s (Habit.id h) today in
                 HabitRow.count r = HabitLog.count lg
                 /\ HabitRow.isFull r = (thresholdAsCoded h <=? HabitLog.count lg)
                 /\ (findHabit s (Habit.id h) = Some h ->
                     HabitRow.pts r = logCredit env s today lg)) rows
    /\ (allScheduledHabitsComplete env s today = true
        <-> Forall (fun r =>
                      HabitRow.isFull r = true
                      /\ is_Some (findLog (habitLogs s)
                                    (Habit.id (HabitRow.habit r)) today)) rows).
Proof.
  intros env clock s Htz Hday Hnd today rows.
  set (wd := Clock.weekdayOf (utcOffset env) today).
  assert (Hwd : default ""%string
                  (Clock.weekdays
                     !! Z.to_nat (Clock.getDay (utcOffset env) (clock 0%nat)))
                = wd) by (apply local_weekday; [exact Htz|reflexivity]).
  assert (Hget : forall id,
             match logMapGet (logsShown env clock s) id with
             | Some log => HabitLog.count log
             | None => 0
             end = HabitLog.count (logBefore s id today)).
  { intros id. rewrite (logsShown_same_day env clock s today Hday).
    unfold logsOf. rewrite (logMapGet_findLog _ _ _ Hnd). unfold logBefore.
    destruct (findLog (habitLogs s) id today); reflexivity. }
  assert (Hrows : rows
    = (fun h =>
         let count := HabitLog.count (logBefore s (Habit.id h) today) in
         HabitRow.mk h count (thresholdAsCoded h <=? count)
           (if String.eqb (Habit.type h) "binary"
            then (if 1 <=? count then JS.or_else (Habit.points h) 0 else 0)
            else counterPoints count (Habit.target h) (Habit.points h)))
      <$> filter (fun h => scheduledOn wd h = true) (habits s)).
  { unfold rows, habitRows. rewrite Hwd. apply list_fmap_ext. intros i h _.
    cbv zeta. rewrite Hget. unfold thresholdAsCoded, counterPoints.
    rewrite (or_else_0 (HabitLog.count (logBefore s (Habit.id h) today))).
    destruct (String.eqb (Habit.type h) "binary"); reflexivity. }
  rewrite Hrows. clear Hrows rows Hget Hwd.
  split; [|split].
  - rewrite <- list_fmap_compose.
    induction (filter _ (habits s)) as [|h l IH]; [reflexivity|].
    rewrite fmap_cons, IH. reflexivity.
  - rewrite Forall_fmap, Forall_forall. intros h Hh.
    apply list_elem_of_filter in Hh as [Hs Hh]. cbn.
    split; [reflexivity|]. split; [reflexivity|]. intros Hfind.
    unfold logCredit, habitStepZ. rewrite logBefore_habitId, Hfind.
    fold wd. rewrite Hs. cbn [negb]. reflexivity.
  - rewrite allScheduledHabitsComplete_spec. fold wd.
    unfold scheduledHabitsLogged. rewrite Forall_fmap, Forall_forall. split.
    + intros H h Hh. apply list_elem_of_filter in Hh as [Hs Hh]. cbn.
      destruct (H h Hh Hs) as (log & Hlog & Hc).
      rewrite (logBefore_found _ _ _ _ Hlog), Hlog.
      split; [now apply Z.leb_le|now eexists].
    + intros H h Hh Hs.
      destruct (H h) as (Hfull & log & Hlog).
      { apply list_elem_of_filter. split; assumption. }
      cbn [HabitRow.habit HabitRow.isFull] in Hfull, Hlog.
      rewrite (logBefore_found _ _ _ _ Hlog) in Hfull.
      exists log. split; [exact Hlog|now apply Z.leb_le].
Qed.

Lemma habit_rows_show_what_the_engine_counts_witness :
  HabitRow.habit <$> habitRows (zoneEnv 0) noonClock busyState = habits busyState
  /\ HabitRow.pts <$> habitRows (zoneEnv 0) noonClock busyState
     = [counterPoints 1 3 10; 0].
Proof.
  destruct (habit_rows_show_what_the_engine_counts (zoneEnv 0) noonClock busyState)
    as (Hh & Hrows & _).
  - vm_compute. split; [discriminate|reflexivity].
  - intros k Hk. cbn in Hk.
    assert (Hk' : k = 0%nat \/ k = 1%nat) by lia.
    destruct Hk' as [->| ->]; reflexivity.
  - unfold logKeysUnique. cbn. apply NoDup_singleton.
  - split; [exact Hh|]. vm_compute. reflexivity.
Defined.

(** ** The quest sections of the Today view *)

Lemma startOfWeek_day tz a b ws :
  Clock.todayStr tz a = Clock.todayStr tz b ->
  Clock.startOfWeek tz a ws = Clock.startOfWeek tz b ws.
Proof. intros H. unfold Clock.startOfWeek, Clock.getDay. now rewrite H. Qed.

Lemma findQuest_pool s q :
  q ∈ activePool s -> is_Some (findQuest s (QuestLibrary.id q)).
Proof.
  intros Hq. apply list_elem_of_filter in Hq as [_ Hq].
  unfold findQuest.
  destruct (list_find (fun x => QuestLibrary.id x = QuestLibrary.id q)
              (questLibrary s)) as [[i lib]|] eqn:Hf; [now eexists|].
  apply list_find_None in Hf. rewrite Forall_forall in Hf.
  now destruct (Hf q Hq).
Qed.

(** X25.  The quests a rollover assigns are the ones the Today view offers: in
    a zone at or east of UTC, every quest [ensureRollover] creates has its
    library entry and is rendered, at any instant of the same day, in
    'Daily Quests' with the base points of the entry or in 'Weekly Quests'
    with the points [Math.floor(base * multiplier)]. *)
Theorem rollover_quests_show_in_the_today_view :
  forall env s now clock,
    randomSource env ->
    Z.of_nat (length (questLibrary s)) < arrayLimit ->
    0 <= utcOffset env < Clock.msPerDay ->
    Clock.todayStr (utcOffset env) (clock 0%nat)
    = Clock.todayStr (utcOffset env) now ->
    exists created s',
      ensureRollover env now s = Some (tt, s')
      /\ assignedQuests s' = assignedQuests s ++ created
      /\ Forall (fun aq =>
                   exists lib,
                     findQuest s' (AssignedQuest.libraryId aq) = Some lib
                     /\ (QuestRow.mk aq (JS.or_else (QuestLibrary.basePoints lib) 0)
                           ∈ dailyQuestRows env clock s'
                         \/ QuestRow.mk aq
                              (questPoints
                                 (JS.or_else (QuestLibrary.basePoints lib) 0)
                                 (AssignedQuest.multiplier aq))
                              ∈ weeklyQuestRows env clock s')) created.
Proof.
  intros env s now clock Hsrc Hlen Htz Hday.
  pose proof (randomSource_shuffles env s Hsrc Hlen) as Hok.
  destruct (ensureRollover_effect env now s Hok)
    as (D & W & rc & uc & Hrun & HD & HW & _ & _).
  set (today := Clock.todayStr (utcOffset env) now) in *.
  exists (D ++ W). eexists. split; [exact Hrun|]. split; [reflexivity|].
  match type of Hrun with _ = Some (tt, ?st) => set (s' := st) end.
  assert (Hlib : forall aq, newQuest s aq ->
             exists lib, findQuest s' (AssignedQuest.libraryId aq) = Some lib).
  { intros aq (_ & q & Hq & Hid). rewrite Hid.
    destruct (findQuest_pool s q Hq) as [lib Hl]. now exists lib. }
  assert (Hweek : weekOfKey env s today
                  = Clock.weekOf (utcOffset env) (clock 0%nat)
                      (Settings.weekStart (settings s'))).
  { unfold weekOfKey, Clock.weekOf. apply startOfWeek_day.
    rewrite Hday. fold today.
    rewrite todayStr_parseDateOnly by (unfold Clock.msPerDay in *; lia).
    destruct (Z.leb_spec 0 (utcOffset env)); [reflexivity|lia]. }
  apply Forall_app. split.
  - rewrite Forall_forall in HD |- *. intros aq Hin.
    destruct (HD aq Hin) as (Hnew & Htype & Hdate & _).
    destruct (Hlib aq Hnew) as [lib Hl]. exists lib. split; [exact Hl|]. left.
    unfold dailyQuestRows. apply list_elem_of_omap. exists aq. split.
    + apply list_elem_of_filter. split.
      * split; [exact Htype|]. rewrite Hdate, Hday. reflexivity.
      * cbn. rewrite !elem_of_app. auto.
    + now rewrite Hl.
  - rewrite Forall_forall in HW |- *. intros aq Hin.
    destruct (HW aq Hin) as (Hnew & Htype & _ & Hwk & _).
    destruct (Hlib aq Hnew) as [lib Hl]. exists lib. split; [exact Hl|]. right.
    unfold weeklyQuestRows. apply list_elem_of_omap. exists aq. split.
    + apply list_elem_of_filter. split.
      * split; [exact Htype|]. rewrite Hwk, Hweek. reflexivity.
      * cbn. rewrite !elem_of_app. auto.
    + now rewrite Hl.
Qed.

Lemma rollover_quests_show_in_the_today_view_witness :
  exists created s',
    ensureRollover (zoneEnv 0) exampleNow exampleState = Some (tt, s')
    /\ assignedQuests s' = created
    /\ Forall (fun aq =>
                 exists pts,
                   QuestRow.mk aq pts
                     ∈ dailyQuestRows (zoneEnv 0) (fun _ => exampleNow) s'
                       ++ weeklyQuestRows (zoneEnv 0) (fun _ => exampleNow) s')
         created.
Proof.
  destruct (rollover_quests_show_in_the_today_view (zoneEnv 0) exampleState
              exampleNow (fun _ => exampleNow) (zoneEnv_randomSource 0))
    as (created & s' & Hrun & Hq & Hall).
  - vm_compute. reflexivity.
  - vm_compute. split; [discriminate|reflexivity].
  - reflexivity.
  - exists created, s'. split; [exact Hrun|]. split; [exact Hq|].
    eapply Forall_impl; [exact Hall|]. intros aq (lib & _ & [H|H]).
    + eexists. apply elem_of_app. left. exact H.
    + eexists. apply elem_of_app. right. exact H.
Defined.

(** West of UTC the hypothesis on the zone is needed: on Monday 10 January
    2022, 07:00 local time in the zone five hours west of UTC, the first
    rollover stamps its weekly quests with the week of 3 January, and the
    section of the week of 10 January shows none of them. *)
Example weekly_quests_west_of_utc :
  let env := zoneEnv (- 5 * hourMs) in
  let now := 19002 * Clock.msPerDay + 12 * hourMs in
  exists s',
    ensureRollover env now exampleState = Some (tt, s')
    /\ AssignedQuest.weekOf <$> assignedQuests s'
       = [None; None; None; Some 18995; Some 18995; Some 18995]
    /\ Clock.weekOf (utcOffset env) now (Settings.weekStart (settings s')) = 19002
    /\ weeklyQuestRows env (fun _ => now) s' = []
    /\ length (dailyQuestRows env (fun _ => now) s') = 3%nat.
Proof.
  intros env now.
  destruct (ensureRollover env now exampleState) as [[[] s']|] eqn:Hrun;
    [|vm_compute in Hrun; discriminate Hrun].
  exists s'. split; [reflexivity|].
  vm_compute in Hrun. injection Hrun as <-.
  repeat split; vm_compute; reflexivity.
Qed.
